(** * Verification of the LDAP identity-federation adapter
    (data/users/externalldap.py)

    The adapter is embedded shallowly: Python strings are [string], dicts keyed
    by attribute name are association lists, exceptions are an explicit outcome,
    and every round-trip to the directory is an event appended to a history
    that is threaded through the operations.  The directory-protocol client
    (python-ldap) is a capability record whose answers may depend on the
    history so far. *)

From Stdlib Require Import String Ascii List Bool Arith Lia.
Import ListNotations.
Open Scope string_scope.
Open Scope list_scope.

Notation "s1 +++ s2" := (String.append s1 s2) (at level 60, right associativity).

(** ** Python string helpers *)

Module PyStr.

(** The line-feed and double-quote characters, which have no escape in a
    string literal here. *)
Definition LF : string := String (ascii_of_nat 10) EmptyString.
Definition DQ : string := String (ascii_of_nat 34) EmptyString.
Definition NUL : ascii := ascii_of_nat 0.
Definition BACKSLASH : ascii := ascii_of_nat 92.

(** [s.startswith(p)] *)
Definition startswith (s p : string) : bool := String.prefix p s.

(** [s.endswith(p)] *)
Definition endswith (s p : string) : bool :=
  let n := String.length s in
  let m := String.length p in
  Nat.leb m n && String.eqb (String.substring (n - m) m s) p.

(** [s[n:]] *)
Definition drop (n : nat) (s : string) : string :=
  String.substring n (String.length s - n) s.

(** [sep.join(l)] *)
Definition join (sep : string) (l : list string) : string := String.concat sep l.

(** [s.split(c)] for a one-character separator. *)
Fixpoint split (c : ascii) (s : string) : list string :=
  match s with
  | EmptyString => [EmptyString]
  | String a rest =>
      if Ascii.eqb a c then EmptyString :: split c rest
      else match split c rest with
           | [] => [String a EmptyString]
           | w :: ws => String a w :: ws
           end
  end.

(** [s.replace(c, r)] for a one-character pattern [c]. *)
Fixpoint replace (c : ascii) (r : string) (s : string) : string :=
  match s with
  | EmptyString => EmptyString
  | String a rest =>
      if Ascii.eqb a c then r +++ replace c r rest
      else String a (replace c r rest)
  end.

(** [c in s] for a character. *)
Fixpoint mem (c : ascii) (s : string) : bool :=
  match s with
  | EmptyString => false
  | String a rest => Ascii.eqb a c || mem c rest
  end.

End PyStr.

(** ** Python truth values

    [bool(x)], as [not x], [if x] and [x or y] use it. *)

Class Truthy (A : Type) := truthy : A -> bool.

#[global] Instance Truthy_bool : Truthy bool := fun b => b.
#[global] Instance Truthy_string : Truthy string :=
  fun s => match s with EmptyString => false | _ => true end.
#[global] Instance Truthy_nat : Truthy nat :=
  fun n => match n with O => false | _ => true end.
#[global] Instance Truthy_list {A} : Truthy (list A) :=
  fun l => match l with [] => false | _ => true end.
(** [None] is false; any other value has the truth value of its type. *)
#[global] Instance Truthy_option {A} `{Truthy A} : Truthy (option A) :=
  fun o => match o with None => false | Some a => truthy a end.
(** A tuple of two elements is not empty, hence true whatever it holds. *)
#[global] Instance Truthy_pair {A B} : Truthy (A * B) := fun _ => true.

(** ** Dicts with string keys *)

Definition dict (V : Type) := list (string * V).

Fixpoint dict_get {V} (d : dict V) (k : string) : option V :=
  match d with
  | [] => None
  | (k', v) :: rest => if String.eqb k' k then Some v else dict_get rest k
  end.

(** ** The directory-protocol client (python-ldap) *)

Inductive ldap_kind := K_REFERRAL | K_NO_SUCH_OBJECT | K_INVALID_CREDENTIALS | K_OTHER.

(** An [ldap.LDAPError]: its class, [args[0]] (a dict) and [str(e)]. *)
Record ldap_error := {
  kind : ldap_kind;
  args0 : dict string;
  str_of : string
}.

Inductive exn :=
| LDAPError (e : ldap_error)
| IndexError
| KeyError
| AttributeError
| TypeError
| UnboundLocalError
| AssertionError.

Inductive scope := SCOPE_BASE | SCOPE_SUBTREE.

(** Attribute map of an entry: attribute name to its values. *)
Definition attrs := dict (list string).

(** The second element of a search result: an attribute map, or, for a
    referral-shaped result, a list of URLs. *)
Inductive payload :=
| Attrs (a : attrs)
| RefList (urls : list string).

(** A search result [(dn, attrs)]; some servers return pairs without a DN. *)
Definition pair := (option string * payload)%type.

Record control := {
  controlType : string;
  cookie : string
}.

(** [ldap.controls.SimplePagedResultsControl.controlType] *)
Definition PAGED_RESULTS_OID : string := "1.2.840.113556.1.4.319".

Definition msgid := nat.

(** One round-trip to the directory. *)
Inductive event :=
| EBind (uri who cred : string)
| EUnbind
| ESearchS (base : string) (sc : scope) (flt : string)
| ESearchExt (base : string) (sc : scope) (flt : string)
             (size : nat) (ck : string) (attrlist : option (list string))
| ESearch (base : string) (sc : scope) (flt : string)
          (attrlist : option (list string))
| EResult3 (m : msgid)
| EResult (m : msgid).

Definition history := list event.

(** The client capability.  Every operation sees the round-trips made so far,
    so a server may answer the same request differently over time. *)
Record DirectoryClient := {
  simple_bind_s : history -> string -> string -> string -> option ldap_error;
  search_s : history -> string -> scope -> string -> ldap_error + list pair;
  search_ext : history -> string -> scope -> string -> nat -> string ->
               option (list string) -> ldap_error + msgid;
  search : history -> string -> scope -> string -> option (list string) ->
           ldap_error + msgid;
  result3 : history -> msgid -> ldap_error + (list pair * list control);
  result : history -> msgid -> ldap_error + list pair
}.

(** ** Computations: a history of round-trips and a Python outcome *)

Inductive outcome (A : Type) :=
| Ret (a : A)
| Raise (e : exn)
| OutOfFuel.
Arguments Ret {A} a.
Arguments Raise {A} e.
Arguments OutOfFuel {A}.

Definition M (A : Type) := history -> history * outcome A.

Definition ret {A} (a : A) : M A := fun h => (h, Ret a).
Definition raise {A} (e : exn) : M A := fun h => (h, Raise e).
Definition bind {A B} (m : M A) (k : A -> M B) : M B :=
  fun h => match m h with
           | (h', Ret a) => k a h'
           | (h', Raise e) => (h', Raise e)
           | (h', OutOfFuel) => (h', OutOfFuel)
           end.

Notation "x <- m ;; k" := (bind m (fun x => k))
  (at level 61, m at next level, right associativity).
Notation "' pat <- m ;; k" := (bind m (fun x => match x with pat => k end))
  (at level 61, pat pattern, m at next level, right associativity).

(** [try: m  except ldap.LDAPError as e: handler e]; other exceptions pass. *)
Definition try_ldap {A} (m : M A) (handler : ldap_error -> M A) : M A :=
  fun h => match m h with
           | (h', Raise (LDAPError e)) => handler e h'
           | r => r
           end.

(** Performs one client call and records it. *)
Definition call {A} (ev : event) (answer : history -> ldap_error + A) : M A :=
  fun h => match answer h with
           | inl e => (h ++ [ev], Raise (LDAPError e))
           | inr a => (h ++ [ev], Ret a)
           end.

(** [ldap.filter.escape_filter_chars(assertion_value)] with the default
    escape mode, as python-ldap writes it: five replacements in this order. *)
Definition escape_filter_chars (assertion_value : string) : string :=
  let s := PyStr.replace PyStr.BACKSLASH "\5c" assertion_value in
  let s := PyStr.replace "*"%char "\2a" s in
  let s := PyStr.replace "("%char "\28" s in
  let s := PyStr.replace ")"%char "\29" s in
  let s := PyStr.replace PyStr.NUL "\00" s in
  s.

(** [ldap.filter.filter_format("(%s=%s,%s)", (a, b, c))]: every value is
    escaped, then interpolated. *)
Definition filter_format3 (a b c : string) : string :=
  "(" +++ escape_filter_chars a +++ "=" +++ escape_filter_chars b +++ ","
      +++ escape_filter_chars c +++ ")".

(** Modelled from the spec: [util.itertoolrecipes.take], which is not among the
    sources; the search "truncates results to the caller-supplied limit". *)
Definition take {A} (n : nat) (l : list A) : list A := firstn n l.

(** ** The adapter's data *)

Record UserInformation := {
  username : string;
  email : option string;
  id : string
}.

(** The namedtuple [_LDAPResult(dn, attrs)]. *)
Record _LDAPResult := {
  dn : option string;
  res_attrs : payload
}.

Definition _DEFAULT_PAGE_SIZE : nat := 1000.

Record LDAPUsers := {
  _ldap_uri : string;
  _admin_dn : string;
  _admin_passwd : string;
  _uid_attr : string;
  _email_attr : string;
  _memberof_attr : string;
  _requires_email : bool;
  _force_no_pagination : bool;
  _ldap_user_filter : option string;
  _ldap_superuser_filter : option string;
  _ldap_global_readonly_superuser_filter : option string;
  _ldap_restricted_user_filter : option string;
  _user_dns : list string;
  _base_dn : string
}.

(** [get_full_rdn] of [LDAPUsers.__init__]. *)
Definition get_full_rdn (base_dn : list string) (relative_dn : string) : string :=
  let prefix := if truthy relative_dn then PyStr.split ","%char relative_dn else [] in
  PyStr.join "," (prefix ++ base_dn).

(** [LDAPUsers.__init__]: [user_rdn] is a list of RDN pieces, and
    [secondary_user_rdns] a list of RDN strings or [None]. *)
Definition LDAPUsers_init (ldap_uri : string) (base_dn : list string)
    (admin_dn admin_passwd : string) (user_rdn : list string)
    (uid_attr email_attr memberof_attr : string)
    (secondary_user_rdns : option (list string))
    (requires_email force_no_pagination : bool)
    (ldap_user_filter ldap_superuser_filter
     ldap_global_readonly_superuser_filter ldap_restricted_user_filter : option string)
  : LDAPUsers :=
  let relative_user_dns :=
    [PyStr.join "," user_rdn] ++
    (match secondary_user_rdns with Some l => if truthy l then l else [] | None => [] end) in
  {| _ldap_uri := ldap_uri;
     _admin_dn := admin_dn;
     _admin_passwd := admin_passwd;
     _uid_attr := uid_attr;
     _email_attr := email_attr;
     _memberof_attr := memberof_attr;
     _requires_email := requires_email;
     _force_no_pagination := force_no_pagination;
     _ldap_user_filter := ldap_user_filter;
     _ldap_superuser_filter := ldap_superuser_filter;
     _ldap_global_readonly_superuser_filter := ldap_global_readonly_superuser_filter;
     _ldap_restricted_user_filter := ldap_restricted_user_filter;
     _user_dns := map (get_full_rdn base_dn) relative_user_dns;
     _base_dn := PyStr.join "," base_dn |}.

(** ** Referral parsing and filter composition (no round-trip) *)

Definition REFERRAL_HEADER : string := "Referral:" +++ PyStr.LF.
Definition REFERRAL_SCHEME : string := "ldap:///".

Definition _get_ldap_referral_dn (referral_exception : ldap_error) : option string :=
  if negb (truthy (args0 referral_exception))
     || negb (truthy (dict_get (args0 referral_exception) "info"))
  then None
  else
    match dict_get (args0 referral_exception) "info" with
    | None => None
    | Some referral_info =>
        if negb (PyStr.startswith referral_info REFERRAL_HEADER) then None
        else
          let referral_uri := PyStr.drop (String.length REFERRAL_HEADER) referral_info in
          if negb (PyStr.startswith referral_uri REFERRAL_SCHEME) then None
          else Some (PyStr.drop (String.length REFERRAL_SCHEME) referral_uri)
    end.

Definition parenthesize (q : string) : string :=
  if negb (PyStr.startswith q "(") || negb (PyStr.endswith q ")")
  then "(" +++ q +++ ")" else q.

Definition _add_filter (query user_filter : string) : string :=
  let query := parenthesize query in
  let user_filter := parenthesize user_filter in
  "(&" +++ query +++ user_filter +++ ")".

(** ** The adapter's operations *)

Section Adapter.

(** The directory client; the host application's robot lookup
    ([data.model.user.lookup_robot], which is not among the sources: [true]
    when the name is a robot account, [false] when it raises
    [InvalidRobotException]); and the configured adapter. *)
Variable srv : DirectoryClient.
Variable lookup_robot : string -> bool.
Variable self : LDAPUsers.

(** [with LDAPConnection(uri, who, cred): body].  [__enter__] binds and may
    raise, in which case nothing is released; otherwise [__exit__] unbinds on
    every exit path of the body. *)
Definition with_LDAPConnection {A} (who cred : string) (body : M A) : M A :=
  fun h =>
    let h1 := h ++ [EBind (_ldap_uri self) who cred] in
    match simple_bind_s srv h (_ldap_uri self) who cred with
    | Some e => (h1, Raise (LDAPError e))
    | None => let (h2, r) := body h1 in (h2 ++ [EUnbind], r)
    end.

(** [with self._ldap.get_connection() as conn: body] *)
Definition with_get_connection {A} (body : M A) : M A :=
  with_LDAPConnection (_admin_dn self) (_admin_passwd self) body.

(** [try: with self._ldap.get_connection(): pass
     except ldap.INVALID_CREDENTIALS: return on_invalid], then [rest]. *)
Definition check_admin_bind {A} (on_invalid : A) (rest : M A) : M A :=
  fun h =>
    match with_get_connection (ret tt) h with
    | (h', Raise (LDAPError e)) =>
        match kind e with
        | K_INVALID_CREDENTIALS => (h', Ret on_invalid)
        | _ => (h', Raise (LDAPError e))
        end
    | (h', Raise e) => (h', Raise e)
    | (h', OutOfFuel) => (h', OutOfFuel)
    | (h', Ret _) => rest h'
    end.

Definition _add_user_filter (query : string) : string :=
  if negb (truthy (_ldap_user_filter self)) then query
  else match _ldap_user_filter self with
       | Some user_filter => _add_filter query user_filter
       | None => query
       end.

(** [assert flt; return self._add_filter(query, flt)] *)
Definition add_asserted_filter (flt : option string) (query : string) : M string :=
  match flt with
  | Some f => if truthy f then ret (_add_filter query f) else raise AssertionError
  | None => raise AssertionError
  end.

Definition _add_superuser_filter := add_asserted_filter (_ldap_superuser_filter self).
Definition _add_global_readonly_superuser_filter :=
  add_asserted_filter (_ldap_global_readonly_superuser_filter self).
Definition _add_restricted_user_filter :=
  add_asserted_filter (_ldap_restricted_user_filter self).

(** The query of the user search before the role filters:
    ["(|({0}={2}{3})({1}={2}{3}))".format(uid, email, escaped, suffix)],
    with the user filter added. *)
Definition user_query (username_or_email suffix : string) : string :=
  let term := escape_filter_chars username_or_email +++ suffix in
  _add_user_filter
    ("(|(" +++ _uid_attr self +++ "=" +++ term +++ ")("
           +++ _email_attr self +++ "=" +++ term +++ "))").

(** The identity-only query of the referral retry:
    ["(%s=%s)" % (uid, username_or_email)], with the user filter added. *)
Definition referral_subquery (username_or_email : string) : string :=
  _add_user_filter ("(" +++ _uid_attr self +++ "=" +++ username_or_email +++ ")").

Definition search_outcome := (option (list pair) * option string)%type.

(** The [try] block of [_ldap_user_search_with_rdn]: the subtree search with
    the composed query, the single referral retry, and the handlers that
    turn protocol errors into a result with a message. *)
Definition search_following_referral (username_or_email user_search_dn query : string)
  : M search_outcome :=
  try_ldap
    (pairs <- call (ESearchS user_search_dn SCOPE_SUBTREE query)
                   (fun h => search_s srv h user_search_dn SCOPE_SUBTREE query) ;;
     ret (Some pairs, None))
    (fun re =>
       match kind re with
       | K_REFERRAL =>
           match _get_ldap_referral_dn re with
           | Some referral_dn =>
               if negb (truthy referral_dn)
               then ret (None, Some "Failed to follow referral when looking up username")
               else
                 try_ldap
                   (let subquery := referral_subquery username_or_email in
                    pairs <- call (ESearchS referral_dn SCOPE_BASE subquery)
                                  (fun h => search_s srv h referral_dn SCOPE_BASE subquery) ;;
                    ret (Some pairs, None))
                   (fun _ => ret (None, Some "Username not found"))
           | None => ret (None, Some "Failed to follow referral when looking up username")
           end
       | _ => ret (None, Some "Username not found")
       end).

Definition _ldap_user_search_with_rdn (username_or_email user_search_dn suffix : string)
    (filter_superusers filter_restricted_users filter_global_readonly_superusers : bool)
  : M search_outcome :=
  let query := user_query username_or_email suffix in
  let run := search_following_referral username_or_email user_search_dn in
  if filter_restricted_users then
    if negb (truthy (_ldap_restricted_user_filter self))
    then ret (None, Some "Username not found")
    else query <- _add_restricted_user_filter query ;; run query
  else if filter_superusers then
    if negb (truthy (_ldap_superuser_filter self))
    then ret (None, Some "Superuser username not found")
    else query <- _add_superuser_filter query ;; run query
  else if filter_global_readonly_superusers then
    if negb (truthy (_ldap_global_readonly_superuser_filter self))
    then ret (None, Some "Global readonly superuser username not found")
    else query <- _add_global_readonly_superuser_filter query ;; run query
  else run query.

(** The [for user_search_dn in self._user_dns] loop of [_ldap_user_search]:
    [last] holds [(pairs, err_msg)] as the previous iteration left them. *)
Fixpoint user_search_loop (username_or_email suffix : string)
    (fs fr fg : bool) (dns : list string) (last : option search_outcome)
  : M (option search_outcome) :=
  match dns with
  | [] => ret last
  | user_search_dn :: rest =>
      r <- _ldap_user_search_with_rdn username_or_email user_search_dn suffix fs fr fg ;;
      match fst r with
      | Some pairs =>
          if Nat.ltb 0 (List.length pairs) then ret (Some r)
          else user_search_loop username_or_email suffix fs fr fg rest (Some r)
      | None => user_search_loop username_or_email suffix fs fr fg rest (Some r)
      end
  end.

Definition _ldap_user_search (username_or_email : string) (limit : nat) (suffix : string)
    (filter_superusers filter_restricted_users filter_global_readonly_superusers : bool)
  : M (option (list _LDAPResult) * option string) :=
  if negb (truthy username_or_email) then ret (None, Some "Empty username/email")
  else if lookup_robot username_or_email
  then ret (None, Some ("LDAP lookup for robots disabled " +++ username_or_email))
  else
    check_admin_bind (None, Some "LDAP Admin dn or password is invalid")
      (with_get_connection
         (last <- user_search_loop username_or_email suffix filter_superusers
                    filter_restricted_users filter_global_readonly_superusers
                    (_user_dns self) None ;;
          match last with
          | None => raise UnboundLocalError
          | Some (_, Some err_msg) => ret (None, Some err_msg)
          | Some (None, None) => raise TypeError
          | Some (Some pairs, None) =>
              let results :=
                map (fun p : pair => {| dn := fst p; res_attrs := snd p |})
                    (take limit pairs) in
              let with_dns := filter (fun result => truthy (dn result)) results in
              ret (Some with_dns, None)
          end)).

(** [attrs.get(name)] on the second element of a result; a referral-shaped
    one is a list and has no [get]. *)
Definition payload_get (p : payload) (name : string) : outcome (option (list string)) :=
  match p with
  | Attrs a => Ret (dict_get a name)
  | RefList _ => Raise AttributeError
  end.

(** [[result for result in with_dns if result.attrs.get(self._email_attr)]] *)
Fixpoint with_mail_of (with_dns : list _LDAPResult) : outcome (list _LDAPResult) :=
  match with_dns with
  | [] => Ret []
  | result :: rest =>
      match payload_get (res_attrs result) (_email_attr self) with
      | Ret v =>
          match with_mail_of rest with
          | Ret l => Ret (if truthy v then result :: l else l)
          | Raise e => Raise e
          | OutOfFuel => OutOfFuel
          end
      | Raise e => Raise e
      | OutOfFuel => OutOfFuel
      end
  end.

Definition lift {A} (o : outcome A) : M A := fun h => (h, o).

Definition _ldap_single_user_search (username_or_email : string)
    (filter_superusers filter_restricted_users filter_global_readonly_superusers : bool)
  : M (option _LDAPResult * option string) :=
  if lookup_robot username_or_email
  then ret (None, Some ("LDAP lookup for robots disabled " +++ username_or_email))
  else
    r <- _ldap_user_search username_or_email 20 "" filter_superusers
           filter_restricted_users filter_global_readonly_superusers ;;
    match r with
    | (_, Some err_msg) => ret (None, Some err_msg)
    | (None, None) => raise TypeError
    | (Some with_dns, None) =>
        if Nat.ltb (List.length with_dns) 1
        then ret (None, Some "Invalid username or password.")
        else match with_dns with
             | [only] => ret (Some only, None)
             | _ =>
                 with_mail <- lift (with_mail_of with_dns) ;;
                 match with_mail, with_dns with
                 | m :: _, _ => ret (Some m, None)
                 | [], d :: _ => ret (Some d, None)
                 | [], [] => raise IndexError
                 end
             end
    end.

(** Values are byte strings that the source decodes as UTF-8, keeping the raw
    value when that does not apply; here a value is the text it stands for. *)
Definition _build_user_information (response : payload)
  : outcome (option UserInformation * option string) :=
  match response with
  | RefList _ => Raise AttributeError
  | Attrs a =>
      if negb (truthy (dict_get a (_uid_attr self)))
      then Ret (None, Some ("Missing uid field " +++ PyStr.DQ +++ _uid_attr self
                              +++ PyStr.DQ +++ " in user record"))
      else if _requires_email self && negb (truthy (dict_get a (_email_attr self)))
      then Ret (None, Some ("Missing mail field " +++ PyStr.DQ +++ _email_attr self
                              +++ PyStr.DQ +++ " in user record"))
      else
        match dict_get a (_uid_attr self) with
        | Some (username :: _) =>
            match dict_get a (_email_attr self) with
            | None => Ret (Some {| username := username; email := None; id := username |}, None)
            | Some [] => Raise IndexError
            | Some (email :: _) =>
                Ret (Some {| username := username; email := Some email; id := username |},
                     None)
            end
        | Some [] => Raise IndexError
        | None => Raise KeyError
        end
  end.

Definition get_user (username_or_email : string)
  : M (option UserInformation * option string) :=
  r <- _ldap_single_user_search username_or_email false false false ;;
  match r with
  | (_, Some err_msg) => ret (None, Some err_msg)
  | (None, None) => raise TypeError
  | (Some found_user, None) => lift (_build_user_information (res_attrs found_user))
  end.

(** The body of the [for user_search_dn] loop of [at_least_one_user_exists],
    and the loop; [inl] is an early [return], [inr tt] falls out of the loop. *)
Definition existence_query (filter_superusers filter_restricted_users : bool)
  : M (string + (option bool * option string)) :=
  let search_flt := _add_user_filter "(objectClass=*)" in
  if filter_restricted_users then
    if truthy (_ldap_restricted_user_filter self)
    then q <- _add_restricted_user_filter search_flt ;; ret (inl q)
    else ret (inr (Some false, Some "Superuser filter not set"))
  else if filter_superusers then
    if truthy (_ldap_superuser_filter self)
    then q <- _add_superuser_filter search_flt ;; ret (inl q)
    else ret (inr (Some false, Some "Restricted user filter not set"))
  else ret (inl search_flt).

Definition fetch_first_batch (has_pagination : bool) (user_search_dn search_flt : string)
  : M (list pair) :=
  if has_pagination then
    m <- call (ESearchExt user_search_dn SCOPE_SUBTREE search_flt 1 "" None)
              (fun h => search_ext srv h user_search_dn SCOPE_SUBTREE search_flt 1 "" None) ;;
    r <- call (EResult3 m) (fun h => result3 srv h m) ;;
    ret (fst r)
  else
    m <- call (ESearch user_search_dn SCOPE_SUBTREE search_flt None)
              (fun h => search srv h user_search_dn SCOPE_SUBTREE search_flt None) ;;
    call (EResult m) (fun h => result srv h m).

Fixpoint existence_loop (has_pagination filter_superusers filter_restricted_users : bool)
    (dns : list string) : M (option bool * option string) :=
  match dns with
  | [] => ret (Some false, None)
  | user_search_dn :: rest =>
      q <- existence_query filter_superusers filter_restricted_users ;;
      match q with
      | inr early => ret early
      | inl search_flt =>
          found <- try_ldap
                     (rdata <- fetch_first_batch has_pagination user_search_dn search_flt ;;
                      match rdata with
                      | _ :: _ => ret (Some (Some true, @None string))
                      | [] => ret None
                      end)
                     (fun lde =>
                        ret (Some (Some false,
                                   Some (if truthy (str_of lde) then str_of lde
                                         else "Could not find DN " +++ user_search_dn)))) ;;
          match found with
          | Some r => ret r
          | None => existence_loop has_pagination filter_superusers
                      filter_restricted_users rest
          end
      end
  end.

Definition at_least_one_user_exists (filter_superusers filter_restricted_users : bool)
  : M (option bool * option string) :=
  check_admin_bind (None, Some "LDAP Admin dn or password is invalid")
    (let has_pagination := negb (_force_no_pagination self) in
     with_get_connection
       (existence_loop has_pagination filter_superusers filter_restricted_users
          (_user_dns self))).

Definition dn_text (d : option string) : string :=
  match d with Some s => s | None => "" end.

Definition verify_credentials (username_or_email password : string)
  : M (option UserInformation * option string) :=
  if negb (truthy password) then ret (None, Some "Anonymous binding not allowed.")
  else
    r <- _ldap_single_user_search username_or_email false false false ;;
    match r with
    | (None, err_msg) => ret (None, err_msg)
    | (Some found_user, _) =>
        let found_dn := dn found_user in
        let found_response := res_attrs found_user in
        let invalid := (@None UserInformation, Some "Invalid username or password.") in
        checked <-
          (fun h =>
             match with_LDAPConnection (dn_text found_dn) password (ret tt) h with
             | (h', Raise (LDAPError re)) =>
                 match kind re with
                 | K_REFERRAL =>
                     match _get_ldap_referral_dn re with
                     | Some referral_dn =>
                         if negb (truthy referral_dn) then (h', Ret (Some invalid))
                         else
                           match with_LDAPConnection referral_dn password (ret tt) h' with
                           | (h2, Raise (LDAPError e)) =>
                               match kind e with
                               | K_INVALID_CREDENTIALS => (h2, Ret (Some invalid))
                               | _ => (h2, Raise (LDAPError e))
                               end
                           | (h2, Raise e) => (h2, Raise e)
                           | (h2, OutOfFuel) => (h2, OutOfFuel)
                           | (h2, Ret _) => (h2, Ret None)
                           end
                     | None => (h', Ret (Some invalid))
                     end
                 | K_INVALID_CREDENTIALS => (h', Ret (Some invalid))
                 | _ => (h', Raise (LDAPError re))
                 end
             | (h', Raise e) => (h', Raise e)
             | (h', OutOfFuel) => (h', OutOfFuel)
             | (h', Ret _) => (h', Ret None)
             end) ;;
        match checked with
        | Some failure => ret failure
        | None => lift (_build_user_information found_response)
        end
    end.

Definition is_superuser (username_or_email : string) : M bool :=
  if negb (truthy username_or_email) then ret false
  else if lookup_robot username_or_email then ret false
  else
    r <- _ldap_single_user_search username_or_email true false false ;;
    match fst r with
    | None => ret false
    | Some _ => ret true
    end.

Definition is_global_readonly_superuser (username_or_email : string) : M bool :=
  if negb (truthy username_or_email) then ret false
  else if lookup_robot username_or_email then ret false
  else
    r <- _ldap_single_user_search username_or_email false false true ;;
    match fst r with
    | None => ret false
    | Some _ => ret true
    end.

Definition is_none {A} (o : option A) : bool :=
  match o with None => true | Some _ => false end.

Definition is_restricted_user (username_or_email : string) : M bool :=
  if negb (truthy username_or_email) then ret false
  else if is_none (_ldap_restricted_user_filter self) then ret true
  else if lookup_robot username_or_email then ret false
  else
    r <- _ldap_single_user_search username_or_email false true false ;;
    match fst r with
    | None => ret false
    | Some _ => ret true
    end.

Definition has_superusers : M (option bool) :=
  r <- at_least_one_user_exists true false ;; ret (fst r).

(** [if self._ldap_restricted_user_filter is None and
        self.at_least_one_user_exists(): return True]: the second operand is
    evaluated only when the first holds, and is the returned tuple itself. *)
Definition has_restricted_users : M (option bool) :=
  short_circuit <-
    (if is_none (_ldap_restricted_user_filter self)
     then r <- at_least_one_user_exists false false ;; ret (truthy r)
     else ret false) ;;
  if short_circuit then ret (Some true)
  else r <- at_least_one_user_exists false true ;; ret (fst r).

(** ** Group-member enumeration: a generator

    A generator that has been resumed is at one of four points: it yielded a
    value (and can be resumed, with the history as it is by then), it
    returned, it raised, or the model's bound on pages was reached. *)
Inductive gen (A : Type) :=
| GYield (a : A) (h : history) (resume : history -> gen A)
| GStop (h : history)
| GRaise (e : exn) (h : history)
| GFuel.
Arguments GYield {A} a h resume.
Arguments GStop {A} h.
Arguments GRaise {A} e h.
Arguments GFuel {A}.

Definition member := (option UserInformation * option string)%type.

Section Members.

Variable search_flt : string.
Variable page_size : nat.
Variable has_pagination : bool.

Definition attributes : option (list string) :=
  Some [_uid_attr self; _email_attr self].

(** [for userdata in rdata]: referral-shaped results are skipped, every
    other one is resolved and yielded; then [after]. *)
Fixpoint yield_users (rdata : list pair) (after : history -> gen member)
    (h : history) : gen member :=
  match rdata with
  | [] => after h
  | userdata :: rest =>
      match snd userdata with
      | RefList _ => yield_users rest after h
      | Attrs a =>
          match _build_user_information (Attrs a) with
          | Ret info => GYield info h (yield_users rest after)
          | Raise e => GRaise e (h ++ [EUnbind])
          | OutOfFuel => GFuel
          end
      end
  end.

(** The paging controls among the controls the server answered with. *)
Definition paging_controls (serverctrls : list control) : list control :=
  filter (fun c => String.eqb (controlType c) PAGED_RESULTS_OID) serverctrls.

(** [conn.result3(msgid)] or [conn.result(msgid)]; without pagination no
    server control is read. *)
Definition fetch (m : msgid) (h : history)
  : history * (ldap_error + (list pair * list control)) :=
  if has_pagination
  then (h ++ [EResult3 m], result3 srv h m)
  else (h ++ [EResult m],
        match result srv h m with inl e => inl e | inr rdata => inr (rdata, []) end).

(** The [while True] loop on one base path; [next_path] is what follows
    a [break] of it. *)
Fixpoint page_loop (fuel : nat) (user_search_dn : string) (m : msgid)
    (next_path : history -> gen member) (h : history) : gen member :=
  match fuel with
  | O => GFuel
  | S fuel' =>
      match fetch m h with
      | (h1, inl e) =>
          match kind e with
          | K_NO_SUCH_OBJECT =>
              (* logged; [found_results] is 0, so the loop is left *)
              next_path h1
          | _ => next_path h1
          end
      | (h1, inr (rdata, serverctrls)) =>
          yield_users rdata
            (fun h2 =>
               let found_results := List.length rdata in
               if negb (truthy found_results) then next_path h2
               else if negb has_pagination then next_path h2
               else
                 match paging_controls serverctrls with
                 | pctrl :: _ =>
                     if truthy (cookie pctrl) then
                       let ev := ESearchExt user_search_dn SCOPE_SUBTREE search_flt
                                   page_size (cookie pctrl) attributes in
                       match search_ext srv h2 user_search_dn SCOPE_SUBTREE search_flt
                               page_size (cookie pctrl) attributes with
                       | inl e => GRaise (LDAPError e) (h2 ++ [ev] ++ [EUnbind])
                       | inr m' => page_loop fuel' user_search_dn m' next_path (h2 ++ [ev])
                       end
                     else next_path h2
                 | [] => next_path h2
                 end)
            h1
      end
  end.

(** The first search on a base path. *)
Definition issue (user_search_dn : string) (h : history)
  : history * (ldap_error + msgid) :=
  if has_pagination
  then (h ++ [ESearchExt user_search_dn SCOPE_SUBTREE search_flt page_size "" attributes],
        search_ext srv h user_search_dn SCOPE_SUBTREE search_flt page_size "" attributes)
  else (h ++ [ESearch user_search_dn SCOPE_SUBTREE search_flt attributes],
        search srv h user_search_dn SCOPE_SUBTREE search_flt attributes).

(** The [for user_search_dn in self._user_dns] loop; leaving it ends the
    [with] block, which releases the connection. *)
Fixpoint path_loop (fuel : nat) (dns : list string) (h : history) : gen member :=
  match dns with
  | [] => GStop (h ++ [EUnbind])
  | user_search_dn :: rest =>
      match issue user_search_dn h with
      | (h1, inl _) =>
          (* logged; [break] leaves the [for] loop *)
          GStop (h1 ++ [EUnbind])
      | (h1, inr m) => page_loop fuel user_search_dn m (path_loop fuel rest) h1
      end
  end.

End Members.

(** A generator that has not been resumed yet: its body starts, with the
    history as it is then, at the first [next]. *)
Definition generator (A : Type) := history -> gen A.

Definition _iterate_members (fuel : nat) (group_dn memberof_attr : string)
    (page_size : nat) (disable_pagination : bool) : generator member :=
  fun h =>
    let has_pagination := negb (_force_no_pagination self || disable_pagination) in
    let h1 := h ++ [EBind (_ldap_uri self) (_admin_dn self) (_admin_passwd self)] in
    match simple_bind_s srv h (_ldap_uri self) (_admin_dn self) (_admin_passwd self) with
    | Some e => GRaise (LDAPError e) h1
    | None =>
        let search_flt :=
          _add_user_filter (filter_format3 memberof_attr group_dn (_base_dn self)) in
        path_loop search_flt page_size has_pagination fuel (_user_dns self) h1
    end.

(** [next(it, default)], with [None] for the default. *)
Definition next_or_default {A} (it : generator A) : M (option A) :=
  fun h => match it h with
           | GYield a h' _ => (h', Ret (Some a))
           | GStop h' => (h', Ret None)
           | GRaise e h' => (h', Raise e)
           | GFuel => (h, OutOfFuel)
           end.

(** [list(it)]: what the generator yields until it stops, and how it stops. *)
Fixpoint drain {A} (g : gen A) : list A * (history * outcome unit) :=
  match g with
  | GYield a h resume => let (l, r) := drain (resume h) in (a :: l, r)
  | GStop h => ([], (h, Ret tt))
  | GRaise e h => ([], (h, Raise e))
  | GFuel => ([], ([], OutOfFuel))
  end.

Definition iterate_group_members (fuel : nat) (group_lookup_args : dict string)
    (page_size : option nat) (disable_pagination : bool)
  : M (option (generator member) * option string) :=
  check_admin_bind (None, Some "LDAP Admin dn or password is invalid")
    (match dict_get group_lookup_args "group_dn" with
     | None => raise KeyError
     | Some group_dn =>
         let memberof_attr := _memberof_attr self in
         let page_size :=
           match page_size with
           | Some n => if truthy n then n else _DEFAULT_PAGE_SIZE
           | None => _DEFAULT_PAGE_SIZE
           end in
         ret (Some (_iterate_members fuel group_dn memberof_attr page_size
                      disable_pagination), None)
     end).

(** A generator that is dropped while it is suspended at a [yield] is closed:
    [GeneratorExit] is raised at the [yield], it is no [ldap.LDAPError], so it
    leaves the [with] block of [_iterate_members], whose [__exit__] unbinds. *)
Definition close_suspended : M unit := fun h => (h ++ [EUnbind], Ret tt).

(** The iterator [it] is a local variable: when it has yielded an item it is
    still suspended when the function returns, and is closed then; when it has
    ended or raised there is nothing left to close. *)
Definition check_group_lookup_args (fuel : nat) (group_lookup_args : dict string)
    (disable_pagination : bool) : M (bool * option string) :=
  if negb (truthy (dict_get group_lookup_args "group_dn"))
  then ret (false, Some "Missing group_dn")
  else
    r <- iterate_group_members fuel group_lookup_args (Some 1) disable_pagination ;;
    match r with
    | (_, Some err) => ret (false, Some err)
    | (None, None) => raise TypeError
    | (Some it, None) =>
        first <- next_or_default it ;;
        _ <- match first with
             | Some _ => close_suspended
             | None => ret tt
             end ;;
        if negb (match first with
                 | Some item => truthy item
                 | None => false
                 end)
        then ret (false, Some "Group does not exist or is empty")
        else ret (true, None)
    end.

(** [ping]: a standalone bind; every protocol error becomes a result. *)
Definition ping : M (bool * option string) :=
  fun h =>
    match with_get_connection (ret tt) h with
    | (h', Raise (LDAPError e)) =>
        match kind e with
        | K_INVALID_CREDENTIALS => (h', Ret (false, Some "LDAP Admin dn or password is invalid"))
        | _ => (h', Ret (false, Some (str_of e)))
        end
    | (h', Raise e) => (h', Raise e)
    | (h', OutOfFuel) => (h', OutOfFuel)
    | (h', Ret _) => (h', Ret (true, None))
    end.

(** Modelled from the spec: the property [federated_service] of the base class
    [FederatedUsers], which is not among the sources; it is the service name
    that [__init__] hands to the base class. *)
Definition federated_service : string := "ldap".

(** The [for result in results[0:limit]] loop of [query_users]: a result that
    does not resolve is left out. *)
Fixpoint final_results_of (results : list _LDAPResult)
  : outcome (list (option UserInformation)) :=
  match results with
  | [] => Ret []
  | result :: rest =>
      match _build_user_information (res_attrs result) with
      | Ret (credentials, err_msg) =>
          match final_results_of rest with
          | Ret l => Ret (if is_none err_msg then credentials :: l else l)
          | Raise e => Raise e
          | OutOfFuel => OutOfFuel
          end
      | Raise e => Raise e
      | OutOfFuel => OutOfFuel
      end
  end.

Definition query_users (query : string) (limit : nat)
  : M (option (list (option UserInformation)) * string * option string) :=
  if negb (truthy query) then ret (None, federated_service, Some "Empty query")
  else
    r <- _ldap_user_search query limit "*" false false false ;;
    match r with
    | (_, Some err_msg) => ret (None, federated_service, Some err_msg)
    | (None, None) => raise TypeError
    | (Some results, None) =>
        final_results <- lift (final_results_of (firstn limit results)) ;;
        ret (Some final_results, federated_service, None)
    end.

Definition service_metadata : dict string := [("base_dn", _base_dn self)].

End Adapter.

Arguments GYield {A} a h resume.
Arguments GStop {A} h.
Arguments GRaise {A} e h.
Arguments GFuel {A}.

(** ** Vocabulary of the statements *)

(** What the five replacements do to one character. *)
Definition escape_char (a : ascii) : string :=
  if Ascii.eqb a PyStr.BACKSLASH then "\5c"
  else if Ascii.eqb a "*" then "\2a"
  else if Ascii.eqb a "(" then "\28"
  else if Ascii.eqb a ")" then "\29"
  else if Ascii.eqb a PyStr.NUL then "\00"
  else String a EmptyString.

Definition is_metachar (c : ascii) : bool :=
  Ascii.eqb c "*" || Ascii.eqb c "(" || Ascii.eqb c ")" || Ascii.eqb c PyStr.NUL.

Definition admin_bind (self : LDAPUsers) : event :=
  EBind (_ldap_uri self) (_admin_dn self) (_admin_passwd self).

(** The directory accepts the administrative bind, whenever it is made. *)
Definition admin_accepted (srv : DirectoryClient) (self : LDAPUsers) : Prop :=
  forall h : history,
    simple_bind_s srv h (_ldap_uri self) (_admin_dn self) (_admin_passwd self) = None.

(** The referral failures that carry no usable target: the info block is
    missing (or empty), it does not start with the referral header, or what
    follows the header does not use the [ldap:///] scheme. *)
Inductive unparseable : ldap_error -> Prop :=
| info_missing (re : ldap_error) :
    truthy (dict_get (args0 re) "info") = false -> unparseable re
| header_missing (re : ldap_error) (info : string) :
    dict_get (args0 re) "info" = Some info ->
    PyStr.startswith info REFERRAL_HEADER = false -> unparseable re
| scheme_unexpected (re : ldap_error) (target : string) :
    dict_get (args0 re) "info" = Some (REFERRAL_HEADER +++ target) ->
    PyStr.startswith target REFERRAL_SCHEME = false -> unparseable re.

Definition FOLLOW_FAILED : string := "Failed to follow referral when looking up username".

(** The subtree search of the plain user lookup on a base path. *)
Definition searched (self : LDAPUsers) (u base : string) : event :=
  ESearchS base SCOPE_SUBTREE (user_query self u "").

(** What a batch of results yields, in order: one resolved item for every
    result that is not referral-shaped; [None] when resolving one of them
    raises. *)
Fixpoint resolved (self : LDAPUsers) (rdata : list pair) : option (list member) :=
  match rdata with
  | [] => Some []
  | userdata :: rest =>
      match snd userdata with
      | RefList _ => resolved self rest
      | Attrs a =>
          match _build_user_information self (Attrs a) with
          | Ret info => option_map (cons info) (resolved self rest)
          | _ => None
          end
      end
  end.

Definition is_direct (userdata : pair) : bool :=
  match snd userdata with Attrs _ => true | RefList _ => false end.

(** The server gave no continuation: no paging control among its controls,
    or a paging control with an empty cookie. *)
Definition no_continuation (serverctrls : list control) : Prop :=
  match paging_controls serverctrls with
  | [] => True
  | pctrl :: _ => cookie pctrl = ""
  end.

(** One page as the server delivers it: the message id of the search that
    asked for it, its results and the controls that come with them. *)
Record page := {
  pg_msgid : msgid;
  pg_rdata : list pair;
  pg_ctrls : list control
}.

(** The cookie of the first paging control, if there is one. *)
Definition continuation (serverctrls : list control) : string :=
  match paging_controls serverctrls with
  | pctrl :: _ => cookie pctrl
  | [] => ""
  end.

Definition continued (self : LDAPUsers) (search_flt : string) (page_size : nat)
    (base ck : string) : event :=
  ESearchExt base SCOPE_SUBTREE search_flt page_size ck (attributes self).

(** The server paginates the search on [base] as [p], then [pgs]: the
    results of every page are fetched under its message id; every page but
    the last is not empty and carries a cookie, with which the next page is
    asked for; the last page carries no continuation. *)
Fixpoint paginates (srv : DirectoryClient) (self : LDAPUsers) (search_flt : string)
    (page_size : nat) (base : string) (p : page) (pgs : list page) : Prop :=
  (forall h, result3 srv h (pg_msgid p) = inr (pg_rdata p, pg_ctrls p)) /\
  match pgs with
  | [] => no_continuation (pg_ctrls p)
  | q :: rest =>
      pg_rdata p <> [] /\
      truthy (continuation (pg_ctrls p)) = true /\
      (forall h, search_ext srv h base SCOPE_SUBTREE search_flt page_size
                   (continuation (pg_ctrls p)) (attributes self) = inr (pg_msgid q)) /\
      paginates srv self search_flt page_size base q rest
  end.

(** The round-trips of the enumeration of these pages. *)
Fixpoint page_trips (self : LDAPUsers) (search_flt : string) (page_size : nat)
    (base : string) (p : page) (pgs : list page) : list event :=
  EResult3 (pg_msgid p) ::
  match pgs with
  | [] => []
  | q :: rest =>
      continued self search_flt page_size base (continuation (pg_ctrls p))
      :: page_trips self search_flt page_size base q rest
  end.

(** ** Fixtures: configurations and fake directory servers *)

Module Fixtures.

(** Robot accounts of the host application are named [namespace+shortname]. *)
Definition robots (name : string) : bool := PyStr.mem "+"%char name.

(** Two candidate base paths: [ou=staff,dc=x,dc=com], then
    [ou=people,dc=x,dc=com]; no role filter configured. *)
Definition two_paths : LDAPUsers :=
  LDAPUsers_init "ldap://directory" ["dc=x"; "dc=com"] "cn=admin,dc=x,dc=com" "secret"
    ["ou=staff"] "uid" "mail" "memberOf" (Some ["ou=people"]) true false
    None None None None.

(** One candidate base path, [ou=staff,dc=x,dc=com]. *)
Definition one_path : LDAPUsers :=
  LDAPUsers_init "ldap://directory" ["dc=x"; "dc=com"] "cn=admin,dc=x,dc=com" "secret"
    ["ou=staff"] "uid" "mail" "memberOf" None true false
    None None None None.

Definition STAFF : string := "ou=staff,dc=x,dc=com".
Definition PEOPLE : string := "ou=people,dc=x,dc=com".

(** A directory that accepts every bind and holds no entry. *)
Definition empty_directory : DirectoryClient :=
  {| simple_bind_s := fun _ _ _ _ => None;
     search_s := fun _ _ _ _ => inr [];
     search_ext := fun _ _ _ _ _ _ _ => inr 0;
     search := fun _ _ _ _ _ => inr 0;
     result3 := fun _ _ => inr ([], []);
     result := fun _ _ => inr [] |}.

Definition referral (info : string) : ldap_error :=
  {| kind := K_REFERRAL; args0 := [("info", info)]; str_of := "referral" |}.

(** A directory that answers every subtree search with a referral to
    [uid=eve,dc=other], and finds nothing at base scope. *)
Definition referring_directory : DirectoryClient :=
  {| simple_bind_s := fun _ _ _ _ => None;
     search_s := fun _ _ sc _ =>
       match sc with
       | SCOPE_SUBTREE => inl (referral (REFERRAL_HEADER +++ "ldap:///uid=eve,dc=other"))
       | SCOPE_BASE => inr []
       end;
     search_ext := fun _ _ _ _ _ _ _ => inr 0;
     search := fun _ _ _ _ _ => inr 0;
     result3 := fun _ _ => inr ([], []);
     result := fun _ _ => inr [] |}.

Definition alice_entry : pair :=
  (Some "uid=alice,ou=people,dc=x,dc=com",
   Attrs [("uid", ["alice"]); ("mail", ["alice@x.com"])]).

(** The primary path holds nothing; the secondary path holds alice, found by
    uid or by mail. *)
Definition alice_directory : DirectoryClient :=
  {| simple_bind_s := fun _ _ _ _ => None;
     search_s := fun _ base _ flt =>
       if String.eqb base PEOPLE
          && (String.eqb flt "(|(uid=alice)(mail=alice))"
              || String.eqb flt "(|(uid=alice@x.com)(mail=alice@x.com))")
       then inr [alice_entry] else inr [];
     search_ext := fun _ _ _ _ _ _ _ => inr 0;
     search := fun _ _ _ _ _ => inr 0;
     result3 := fun _ _ => inr ([], []);
     result := fun _ _ => inr [] |}.

End Fixtures.

Module BadReferrals.

(** A directory that answers every subtree search with the referral
    failure [re]. *)
Definition refers_with (re : ldap_error) : DirectoryClient :=
  {| simple_bind_s := fun _ _ _ _ => None;
     search_s := fun _ _ sc _ =>
       match sc with SCOPE_SUBTREE => inl re | SCOPE_BASE => inr [] end;
     search_ext := fun _ _ _ _ _ _ _ => inr 0;
     search := fun _ _ _ _ _ => inr 0;
     result3 := fun _ _ => inr ([], []);
     result := fun _ _ => inr [] |}.

Definition no_info : ldap_error :=
  {| kind := K_REFERRAL; args0 := [("desc", "Referral")]; str_of := "Referral" |}.
Definition no_header : ldap_error := Fixtures.referral "ldap:///uid=eve,dc=other".
Definition other_scheme : ldap_error :=
  Fixtures.referral (REFERRAL_HEADER +++ "ldaps://other/uid=eve,dc=other").

End BadReferrals.

Module Groups.

Definition member_entry (uid : string) : pair :=
  (Some ("uid=" +++ uid +++ ",ou=staff,dc=x,dc=com"),
   Attrs [("uid", [uid]); ("mail", [uid +++ "@x.com"])]).

Definition member_info (uid : string) : member :=
  (Some {| username := uid; email := Some (uid +++ "@x.com"); id := uid |}, None).

Definition paging (ck : string) : control :=
  {| controlType := PAGED_RESULTS_OID; cookie := ck |}.

Definition server_down : ldap_error :=
  {| kind := K_OTHER; args0 := [("desc", "Can't contact LDAP server")];
     str_of := "server down" |}.

(** The filter of the group search for the group [cn=devs]. *)
Definition DEVS_FILTER : string := "(memberOf=cn=devs,dc=x,dc=com)".

(** Five members served in three pages of two, two and one; the message id
    of a search tells the page its cookie asks for. *)
Definition three_pages : DirectoryClient :=
  {| simple_bind_s := fun _ _ _ _ => None;
     search_s := fun _ _ _ _ => inr [];
     search_ext := fun _ _ _ _ _ ck _ =>
       inr (if String.eqb ck "" then 1
            else if String.eqb ck "page-2" then 2
            else if String.eqb ck "page-3" then 3 else 0);
     search := fun _ _ _ _ _ => inr 0;
     result3 := fun _ m =>
       match m with
       | 1 => inr ([member_entry "ann"; member_entry "bob"], [paging "page-2"])
       | 2 => inr ([member_entry "cat"; member_entry "dan"], [paging "page-3"])
       | 3 => inr ([member_entry "eve"], [paging ""])
       | _ => inr ([], [])
       end;
     result := fun _ _ => inr [] |}.

(** A server without paging support: the five members come in the first
    response, whatever the page size asked for, and no paging control is
    echoed back. *)
Definition no_paging : DirectoryClient :=
  {| simple_bind_s := fun _ _ _ _ => None;
     search_s := fun _ _ _ _ => inr [];
     search_ext := fun _ _ _ _ _ _ _ => inr 1;
     search := fun _ _ _ _ _ => inr 0;
     result3 := fun _ m =>
       match m with
       | 1 => inr ([member_entry "ann"; member_entry "bob"; member_entry "cat";
                    member_entry "dan"; member_entry "eve"], [])
       | _ => inr ([], [])
       end;
     result := fun _ _ => inr [] |}.

(** Searches under [ou=staff] get message id 1, the others 2; fetching the
    results of 1 fails, the results of 2 are two members. *)
Definition staff_results_fail : DirectoryClient :=
  {| simple_bind_s := fun _ _ _ _ => None;
     search_s := fun _ _ _ _ => inr [];
     search_ext := fun _ base _ _ _ _ _ =>
       inr (if String.eqb base Fixtures.STAFF then 1 else 2);
     search := fun _ _ _ _ _ => inr 0;
     result3 := fun _ m =>
       match m with
       | 1 => inl server_down
       | 2 => inr ([member_entry "ann"; member_entry "bob"], [])
       | _ => inr ([], [])
       end;
     result := fun _ _ => inr [] |}.

(** The same directory, except that the search under [ou=staff] cannot be
    issued at all. *)
Definition staff_search_fails : DirectoryClient :=
  {| simple_bind_s := fun _ _ _ _ => None;
     search_s := fun _ _ _ _ => inr [];
     search_ext := fun _ base _ _ _ _ _ =>
       if String.eqb base Fixtures.STAFF then inl server_down else inr 2;
     search := fun _ _ _ _ _ => inr 0;
     result3 := fun _ m =>
       match m with
       | 2 => inr ([member_entry "ann"; member_entry "bob"], [])
       | _ => inr ([], [])
       end;
     result := fun _ _ => inr [] |}.

(** A group whose only member record has a uid and no mail. *)
Definition member_without_mail : DirectoryClient :=
  {| simple_bind_s := fun _ _ _ _ => None;
     search_s := fun _ _ _ _ => inr [];
     search_ext := fun _ _ _ _ _ _ _ => inr 1;
     search := fun _ _ _ _ _ => inr 0;
     result3 := fun _ m =>
       match m with
       | 1 => inr ([(Some "uid=bot,ou=staff,dc=x,dc=com", Attrs [("uid", ["bot"])])],
                   [paging ""])
       | _ => inr ([], [])
       end;
     result := fun _ _ => inr [] |}.

End Groups.

Module ThreePages.

Definition first : page :=
  {| pg_msgid := 1;
     pg_rdata := [Groups.member_entry "ann"; Groups.member_entry "bob"];
     pg_ctrls := [Groups.paging "page-2"] |}.
Definition second : page :=
  {| pg_msgid := 2;
     pg_rdata := [Groups.member_entry "cat"; Groups.member_entry "dan"];
     pg_ctrls := [Groups.paging "page-3"] |}.
Definition third : page :=
  {| pg_msgid := 3;
     pg_rdata := [Groups.member_entry "eve"];
     pg_ctrls := [Groups.paging ""] |}.

End ThreePages.

(** ** Further vocabulary and fixtures *)

(** A search result as the namedtuple [_LDAPResult]. *)
Definition as_result (p : pair) : _LDAPResult := {| dn := fst p; res_attrs := snd p |}.

(** The result is an entry with a value for the email attribute. *)
Definition has_mail (self : LDAPUsers) (result : _LDAPResult) : bool :=
  match res_attrs result with
  | Attrs a => truthy (dict_get a (_email_attr self))
  | RefList _ => false
  end.

(** The role asked for by the flags of the user search has no usable filter:
    none is configured, or an empty one. *)
Definition role_unconfigured (self : LDAPUsers) (fs fr fg : bool) : bool :=
  if fr then negb (truthy (_ldap_restricted_user_filter self))
  else if fs then negb (truthy (_ldap_superuser_filter self))
  else if fg then negb (truthy (_ldap_global_readonly_superuser_filter self))
  else false.

(** The round-trip is not a [search_s]. *)
Definition not_a_search (ev : event) : Prop :=
  match ev with ESearchS _ _ _ => False | _ => True end.

(** A search on a base path gave results and no message, or no result and a
    message. *)
Definition exclusive (r : search_outcome) : Prop :=
  (fst r = None /\ exists msg, snd r = Some msg) \/
  (snd r = None /\ exists pairs, fst r = Some pairs).

(** The round-trips of the existence check on one base path: a paged search
    for one entry, and the fetch of its results. *)
Definition existence_trips (self : LDAPUsers) (mid : string -> msgid) (base : string)
  : list event :=
  [ESearchExt base SCOPE_SUBTREE (_add_user_filter self "(objectClass=*)") 1 "" None;
   EResult3 (mid base)].

(** The base paths that are asked until one returns an entry, and whether
    one did. *)
Fixpoint first_with_entries (batch : string -> list pair) (dns : list string)
  : list string * bool :=
  match dns with
  | [] => ([], false)
  | base :: rest =>
      match batch base with
      | _ :: _ => ([base], true)
      | [] => let (searched_paths, found) := first_with_entries batch rest in
              (base :: searched_paths, found)
      end
  end.

(** The characters that [escape_filter_chars] replaces. *)
Definition is_special (c : ascii) : bool :=
  Ascii.eqb c PyStr.BACKSLASH || is_metachar c.

(** The round-trips of the enumeration of a base path that answers with a
    single batch: the first paged search and the fetch of its results. *)
Definition enumeration_trips (self : LDAPUsers) (search_flt : string) (page_size : nat)
    (mid : string -> msgid) (base : string) : list event :=
  [ESearchExt base SCOPE_SUBTREE search_flt page_size "" (attributes self);
   EResult3 (mid base)].

Module MoreFixtures.

Definition invalid_credentials : ldap_error :=
  {| kind := K_INVALID_CREDENTIALS; args0 := [("desc", "Invalid credentials")];
     str_of := "Invalid credentials" |}.

(** A directory that rejects every bind as invalid credentials. *)
Definition rejecting : DirectoryClient :=
  {| simple_bind_s := fun _ _ _ _ => Some invalid_credentials;
     search_s := fun _ _ _ _ => inr [];
     search_ext := fun _ _ _ _ _ _ _ => inr 0;
     search := fun _ _ _ _ _ => inr 0;
     result3 := fun _ _ => inr ([], []);
     result := fun _ _ => inr [] |}.

Definition carol_without_mail : pair :=
  (Some "uid=carol,ou=old,dc=x,dc=com", Attrs [("uid", ["carol"])]).
Definition carol_with_mail : pair :=
  (Some "uid=carol,ou=staff,dc=x,dc=com",
   Attrs [("uid", ["carol"]); ("mail", ["carol@x.com"])]).

(** Every subtree search finds two entries for carol, the one without a mail
    attribute first, and one pair without a DN. *)
Definition two_carols : DirectoryClient :=
  {| simple_bind_s := fun _ _ _ _ => None;
     search_s := fun _ _ _ _ =>
       inr [carol_without_mail; (None, RefList ["ldap://other/"]); carol_with_mail];
     search_ext := fun _ _ _ _ _ _ _ => inr 0;
     search := fun _ _ _ _ _ => inr 0;
     result3 := fun _ _ => inr ([], []);
     result := fun _ _ => inr [] |}.

(** The administrative bind is accepted; alice is found under every base
    path; a bind as alice is accepted with the secret [wonderland] only. *)
Definition alice_logs_in : DirectoryClient :=
  {| simple_bind_s := fun _ _ who cred =>
       if String.eqb who "cn=admin,dc=x,dc=com" then None
       else if String.eqb who "uid=alice,ou=people,dc=x,dc=com"
               && String.eqb cred "wonderland" then None
       else Some invalid_credentials;
     search_s := fun _ _ _ _ => inr [Fixtures.alice_entry];
     search_ext := fun _ _ _ _ _ _ _ => inr 0;
     search := fun _ _ _ _ _ => inr 0;
     result3 := fun _ _ => inr ([], []);
     result := fun _ _ => inr [] |}.

(** An adapter with a superuser filter and a restricted-user filter. *)
Definition with_role_filters : LDAPUsers :=
  LDAPUsers_init "ldap://directory" ["dc=x"; "dc=com"] "cn=admin,dc=x,dc=com" "secret"
    ["ou=staff"] "uid" "mail" "memberOf" (Some ["ou=people"]) true false
    None (Some "(memberOf=cn=admins,dc=x,dc=com)") None
    (Some "(memberOf=cn=guests,dc=x,dc=com)").

(** An adapter whose searches are not paginated. *)
Definition unpaginated : LDAPUsers :=
  LDAPUsers_init "ldap://directory" ["dc=x"; "dc=com"] "cn=admin,dc=x,dc=com" "secret"
    ["ou=staff"] "uid" "mail" "memberOf" None true true
    None None None None.

(** The plain search under every base path returns five members at once; a
    referral-shaped result stands between them. *)
Definition plain_members : DirectoryClient :=
  {| simple_bind_s := fun _ _ _ _ => None;
     search_s := fun _ _ _ _ => inr [];
     search_ext := fun _ _ _ _ _ _ _ => inr 0;
     search := fun _ _ _ _ _ => inr 7;
     result3 := fun _ _ => inr ([], []);
     result := fun _ m =>
       match m with
       | 7 => inr [Groups.member_entry "ann"; (None, RefList ["ldap://other/"]);
                   Groups.member_entry "bob"]
       | _ => inr []
       end |}.

(** One user under [ou=people], none under [ou=staff]; the message id of a
    search tells the base path. *)
Definition one_user_under_people : DirectoryClient :=
  {| simple_bind_s := fun _ _ _ _ => None;
     search_s := fun _ _ _ _ => inr [];
     search_ext := fun _ base _ _ _ _ _ =>
       inr (if String.eqb base Fixtures.PEOPLE then 2 else 1);
     search := fun _ _ _ _ _ => inr 0;
     result3 := fun _ m =>
       match m with
       | 2 => inr ([Fixtures.alice_entry], [Groups.paging "next"])
       | _ => inr ([], [])
       end;
     result := fun _ _ => inr [] |}.

(** No search can be issued: the connection is gone, and the error has no
    text of its own. *)
Definition silent_failure : ldap_error :=
  {| kind := K_OTHER; args0 := []; str_of := "" |}.
Definition searches_fail : DirectoryClient :=
  {| simple_bind_s := fun _ _ _ _ => None;
     search_s := fun _ _ _ _ => inl silent_failure;
     search_ext := fun _ _ _ _ _ _ _ => inl silent_failure;
     search := fun _ _ _ _ _ => inl silent_failure;
     result3 := fun _ _ => inl silent_failure;
     result := fun _ _ => inl silent_failure |}.

(** Under [ou=staff] the group has ann and bob, under [ou=people] cat; every
    answer is a single batch. *)
Definition members_on_two_paths : DirectoryClient :=
  {| simple_bind_s := fun _ _ _ _ => None;
     search_s := fun _ _ _ _ => inr [];
     search_ext := fun _ base _ _ _ _ _ =>
       inr (if String.eqb base Fixtures.STAFF then 1 else 2);
     search := fun _ _ _ _ _ => inr 0;
     result3 := fun _ m =>
       match m with
       | 1 => inr ([Groups.member_entry "ann"; Groups.member_entry "bob"], [])
       | _ => inr ([Groups.member_entry "cat"], [Groups.paging ""])
       end;
     result := fun _ _ => inr [] |}.

(** Three members in pages of two, none and one: the second page is empty and
    still carries a cookie for the third. *)
Definition empty_middle_page : DirectoryClient :=
  {| simple_bind_s := fun _ _ _ _ => None;
     search_s := fun _ _ _ _ => inr [];
     search_ext := fun _ _ _ _ _ ck _ =>
       inr (if String.eqb ck "" then 1
            else if String.eqb ck "page-2" then 2
            else if String.eqb ck "page-3" then 3 else 0);
     search := fun _ _ _ _ _ => inr 0;
     result3 := fun _ m =>
       match m with
       | 1 => inr ([Groups.member_entry "ann"; Groups.member_entry "bob"],
                   [Groups.paging "page-2"])
       | 2 => inr ([], [Groups.paging "page-3"])
       | 3 => inr ([Groups.member_entry "eve"], [Groups.paging ""])
       | _ => inr ([], [])
       end;
     result := fun _ _ => inr [] |}.

Definition empty_middle_pages : list (list pair) :=
  [[Groups.member_entry "ann"; Groups.member_entry "bob"]; [];
   [Groups.member_entry "eve"]].

End MoreFixtures.

(** * Theorems *)

(** ** Filter escaping *)

Lemma append_assoc (s1 s2 s3 : string) : (s1 +++ s2) +++ s3 = s1 +++ (s2 +++ s3).
Proof.
  induction s1 as [|a s1 IH]; simpl; [reflexivity | now rewrite IH].
Qed.

Lemma mem_append (c : ascii) (s1 s2 : string) :
  PyStr.mem c (s1 +++ s2) = PyStr.mem c s1 || PyStr.mem c s2.
Proof.
  induction s1 as [|a s1 IH]; simpl; [reflexivity|].
  rewrite IH. now rewrite orb_assoc.
Qed.

Lemma escape_filter_chars_cons (a : ascii) (s : string) :
  escape_filter_chars (String a s) = escape_char a +++ escape_filter_chars s.
Proof.
  unfold escape_filter_chars, escape_char. simpl.
  destruct (Ascii.eqb a PyStr.BACKSLASH) eqn:E1; [reflexivity|]. simpl.
  destruct (Ascii.eqb a "*") eqn:E2; [reflexivity|]. simpl.
  destruct (Ascii.eqb a "(") eqn:E3; [reflexivity|]. simpl.
  destruct (Ascii.eqb a ")") eqn:E4; [reflexivity|]. simpl.
  destruct (Ascii.eqb a PyStr.NUL) eqn:E5; reflexivity.
Qed.

Lemma escape_char_no_metachar (c a : ascii) :
  is_metachar c = true -> PyStr.mem c (escape_char a) = false.
Proof.
  unfold is_metachar, escape_char. intros Hc.
  repeat rewrite orb_true_iff in Hc.
  destruct (Ascii.eqb a PyStr.BACKSLASH) eqn:E1;
    [destruct Hc as [[[H|H]|H]|H]; apply Ascii.eqb_eq in H; subst c; reflexivity|].
  destruct (Ascii.eqb a "*") eqn:E2;
    [destruct Hc as [[[H|H]|H]|H]; apply Ascii.eqb_eq in H; subst c; reflexivity|].
  destruct (Ascii.eqb a "(") eqn:E3;
    [destruct Hc as [[[H|H]|H]|H]; apply Ascii.eqb_eq in H; subst c; reflexivity|].
  destruct (Ascii.eqb a ")") eqn:E4;
    [destruct Hc as [[[H|H]|H]|H]; apply Ascii.eqb_eq in H; subst c; reflexivity|].
  destruct (Ascii.eqb a PyStr.NUL) eqn:E5;
    [destruct Hc as [[[H|H]|H]|H]; apply Ascii.eqb_eq in H; subst c; reflexivity|].
  simpl. rewrite orb_false_r.
  destruct Hc as [[[H|H]|H]|H]; apply Ascii.eqb_eq in H; subst c; assumption.
Qed.

(** The escaped term of the primary user query holds no filter metacharacter:
    no [*], no parenthesis, no NUL. *)
Lemma escape_filter_chars_no_metachar (c : ascii) (s : string) :
  is_metachar c = true -> PyStr.mem c (escape_filter_chars s) = false.
Proof.
  intros Hc. induction s as [|a s IH]; [reflexivity|].
  rewrite escape_filter_chars_cons, mem_append, IH, orb_false_r.
  now apply escape_char_no_metachar.
Qed.

(** With no user filter configured, the referral retry interpolates the
    lookup term as it was given. *)
Lemma referral_subquery_raw (self : LDAPUsers) (u : string) :
  _ldap_user_filter self = None ->
  referral_subquery self u = "(" +++ _uid_attr self +++ "=" +++ u +++ ")".
Proof.
  intros H. unfold referral_subquery, _add_user_filter. now rewrite H.
Qed.

(** C1 (at the input where it fails).  The lookup term is a star, a closing
    parenthesis, an opening parenthesis, [uid=] and a star; the subtree search
    is answered by a referral.  The primary filter holds the term escaped, and
    the identity-only filter of the referral retry holds it as it was given, so
    that the retry searches with two presence filters on [uid]. *)
Theorem referral_retry_filter_not_escaped :
  _ldap_user_search_with_rdn Fixtures.referring_directory Fixtures.one_path
    "*)(uid=*" Fixtures.STAFF "" false false false [] =
  ([ESearchS Fixtures.STAFF SCOPE_SUBTREE
      "(|(uid=\2a\29\28uid=\2a)(mail=\2a\29\28uid=\2a))";
    ESearchS "uid=eve,dc=other" SCOPE_BASE "(uid=*)(uid=*)"],
   Ret (Some [], None)).
Proof. reflexivity. Qed.

(** ** Credential verification *)

(** C7.  With an empty secret, [verify_credentials] returns the
    anonymous-bind error and no identity record, whatever the lookup term, and
    the history of round-trips is left as it was: no bind, no search. *)
Theorem verify_credentials_empty_secret :
  forall (srv : DirectoryClient) (lookup_robot : string -> bool) (self : LDAPUsers)
         (username_or_email : string) (h : history),
    verify_credentials srv lookup_robot self username_or_email "" h =
    (h, Ret (None, Some "Anonymous binding not allowed.")).
Proof. reflexivity. Qed.

(** ** Role classification *)

(** With a restricted-user filter configured, a robot name is classified as
    not restricted before any round-trip. *)
Lemma is_restricted_user_robot_with_filter :
  forall (srv : DirectoryClient) (lookup_robot : string -> bool) (self : LDAPUsers)
         (u flt : string) (h : history),
    _ldap_restricted_user_filter self = Some flt ->
    lookup_robot u = true ->
    is_restricted_user srv lookup_robot self u h = (h, Ret false).
Proof.
  intros srv robot self u flt h Hf Hr. unfold is_restricted_user.
  rewrite Hf, Hr. simpl. now destruct (truthy u).
Qed.

(** With no restricted-user filter configured, [is_restricted_user] answers
    before it looks at the kind of account: true for every non-empty name,
    false for the empty name, and no round-trip is made. *)
Theorem is_restricted_user_without_filter :
  forall (srv : DirectoryClient) (lookup_robot : string -> bool) (self : LDAPUsers)
         (u : string) (h : history),
    _ldap_restricted_user_filter self = None ->
    is_restricted_user srv lookup_robot self u h = (h, Ret (truthy u)).
Proof.
  intros srv robot self u h Hf. unfold is_restricted_user.
  rewrite Hf. simpl. now destruct (truthy u).
Qed.

Lemma is_restricted_user_without_filter_witness :
  _ldap_restricted_user_filter Fixtures.one_path = None /\
  is_restricted_user Fixtures.empty_directory Fixtures.robots Fixtures.one_path
    "alice" [] = ([], Ret true) /\
  is_restricted_user Fixtures.empty_directory Fixtures.robots Fixtures.one_path
    "devtable+deploy" [] = ([], Ret true).
Proof.
  split; [reflexivity|]. split.
  - exact (is_restricted_user_without_filter Fixtures.empty_directory Fixtures.robots
             Fixtures.one_path "alice" [] eq_refl).
  - exact (is_restricted_user_without_filter Fixtures.empty_directory Fixtures.robots
             Fixtures.one_path "devtable+deploy" [] eq_refl).
Defined.

(** With no restricted-user filter, not every robot name is classified
    false. *)
Lemma is_restricted_user_robot_without_filter :
  ~ (forall u : string,
       Fixtures.robots u = true ->
       is_restricted_user Fixtures.empty_directory Fixtures.robots Fixtures.one_path u [] =
       ([], Ret false)).
Proof.
  intros H. specialize (H "devtable+deploy" eq_refl). discriminate H.
Qed.

(** C2 (at the input where it fails).  No restricted-user filter is
    configured and the name is the one of a robot account:
    [is_restricted_user] answers true, since its test of the filter comes
    before its test of the robot.  The sibling predicates answer false for the
    same name on the same adapter, and so does [is_restricted_user] itself
    once a filter is configured; a name that is no robot is restricted, as the
    claim says. *)
Theorem is_restricted_user_robot_is_restricted :
  Fixtures.robots "devtable+deploy" = true /\
  _ldap_restricted_user_filter Fixtures.one_path = None /\
  is_restricted_user Fixtures.empty_directory Fixtures.robots Fixtures.one_path
    "devtable+deploy" [] = ([], Ret true) /\
  is_superuser Fixtures.empty_directory Fixtures.robots Fixtures.one_path
    "devtable+deploy" [] = ([], Ret false) /\
  is_global_readonly_superuser Fixtures.empty_directory Fixtures.robots Fixtures.one_path
    "devtable+deploy" [] = ([], Ret false) /\
  is_restricted_user Fixtures.empty_directory Fixtures.robots MoreFixtures.with_role_filters
    "devtable+deploy" [] = ([], Ret false) /\
  is_restricted_user Fixtures.empty_directory Fixtures.robots Fixtures.one_path
    "alice" [] = ([], Ret true).
Proof. repeat split; reflexivity. Qed.

(** C3 (at the input where it fails).  No restricted-user filter is
    configured and the directory holds no entry: [at_least_one_user_exists]
    answers [(False, None)], and [has_restricted_users] still answers true,
    since it tests the returned tuple and not its first element. *)
Theorem has_restricted_users_on_empty_directory :
  snd (at_least_one_user_exists Fixtures.empty_directory Fixtures.one_path false false [])
    = Ret (Some false, None) /\
  snd (has_restricted_users Fixtures.empty_directory Fixtures.one_path []) = Ret (Some true).
Proof. split; reflexivity. Qed.

(** Whatever [at_least_one_user_exists] returns, with no restricted-user
    filter [has_restricted_users] answers true. *)
Lemma has_restricted_users_ignores_result :
  forall (srv : DirectoryClient) (self : LDAPUsers) (h h' : history)
         (r : option bool * option string),
    _ldap_restricted_user_filter self = None ->
    at_least_one_user_exists srv self false false h = (h', Ret r) ->
    has_restricted_users srv self h = (h', Ret (Some true)).
Proof.
  intros srv self h h' r Hf Hr. unfold has_restricted_users, bind.
  rewrite Hf. simpl. rewrite Hr. reflexivity.
Qed.

Lemma truthy_Some {A} `{Truthy A} (a : A) : truthy (Some a) = truthy a.
Proof. reflexivity. Qed.

(** ** Connections *)

Section ConnectionFacts.

Variable srv : DirectoryClient.
Variable self : LDAPUsers.

Lemma with_get_connection_accepted {A} (body : M A) (h : history) :
  admin_accepted srv self ->
  with_get_connection srv self body h =
  (fst (body (h ++ [admin_bind self])) ++ [EUnbind], snd (body (h ++ [admin_bind self]))).
Proof.
  intros Hok. unfold with_get_connection, with_LDAPConnection.
  rewrite Hok. fold (admin_bind self). now destruct (body (h ++ [admin_bind self])).
Qed.

Lemma check_admin_bind_accepted {A} (on_invalid : A) (rest : M A) (h : history) :
  admin_accepted srv self ->
  check_admin_bind srv self on_invalid rest h = rest ((h ++ [admin_bind self]) ++ [EUnbind]).
Proof.
  intros Hok. unfold check_admin_bind.
  rewrite with_get_connection_accepted by assumption. reflexivity.
Qed.

End ConnectionFacts.

(** ** Referrals *)

Lemma substring_whole (s : string) : String.substring 0 (String.length s) s = s.
Proof.
  induction s as [|a s IH]; simpl; [reflexivity | now rewrite IH].
Qed.

Lemma referral_header_stripped (target : string) :
  PyStr.startswith (REFERRAL_HEADER +++ target) REFERRAL_HEADER = true /\
  PyStr.drop (String.length REFERRAL_HEADER) (REFERRAL_HEADER +++ target) = target.
Proof.
  split.
  - unfold PyStr.startswith. simpl. now destruct target.
  - unfold PyStr.drop. simpl. rewrite Nat.sub_0_r. apply substring_whole.
Qed.

Lemma unparseable_no_dn (re : ldap_error) :
  unparseable re -> _get_ldap_referral_dn re = None.
Proof.
  intros H. unfold _get_ldap_referral_dn.
  destruct H as [re H | re info Hi Hh | re target Hi Hs].
  - rewrite H. simpl. now rewrite orb_true_r.
  - rewrite Hi, Hh.
    destruct (negb (truthy (args0 re)) || negb (truthy (Some info))); reflexivity.
  - rewrite Hi.
    destruct (referral_header_stripped target) as [Hp Hd].
    rewrite Hp, Hd, Hs.
    destruct (negb (truthy (args0 re)) || negb (truthy (Some (REFERRAL_HEADER +++ target))));
      reflexivity.
Qed.

Section ReferralFacts.

Variable srv : DirectoryClient.
Variable lookup_robot : string -> bool.
Variable self : LDAPUsers.
Variable re : ldap_error.

Hypothesis re_is_referral : kind re = K_REFERRAL.
Hypothesis re_unparseable : unparseable re.
Hypothesis always_refers :
  forall (h : history) (base q : string), search_s srv h base SCOPE_SUBTREE q = inl re.

Lemma search_following_referral_unparseable (u base q : string) (h : history) :
  search_following_referral srv self u base q h =
  (h ++ [ESearchS base SCOPE_SUBTREE q], Ret (None, Some FOLLOW_FAILED)).
Proof.
  unfold search_following_referral, try_ldap, bind, call.
  rewrite always_refers, re_is_referral, (unparseable_no_dn re re_unparseable).
  reflexivity.
Qed.

(** Whatever the role flags, a base path resolves to a result with a
    message, never to an exception. *)
Lemma with_rdn_unparseable (u base suffix : string) (fs fr fg : bool) (h : history) :
  exists (h' : history) (msg : string),
    _ldap_user_search_with_rdn srv self u base suffix fs fr fg h =
    (h', Ret (None, Some msg)).
Proof.
  unfold _ldap_user_search_with_rdn, _add_restricted_user_filter,
    _add_superuser_filter, _add_global_readonly_superuser_filter, add_asserted_filter.
  destruct fr.
  { destruct (_ldap_restricted_user_filter self) as [f|]; [|simpl; unfold ret; eauto].
    rewrite truthy_Some. destruct (truthy f); simpl; [|unfold ret; eauto].
    unfold bind, ret. rewrite search_following_referral_unparseable. eauto. }
  destruct fs.
  { destruct (_ldap_superuser_filter self) as [f|]; [|simpl; unfold ret; eauto].
    rewrite truthy_Some. destruct (truthy f); simpl; [|unfold ret; eauto].
    unfold bind, ret. rewrite search_following_referral_unparseable. eauto. }
  destruct fg.
  { destruct (_ldap_global_readonly_superuser_filter self) as [f|]; [|simpl; unfold ret; eauto].
    rewrite truthy_Some. destruct (truthy f); simpl; [|unfold ret; eauto].
    unfold bind, ret. rewrite search_following_referral_unparseable. eauto. }
  rewrite search_following_referral_unparseable. eauto.
Qed.

Lemma user_search_loop_unparseable (u suffix : string) (fs fr fg : bool)
    (dns : list string) :
  forall (last : option search_outcome) (h : history),
    (dns <> [] \/ exists msg, last = Some (None, Some msg)) ->
    exists (h' : history) (msg : string),
      user_search_loop srv self u suffix fs fr fg dns last h =
      (h', Ret (Some (None, Some msg))).
Proof.
  induction dns as [|base rest IH]; intros last h Hstart.
  - destruct Hstart as [Hne | [msg ->]]; [contradiction|]. simpl. unfold ret. eauto.
  - simpl. unfold bind.
    destruct (with_rdn_unparseable u base suffix fs fr fg h) as (h1 & msg & ->).
    simpl. apply IH. right. eauto.
Qed.

End ReferralFacts.

(** C9.  A referral failure of the subtree search whose info block is
    missing, does not start with the referral header, or names a target
    outside the [ldap:///] scheme makes the search on a base path return no
    result and the message that the referral could not be followed; whatever
    the role flags it returns a pair of no result and a message; and the
    search over the candidate base paths returns such a pair as well.  None of
    them raises. *)
Theorem unparseable_referral_is_not_found :
  forall (srv : DirectoryClient) (lookup_robot : string -> bool) (self : LDAPUsers)
         (re : ldap_error) (u suffix : string),
    kind re = K_REFERRAL ->
    unparseable re ->
    (forall (h : history) (base q : string), search_s srv h base SCOPE_SUBTREE q = inl re) ->
    (forall (base : string) (h : history),
        _ldap_user_search_with_rdn srv self u base suffix false false false h =
        (h ++ [ESearchS base SCOPE_SUBTREE (user_query self u suffix)],
         Ret (None, Some FOLLOW_FAILED))) /\
    (forall (base : string) (fs fr fg : bool) (h : history),
        exists (h' : history) (msg : string),
          _ldap_user_search_with_rdn srv self u base suffix fs fr fg h =
          (h', Ret (None, Some msg))) /\
    (admin_accepted srv self -> _user_dns self <> [] ->
     forall (limit : nat) (fs fr fg : bool) (h : history),
        exists (h' : history) (msg : string),
          _ldap_user_search srv lookup_robot self u limit suffix fs fr fg h =
          (h', Ret (None, Some msg))).
Proof.
  intros srv robot self re u suffix Hk Hu Hs. split; [|split].
  - intros base h. unfold _ldap_user_search_with_rdn.
    now apply (search_following_referral_unparseable srv self re).
  - intros base fs fr fg h. now apply with_rdn_unparseable with (re := re).
  - intros Hadm Hne limit fs fr fg h. unfold _ldap_user_search.
    destruct (truthy u); simpl; [|unfold ret; eauto].
    destruct (robot u); [unfold ret; eauto|].
    rewrite check_admin_bind_accepted, with_get_connection_accepted by assumption.
    unfold bind.
    destruct (user_search_loop_unparseable srv self re Hk Hu Hs u suffix fs fr fg
                (_user_dns self) None
                (((h ++ [admin_bind self]) ++ [EUnbind]) ++ [admin_bind self]))
      as (h1 & msg & ->); [now left|].
    simpl. eauto.
Qed.

Lemma unparseable_referral_is_not_found_witness :
  _ldap_user_search_with_rdn (BadReferrals.refers_with BadReferrals.no_info)
    Fixtures.two_paths "alice" Fixtures.STAFF "" false false false [] =
  ([ESearchS Fixtures.STAFF SCOPE_SUBTREE "(|(uid=alice)(mail=alice))"],
   Ret (None, Some FOLLOW_FAILED)) /\
  _ldap_user_search_with_rdn (BadReferrals.refers_with BadReferrals.no_header)
    Fixtures.two_paths "alice" Fixtures.STAFF "" false false false [] =
  ([ESearchS Fixtures.STAFF SCOPE_SUBTREE "(|(uid=alice)(mail=alice))"],
   Ret (None, Some FOLLOW_FAILED)) /\
  _ldap_user_search_with_rdn (BadReferrals.refers_with BadReferrals.other_scheme)
    Fixtures.two_paths "alice" Fixtures.STAFF "" false false false [] =
  ([ESearchS Fixtures.STAFF SCOPE_SUBTREE "(|(uid=alice)(mail=alice))"],
   Ret (None, Some FOLLOW_FAILED)).
Proof.
  split; [|split].
  - exact (proj1 (unparseable_referral_is_not_found
                    (BadReferrals.refers_with BadReferrals.no_info) Fixtures.robots
                    Fixtures.two_paths BadReferrals.no_info "alice" "" eq_refl
                    (info_missing BadReferrals.no_info eq_refl)
                    (fun _ _ _ => eq_refl)) Fixtures.STAFF []).
  - exact (proj1 (unparseable_referral_is_not_found
                    (BadReferrals.refers_with BadReferrals.no_header) Fixtures.robots
                    Fixtures.two_paths BadReferrals.no_header "alice" "" eq_refl
                    (header_missing BadReferrals.no_header _ eq_refl eq_refl)
                    (fun _ _ _ => eq_refl)) Fixtures.STAFF []).
  - exact (proj1 (unparseable_referral_is_not_found
                    (BadReferrals.refers_with BadReferrals.other_scheme) Fixtures.robots
                    Fixtures.two_paths BadReferrals.other_scheme "alice" "" eq_refl
                    (scheme_unexpected BadReferrals.other_scheme
                       "ldaps://other/uid=eve,dc=other" eq_refl eq_refl)
                    (fun _ _ _ => eq_refl)) Fixtures.STAFF []).
Defined.

(** ** The search over candidate base paths *)

Section CandidatePaths.

Variable srv : DirectoryClient.
Variable lookup_robot : string -> bool.
Variable self : LDAPUsers.
Variable u : string.
Variables (before : list string) (hit : string) (after : list string).
Variable pairs : list pair.

Hypothesis nothing_before :
  forall base, In base before ->
               forall h, search_s srv h base SCOPE_SUBTREE (user_query self u "") = inr [].
Hypothesis found_at_hit : forall h, search_s srv h hit SCOPE_SUBTREE (user_query self u "") = inr pairs.
Hypothesis some_found : pairs <> [].

Lemma search_returns (base : string) (found : list pair) (h : history) :
  search_s srv h base SCOPE_SUBTREE (user_query self u "") = inr found ->
  _ldap_user_search_with_rdn srv self u base "" false false false h =
  (h ++ [searched self u base], Ret (Some found, None)).
Proof.
  intros Hs. unfold _ldap_user_search_with_rdn, search_following_referral,
    try_ldap, bind, call.
  now rewrite Hs.
Qed.

Lemma user_search_loop_cons (base : string) (rest : list string)
    (last : option search_outcome) (h : history) (found : list pair) :
  search_s srv h base SCOPE_SUBTREE (user_query self u "") = inr found ->
  user_search_loop srv self u "" false false false (base :: rest) last h =
  if Nat.ltb 0 (List.length found)
  then (h ++ [searched self u base], Ret (Some (Some found, None)))
  else user_search_loop srv self u "" false false false rest
         (Some (Some found, None)) (h ++ [searched self u base]).
Proof.
  intros Hs. cbn [user_search_loop]. unfold bind at 1.
  rewrite (search_returns base found h Hs). cbn [fst].
  now destruct (Nat.ltb 0 (List.length found)).
Qed.

Lemma user_search_loop_first_hit :
  forall (pre : list string) (last : option search_outcome) (h : history),
    (forall base, In base pre -> In base before) ->
    user_search_loop srv self u "" false false false (pre ++ hit :: after) last h =
    (h ++ map (searched self u) (pre ++ [hit]), Ret (Some (Some pairs, None))).
Proof.
  induction pre as [|base pre IH]; intros last h Hin.
  - cbn [app]. rewrite (user_search_loop_cons hit after last h pairs (found_at_hit h)).
    destruct pairs as [|p ps]; [now contradiction some_found|]. reflexivity.
  - cbn [app].
    rewrite (user_search_loop_cons base (pre ++ hit :: after) last h []
               (nothing_before base (Hin base (or_introl eq_refl)) h)).
    cbn [List.length Nat.ltb Nat.leb].
    rewrite IH by (intros b Hb; apply Hin; now right).
    cbn [map]. now rewrite <- app_assoc.
Qed.

End CandidatePaths.

(** C8.  The candidate base paths are searched in the configured order and
    the search stops at the first one that returns a result: when the paths
    before [hit] return nothing and [hit] returns [pairs], the subtree searches
    made are those on the paths up to [hit], in order, none on the paths after
    it, and the outcome is [pairs], cut to the limit and without the pairs
    that lack a DN; [get_user] then resolves the single entry found. *)
Theorem user_search_stops_at_first_hit :
  forall (srv : DirectoryClient) (lookup_robot : string -> bool) (self : LDAPUsers)
         (u : string) (before : list string) (hit : string) (after : list string)
         (pairs : list pair),
    admin_accepted srv self ->
    truthy u = true ->
    lookup_robot u = false ->
    _user_dns self = before ++ hit :: after ->
    (forall base, In base before ->
                  forall h, search_s srv h base SCOPE_SUBTREE (user_query self u "") = inr []) ->
    (forall h, search_s srv h hit SCOPE_SUBTREE (user_query self u "") = inr pairs) ->
    pairs <> [] ->
    forall h : history,
      let round_trips :=
        [admin_bind self; EUnbind; admin_bind self] ++
        map (fun base => ESearchS base SCOPE_SUBTREE (user_query self u ""))
            (before ++ [hit]) ++
        [EUnbind] in
      (forall limit : nat,
          _ldap_user_search srv lookup_robot self u limit "" false false false h =
          (h ++ round_trips,
           Ret (Some (filter (fun result => truthy (dn result))
                        (map (fun p : pair => {| dn := fst p; res_attrs := snd p |})
                             (take limit pairs))),
                None))) /\
      (forall (d : string) (a : attrs),
          pairs = [(Some d, Attrs a)] -> truthy d = true ->
          get_user srv lookup_robot self u h =
          (h ++ round_trips, _build_user_information self (Attrs a))).
Proof.
  intros srv robot self u before hit after pairs Hadm Hu Hr Hdns Hpre Hhit Hne h round_trips.
  assert (Hsearch : forall limit : nat,
             _ldap_user_search srv robot self u limit "" false false false h =
             (h ++ round_trips,
              Ret (Some (filter (fun result => truthy (dn result))
                           (map (fun p : pair => {| dn := fst p; res_attrs := snd p |})
                                (take limit pairs))),
                   None))).
  { intros limit. unfold _ldap_user_search. rewrite Hu, Hr. cbn [negb].
    rewrite check_admin_bind_accepted, with_get_connection_accepted by assumption.
    unfold bind. rewrite Hdns.
    rewrite (user_search_loop_first_hit srv self u before hit after pairs Hpre Hhit Hne)
      by auto.
    simpl fst. simpl snd. unfold ret. simpl fst. simpl snd.
    f_equal. subst round_trips.
    repeat rewrite <- app_assoc. reflexivity. }
  split; [exact Hsearch|].
  intros d a Hp Hd. unfold get_user, _ldap_single_user_search.
  rewrite Hr. unfold bind. rewrite (Hsearch 20). rewrite Hp. simpl.
  rewrite truthy_Some, Hd. reflexivity.
Qed.

Lemma user_search_stops_at_first_hit_witness :
  get_user Fixtures.alice_directory Fixtures.robots Fixtures.two_paths "alice" [] =
  ([admin_bind Fixtures.two_paths; EUnbind; admin_bind Fixtures.two_paths;
    ESearchS Fixtures.STAFF SCOPE_SUBTREE "(|(uid=alice)(mail=alice))";
    ESearchS Fixtures.PEOPLE SCOPE_SUBTREE "(|(uid=alice)(mail=alice))";
    EUnbind],
   Ret (Some {| username := "alice"; email := Some "alice@x.com"; id := "alice" |}, None)).
Proof.
  exact (proj2 (user_search_stops_at_first_hit Fixtures.alice_directory Fixtures.robots
                  Fixtures.two_paths "alice" [Fixtures.STAFF] Fixtures.PEOPLE []
                  [Fixtures.alice_entry]
                  (fun _ => eq_refl) eq_refl eq_refl eq_refl
                  (fun base Hin h =>
                     match Hin with
                     | or_introl Heq =>
                         eq_ind Fixtures.STAFF
                           (fun b => search_s Fixtures.alice_directory h b SCOPE_SUBTREE
                                       (user_query Fixtures.two_paths "alice" "") = inr [])
                           eq_refl base Heq
                     | or_intror F => False_ind _ F
                     end)
                  (fun _ => eq_refl)
                  (fun H => eq_ind [Fixtures.alice_entry]
                              (fun l => match l with [] => False | _ => True end) I [] H)
                  [])
           "uid=alice,ou=people,dc=x,dc=com"
           [("uid", ["alice"]); ("mail", ["alice@x.com"])] eq_refl eq_refl).
Defined.

(** ** Group-member enumeration *)

Section Enumeration.

Variable srv : DirectoryClient.
Variable self : LDAPUsers.
Variable search_flt : string.
Variable page_size : nat.

Lemma resolved_in_order (rdata : list pair) :
  forall items : list member,
    resolved self rdata = Some items ->
    map (@Ret member) items =
    map (fun userdata => _build_user_information self (snd userdata))
        (filter is_direct rdata).
Proof.
  induction rdata as [|[d p] rest IH]; intros items H; cbn [resolved snd] in H.
  - injection H as <-. reflexivity.
  - unfold is_direct at 1. cbn [filter snd]. destruct p as [a|urls].
    + destruct (_build_user_information self (Attrs a)) as [info| |] eqn:E;
        try discriminate.
      destruct (resolved self rest) as [l|]; cbn [option_map] in H; try discriminate.
      injection H as <-. cbn [map snd]. rewrite E. f_equal. now apply IH.
    + now apply IH.
Qed.

Lemma resolved_app (r1 r2 : list pair) :
  forall items : list member,
    resolved self (r1 ++ r2) = Some items ->
    exists i1 i2, resolved self r1 = Some i1 /\ resolved self r2 = Some i2 /\ items = i1 ++ i2.
Proof.
  induction r1 as [|[d p] rest IH]; intros items H.
  - exists [], items. auto.
  - cbn [app resolved snd] in *. destruct p as [a|urls].
    + destruct (_build_user_information self (Attrs a)) as [info| |]; try discriminate.
      destruct (resolved self (rest ++ r2)) as [l|] eqn:E; cbn [option_map] in H; try discriminate.
      injection H as <-.
      destruct (IH l eq_refl) as (i1 & i2 & -> & H2 & ->).
      exists (info :: i1), i2. auto.
    + now apply IH.
Qed.

Lemma drain_yield_users (rdata : list pair) (after : history -> gen member) (h : history) :
  forall items : list member,
    resolved self rdata = Some items ->
    drain (yield_users self rdata after h) =
    (items ++ fst (drain (after h)), snd (drain (after h))).
Proof.
  induction rdata as [|[d p] rest IH]; intros items H; cbn [resolved snd] in H.
  - injection H as <-. cbn [yield_users app]. now destruct (drain (after h)).
  - cbn [yield_users snd]. destruct p as [a|urls].
    + destruct (_build_user_information self (Attrs a)) as [info| |]; try discriminate.
      destruct (resolved self rest) as [l|]; cbn [option_map] in H; try discriminate.
      injection H as <-. cbn [drain]. rewrite (IH l eq_refl). reflexivity.
    + now apply IH.
Qed.

(** The first item a batch yields is the first of its resolved items. *)
Lemma yield_users_first (rdata : list pair) (after : history -> gen member) (h : history) :
  forall (item : member) (items : list member),
    resolved self rdata = Some (item :: items) ->
    exists resume, yield_users self rdata after h = GYield item h resume.
Proof.
  induction rdata as [|[d p] rest IH]; intros item items H; cbn [resolved snd] in H.
  - discriminate.
  - cbn [yield_users snd]. destruct p as [a|urls].
    + destruct (_build_user_information self (Attrs a)) as [info| |]; try discriminate.
      destruct (resolved self rest) as [l|]; cbn [option_map] in H; try discriminate.
      injection H as <- <-. eauto.
    + now apply IH with (items := items).
Qed.

Lemma page_loop_paged (fuel : nat) (base : string) (m : msgid)
    (next_path : history -> gen member) (h : history)
    (rdata : list pair) (serverctrls : list control) :
  result3 srv h m = inr (rdata, serverctrls) ->
  page_loop srv self search_flt page_size true (S fuel) base m next_path h =
  yield_users self rdata
    (fun h2 =>
       if negb (truthy (List.length rdata)) then next_path h2
       else
         match paging_controls serverctrls with
         | pctrl :: _ =>
             if truthy (cookie pctrl) then
               let ev := ESearchExt base SCOPE_SUBTREE search_flt page_size
                           (cookie pctrl) (attributes self) in
               match search_ext srv h2 base SCOPE_SUBTREE search_flt page_size
                       (cookie pctrl) (attributes self) with
               | inl e => GRaise (LDAPError e) (h2 ++ [ev] ++ [EUnbind])
               | inr m' =>
                   page_loop srv self search_flt page_size true fuel base m' next_path
                     (h2 ++ [ev])
               end
             else next_path h2
         | [] => next_path h2
         end)
    (h ++ [EResult3 m]).
Proof.
  intros Hr. cbn [page_loop]. unfold fetch. rewrite Hr. reflexivity.
Qed.

(** A protocol error while a batch is fetched leaves the [while] loop only:
    the enumeration goes on with the next base path. *)
Lemma page_loop_fetch_error (fuel : nat) (base : string) (m : msgid)
    (next_path : history -> gen member) (h : history) (e : ldap_error) :
  result3 srv h m = inl e ->
  page_loop srv self search_flt page_size true (S fuel) base m next_path h =
  next_path (h ++ [EResult3 m]).
Proof.
  intros Hr. cbn [page_loop]. unfold fetch. rewrite Hr. now destruct (kind e).
Qed.

(** A protocol error when the first search on a base path is issued leaves
    the [for] loop: the base paths after it are not searched. *)
Lemma path_loop_issue_error (fuel : nat) (base : string) (rest : list string)
    (h : history) (e : ldap_error) :
  search_ext srv h base SCOPE_SUBTREE search_flt page_size "" (attributes self) = inl e ->
  path_loop srv self search_flt page_size true fuel (base :: rest) h =
  GStop ((h ++ [ESearchExt base SCOPE_SUBTREE search_flt page_size ""
                  (attributes self)]) ++ [EUnbind]).
Proof.
  intros Hs. cbn [path_loop]. unfold issue. now rewrite Hs.
Qed.

End Enumeration.

(** Within a batch the history does not move, so what follows the batch is
    only looked at there. *)
Lemma drain_yield_users_after (self : LDAPUsers) (rdata : list pair)
    (after1 after2 : history -> gen member) (h : history) :
  drain (after1 h) = drain (after2 h) ->
  drain (yield_users self rdata after1 h) = drain (yield_users self rdata after2 h).
Proof.
  intros Hk. induction rdata as [|[d p] rest IH]; cbn [yield_users snd]; [exact Hk|].
  destruct p as [a|urls]; [|exact IH].
  destruct (_build_user_information self (Attrs a)); try reflexivity.
  cbn [drain]. now rewrite IH.
Qed.

(** Without a continuation the [while] loop is left after the batch. *)
Lemma page_loop_last_batch :
  forall (srv : DirectoryClient) (self : LDAPUsers) (search_flt : string)
         (page_size fuel : nat) (base : string) (m : msgid)
         (next_path : history -> gen member) (h : history)
         (rdata : list pair) (serverctrls : list control),
    result3 srv h m = inr (rdata, serverctrls) ->
    no_continuation serverctrls ->
    drain (page_loop srv self search_flt page_size true (S fuel) base m next_path h) =
    drain (yield_users self rdata next_path (h ++ [EResult3 m])).
Proof.
  intros srv self flt size fuel base m next_path h rdata ctrls Hr Hc.
  rewrite (page_loop_paged srv self flt size fuel base m next_path h rdata ctrls Hr).
  apply drain_yield_users_after.
  unfold no_continuation in Hc.
  destruct (negb (truthy (List.length rdata))); [reflexivity|].
  destruct (paging_controls ctrls) as [|pctrl rest]; [reflexivity|].
  rewrite Hc. reflexivity.
Qed.

(** C5.  With pagination enabled, when the response to the search on a base
    path carries no paging control, or a paging control with an empty cookie,
    the items of that batch are yielded, in order, and the enumeration goes
    on with what follows the base path after that one fetch: the batch is the
    only one fetched there, whatever its size. *)
Theorem single_batch_without_continuation :
  forall (srv : DirectoryClient) (self : LDAPUsers) (search_flt : string)
         (page_size fuel : nat) (base : string) (m : msgid)
         (next_path : history -> gen member) (h : history)
         (rdata : list pair) (serverctrls : list control) (items : list member),
    result3 srv h m = inr (rdata, serverctrls) ->
    no_continuation serverctrls ->
    resolved self rdata = Some items ->
    drain (page_loop srv self search_flt page_size true (S fuel) base m next_path h) =
    (items ++ fst (drain (next_path (h ++ [EResult3 m]))),
     snd (drain (next_path (h ++ [EResult3 m])))).
Proof.
  intros srv self flt size fuel base m next_path h rdata ctrls items Hr Hc Hi.
  rewrite (page_loop_last_batch srv self flt size fuel base m next_path h rdata ctrls Hr Hc).
  now apply drain_yield_users.
Qed.

Lemma single_batch_without_continuation_witness :
  drain (_iterate_members Groups.no_paging Fixtures.one_path 1 "cn=devs" "memberOf" 2 false [])
  = ([Groups.member_info "ann"; Groups.member_info "bob"; Groups.member_info "cat";
      Groups.member_info "dan"; Groups.member_info "eve"],
     ([admin_bind Fixtures.one_path;
       ESearchExt Fixtures.STAFF SCOPE_SUBTREE Groups.DEVS_FILTER 2 ""
         (attributes Fixtures.one_path);
       EResult3 1;
       EUnbind],
      Ret tt)).
Proof.
  exact (single_batch_without_continuation Groups.no_paging Fixtures.one_path
           Groups.DEVS_FILTER 2 0 Fixtures.STAFF 1
           (path_loop Groups.no_paging Fixtures.one_path Groups.DEVS_FILTER 2 true 1 [])
           [admin_bind Fixtures.one_path;
            ESearchExt Fixtures.STAFF SCOPE_SUBTREE Groups.DEVS_FILTER 2 ""
              (attributes Fixtures.one_path)]
           _ [] _ eq_refl I eq_refl).
Defined.

(** ** Paginated enumeration *)

Section Pages.

Variable srv : DirectoryClient.
Variable self : LDAPUsers.
Variable search_flt : string.
Variable page_size : nat.
Variable base : string.

Lemma paginated_pages_drained (pgs : list page) :
  forall (p : page) (fuel : nat) (next_path : history -> gen member)
         (h : history) (items : list member),
    paginates srv self search_flt page_size base p pgs ->
    List.length (p :: pgs) <= fuel ->
    resolved self (concat (map pg_rdata (p :: pgs))) = Some items ->
    drain (page_loop srv self search_flt page_size true fuel base (pg_msgid p) next_path h) =
    (items ++ fst (drain (next_path (h ++ page_trips self search_flt page_size base p pgs))),
     snd (drain (next_path (h ++ page_trips self search_flt page_size base p pgs)))).
Proof.
  induction pgs as [|q rest IH]; intros p fuel next_path h items Hp Hfuel Hitems.
  - destruct Hp as [Hr Hlast].
    destruct fuel as [|fuel]; [cbn [List.length] in Hfuel; lia|].
    cbn [map concat] in Hitems. rewrite app_nil_r in Hitems.
    rewrite (page_loop_last_batch srv self search_flt page_size fuel base (pg_msgid p)
               next_path h (pg_rdata p) (pg_ctrls p) (Hr h) Hlast).
    now apply drain_yield_users.
  - destruct Hp as (Hr & Hne & Hck & Hnext & Hrest).
    destruct fuel as [|fuel]; [cbn [List.length] in Hfuel; lia|].
    change (concat (map pg_rdata (p :: q :: rest)))
      with (pg_rdata p ++ concat (map pg_rdata (q :: rest))) in Hitems.
    destruct (resolved_app self _ _ items Hitems) as (i1 & i2 & H1 & H2 & ->).
    rewrite (page_loop_paged srv self search_flt page_size fuel base (pg_msgid p)
               next_path h (pg_rdata p) (pg_ctrls p) (Hr h)).
    rewrite (drain_yield_users self (pg_rdata p) _ (h ++ [EResult3 (pg_msgid p)]) i1 H1).
    destruct (pg_rdata p) as [|u us] eqn:Ep; [now contradiction Hne|].
    cbn [List.length truthy Truthy_nat negb].
    unfold continuation in Hck, Hnext. cbn [page_trips]. unfold continuation at 1 2.
    destruct (paging_controls (pg_ctrls p)) as [|pctrl others]; [discriminate Hck|].
    rewrite Hck, Hnext.
    rewrite (IH q fuel next_path _ i2 Hrest) by (cbn [List.length] in *; (lia || assumption)).
    unfold continued. rewrite <- !app_assoc. cbn [app]. reflexivity.
Qed.

End Pages.

(** C6 (as amended).  When the server paginates the search on a base path and
    every page but the last holds at least one result (and carries a cookie,
    with which the next page is asked for), the enumeration of that path
    yields the items of all its pages: one for every result that is not
    referral-shaped, in the order of the results within a page and of the
    pages as they arrive; when no result is referral-shaped there are as many
    items as results over all pages.  As many rounds of the loop as there are
    pages suffice. *)
Theorem paginated_enumeration_in_arrival_order :
  forall (srv : DirectoryClient) (self : LDAPUsers) (search_flt : string)
         (page_size : nat) (base : string) (p : page) (pgs : list page) (fuel : nat)
         (next_path : history -> gen member) (h : history) (items : list member),
    paginates srv self search_flt page_size base p pgs ->
    List.length (p :: pgs) <= fuel ->
    resolved self (concat (map pg_rdata (p :: pgs))) = Some items ->
    drain (page_loop srv self search_flt page_size true fuel base (pg_msgid p) next_path h) =
    (items ++ fst (drain (next_path (h ++ page_trips self search_flt page_size base p pgs))),
     snd (drain (next_path (h ++ page_trips self search_flt page_size base p pgs)))) /\
    map (@Ret member) items =
    map (fun userdata => _build_user_information self (snd userdata))
        (filter is_direct (concat (map pg_rdata (p :: pgs)))) /\
    (forallb is_direct (concat (map pg_rdata (p :: pgs))) = true ->
     List.length items = List.length (concat (map pg_rdata (p :: pgs)))).
Proof.
  intros srv self flt size base p pgs fuel next_path h items Hp Hfuel Hitems.
  split; [now apply paginated_pages_drained|].
  pose proof (resolved_in_order self _ items Hitems) as Horder.
  split; [exact Horder|].
  intros Hdirect. rewrite (forallb_filter_id _ _ Hdirect) in Horder.
  apply (f_equal (@List.length _)) in Horder. now rewrite !length_map in Horder.
Qed.

Lemma three_pages_served :
  paginates Groups.three_pages Fixtures.one_path Groups.DEVS_FILTER 2 Fixtures.STAFF
    ThreePages.first [ThreePages.second; ThreePages.third].
Proof.
  cbn [paginates].
  repeat split; try reflexivity; intros H; discriminate H.
Qed.

Lemma paginated_enumeration_in_arrival_order_witness :
  drain (_iterate_members Groups.three_pages Fixtures.one_path 3 "cn=devs" "memberOf" 2
           false [])
  = ([Groups.member_info "ann"; Groups.member_info "bob"; Groups.member_info "cat";
      Groups.member_info "dan"; Groups.member_info "eve"],
     ([admin_bind Fixtures.one_path;
       ESearchExt Fixtures.STAFF SCOPE_SUBTREE Groups.DEVS_FILTER 2 ""
         (attributes Fixtures.one_path);
       EResult3 1;
       ESearchExt Fixtures.STAFF SCOPE_SUBTREE Groups.DEVS_FILTER 2 "page-2"
         (attributes Fixtures.one_path);
       EResult3 2;
       ESearchExt Fixtures.STAFF SCOPE_SUBTREE Groups.DEVS_FILTER 2 "page-3"
         (attributes Fixtures.one_path);
       EResult3 3;
       EUnbind],
      Ret tt)).
Proof.
  exact (proj1 (paginated_enumeration_in_arrival_order Groups.three_pages Fixtures.one_path
                  Groups.DEVS_FILTER 2 Fixtures.STAFF ThreePages.first
                  [ThreePages.second; ThreePages.third] 3
                  (path_loop Groups.three_pages Fixtures.one_path Groups.DEVS_FILTER 2
                     true 3 [])
                  [admin_bind Fixtures.one_path;
                   ESearchExt Fixtures.STAFF SCOPE_SUBTREE Groups.DEVS_FILTER 2 ""
                     (attributes Fixtures.one_path)]
                  _ three_pages_served (le_n 3) eq_refl)).
Defined.

(** An empty batch ends the enumeration of the base path before the controls
    of the server are looked at, whatever cookie they carry. *)
Lemma empty_batch_ends_the_path :
  forall (srv : DirectoryClient) (self : LDAPUsers) (search_flt : string)
         (page_size fuel : nat) (base : string) (m : msgid)
         (next_path : history -> gen member) (h : history) (serverctrls : list control),
    result3 srv h m = inr ([], serverctrls) ->
    page_loop srv self search_flt page_size true (S fuel) base m next_path h =
    next_path (h ++ [EResult3 m]).
Proof.
  intros srv self flt size fuel base m next_path h ctrls Hr.
  now rewrite (page_loop_paged srv self flt size fuel base m next_path h [] ctrls Hr).
Qed.

(** C6 as stated fails.  The server holds three members of the group and
    serves them in pages of two, none and one, each page but the last with a
    cookie: the enumeration yields the two members of the first page and
    leaves the base path at the empty page, so that the third page is never
    asked for and fewer items are yielded than there are entries. *)
Lemma empty_page_ends_the_enumeration :
  drain (_iterate_members MoreFixtures.empty_middle_page Fixtures.one_path 3 "cn=devs"
           "memberOf" 2 false [])
  = ([Groups.member_info "ann"; Groups.member_info "bob"],
     ([admin_bind Fixtures.one_path;
       ESearchExt Fixtures.STAFF SCOPE_SUBTREE Groups.DEVS_FILTER 2 ""
         (attributes Fixtures.one_path);
       EResult3 1;
       ESearchExt Fixtures.STAFF SCOPE_SUBTREE Groups.DEVS_FILTER 2 "page-2"
         (attributes Fixtures.one_path);
       EResult3 2;
       EUnbind],
      Ret tt))
  /\
  List.length
    (fst (drain (_iterate_members MoreFixtures.empty_middle_page Fixtures.one_path 3
                   "cn=devs" "memberOf" 2 false [])))
  <> List.length (concat MoreFixtures.empty_middle_pages).
Proof.
  split; [reflexivity|]. cbn. discriminate.
Qed.

(** ** Errors during the enumeration *)

(** C4 (at the input where it fails).  Two candidate base paths, the second
    of which holds two members of the group.  When fetching the results of the
    first path fails, the enumeration goes on and yields the two members; when
    the search on the first path cannot be issued, the enumeration ends there:
    the second path is not searched and nothing is yielded. *)
Theorem search_error_ends_the_enumeration :
  drain (_iterate_members Groups.staff_results_fail Fixtures.two_paths 2 "cn=devs"
           "memberOf" 2 false [])
  = ([Groups.member_info "ann"; Groups.member_info "bob"],
     ([admin_bind Fixtures.two_paths;
       ESearchExt Fixtures.STAFF SCOPE_SUBTREE Groups.DEVS_FILTER 2 ""
         (attributes Fixtures.two_paths);
       EResult3 1;
       ESearchExt Fixtures.PEOPLE SCOPE_SUBTREE Groups.DEVS_FILTER 2 ""
         (attributes Fixtures.two_paths);
       EResult3 2;
       EUnbind],
      Ret tt))
  /\
  drain (_iterate_members Groups.staff_search_fails Fixtures.two_paths 2 "cn=devs"
           "memberOf" 2 false [])
  = ([],
     ([admin_bind Fixtures.two_paths;
       ESearchExt Fixtures.STAFF SCOPE_SUBTREE Groups.DEVS_FILTER 2 ""
         (attributes Fixtures.two_paths);
       EUnbind],
      Ret tt)).
Proof. split; reflexivity. Qed.

(** ** Validation of a group reference *)

(** C10.  When the group reference names a group DN, the administrative bind
    is accepted and the member iterator yields a first item, whatever that
    item is, [check_group_lookup_args] returns [(True, None)]: the item is a
    pair, and a pair is true even when it holds no identity record.  The
    iterator is closed on the way out, which releases its connection. *)
Theorem check_group_lookup_args_first_item :
  forall (srv : DirectoryClient) (self : LDAPUsers) (fuel : nat)
         (group_lookup_args : dict string) (disable_pagination : bool)
         (group_dn : string) (item : member) (h h' : history),
    dict_get group_lookup_args "group_dn" = Some group_dn ->
    truthy group_dn = true ->
    admin_accepted srv self ->
    next_or_default
      (_iterate_members srv self fuel group_dn (_memberof_attr self) 1 disable_pagination)
      ((h ++ [admin_bind self]) ++ [EUnbind]) = (h', Ret (Some item)) ->
    check_group_lookup_args srv self fuel group_lookup_args disable_pagination h =
    (h' ++ [EUnbind], Ret (true, None)).
Proof.
  intros srv self fuel args disable group_dn item h h' Hg Ht Hadm Hnext.
  unfold check_group_lookup_args, iterate_group_members.
  rewrite Hg, truthy_Some, Ht. cbn [negb].
  unfold bind at 1. rewrite check_admin_bind_accepted by assumption.
  unfold ret at 1. cbn [truthy Truthy_nat].
  unfold bind. rewrite Hnext. reflexivity.
Qed.

Lemma check_group_lookup_args_first_item_witness :
  drain (_iterate_members Groups.member_without_mail Fixtures.one_path 1 "cn=devs"
           "memberOf" 1 false [])
  = ([(None, Some ("Missing mail field " +++ PyStr.DQ +++ "mail" +++ PyStr.DQ
                     +++ " in user record"))],
     ([admin_bind Fixtures.one_path;
       ESearchExt Fixtures.STAFF SCOPE_SUBTREE Groups.DEVS_FILTER 1 ""
         (attributes Fixtures.one_path);
       EResult3 1;
       EUnbind],
      Ret tt))
  /\
  check_group_lookup_args Groups.member_without_mail Fixtures.one_path 1
    [("group_dn", "cn=devs")] false [] =
  ([admin_bind Fixtures.one_path; EUnbind; admin_bind Fixtures.one_path;
    ESearchExt Fixtures.STAFF SCOPE_SUBTREE Groups.DEVS_FILTER 1 ""
      (attributes Fixtures.one_path);
    EResult3 1;
    EUnbind],
   Ret (true, None)).
Proof.
  split; [reflexivity|].
  exact (check_group_lookup_args_first_item Groups.member_without_mail Fixtures.one_path 1
           [("group_dn", "cn=devs")] false "cn=devs"
           (None, Some ("Missing mail field " +++ PyStr.DQ +++ "mail" +++ PyStr.DQ
                          +++ " in user record"))
           [] _ eq_refl eq_refl (fun _ => eq_refl) eq_refl).
Defined.

(** A protocol error when the next page is asked for is not handled: the
    generator raises it, after the items of the pages read so far. *)
Lemma page_loop_continuation_error :
  forall (srv : DirectoryClient) (self : LDAPUsers) (search_flt : string)
         (page_size fuel : nat) (base : string) (m : msgid)
         (next_path : history -> gen member) (h : history)
         (rdata : list pair) (serverctrls : list control) (items : list member)
         (e : ldap_error),
    result3 srv h m = inr (rdata, serverctrls) ->
    rdata <> [] ->
    truthy (continuation serverctrls) = true ->
    search_ext srv (h ++ [EResult3 m]) base SCOPE_SUBTREE search_flt page_size
      (continuation serverctrls) (attributes self) = inl e ->
    resolved self rdata = Some items ->
    drain (page_loop srv self search_flt page_size true (S fuel) base m next_path h) =
    (items,
     ((h ++ [EResult3 m]) ++
      [ESearchExt base SCOPE_SUBTREE search_flt page_size (continuation serverctrls)
         (attributes self)] ++ [EUnbind],
      Raise (LDAPError e))).
Proof.
  intros srv self flt size fuel base m next_path h rdata ctrls items e Hr Hne Hck Hs Hi.
  rewrite (page_loop_paged srv self flt size fuel base m next_path h rdata ctrls Hr).
  rewrite (drain_yield_users self rdata _ (h ++ [EResult3 m]) items Hi).
  destruct rdata as [|u us]; [now contradiction Hne|].
  cbn [List.length truthy Truthy_nat negb].
  unfold continuation in Hck, Hs |- *.
  destruct (paging_controls ctrls) as [|pctrl others]; [discriminate Hck|].
  rewrite Hck, Hs. cbn [drain fst snd]. now rewrite app_nil_r.
Qed.

(** * Further properties of the adapter *)

(** ** Filter composition *)

Lemma length_append (s1 s2 : string) :
  String.length (s1 +++ s2) = String.length s1 + String.length s2.
Proof.
  induction s1 as [|a s1 IH]; simpl; [reflexivity | now rewrite IH].
Qed.

Lemma substring_last (s : string) (c : ascii) :
  String.substring (String.length s) 1 (s +++ String c EmptyString) = String c EmptyString.
Proof.
  induction s as [|a s IH]; simpl; [reflexivity | exact IH].
Qed.

Lemma wrapped_in_parentheses (q : string) :
  PyStr.startswith ("(" +++ q +++ ")") "(" = true /\
  PyStr.endswith ("(" +++ q +++ ")") ")" = true.
Proof.
  split.
  - unfold PyStr.startswith. simpl. now destruct (q +++ ")").
  - unfold PyStr.endswith.
    change ("(" +++ q +++ ")") with (String "(" (q +++ ")")).
    cbn [String.length]. rewrite length_append. cbn [String.length].
    replace (S (String.length q + 1) - 1) with (S (String.length q)) by lia.
    cbn [Nat.leb String.substring]. rewrite substring_last. reflexivity.
Qed.

Lemma parenthesize_wrapped (q : string) :
  PyStr.startswith (parenthesize q) "(" = true /\
  PyStr.endswith (parenthesize q) ")" = true.
Proof.
  unfold parenthesize.
  destruct (PyStr.startswith q "(") eqn:Hs; destruct (PyStr.endswith q ")") eqn:He;
    cbn [negb orb]; auto using wrapped_in_parentheses.
Qed.

(** X1.  The two assertions of [_add_filter] always hold: whatever the query
    and the filter, the fragments that are conjoined start with an opening
    and end with a closing parenthesis; a fragment that is wrapped already is
    taken as it is, so that wrapping twice changes nothing. *)
Theorem add_filter_conjoins_wrapped_fragments :
  forall query user_filter : string,
    _add_filter query user_filter =
      "(&" +++ parenthesize query +++ parenthesize user_filter +++ ")" /\
    PyStr.startswith (parenthesize query) "(" = true /\
    PyStr.endswith (parenthesize query) ")" = true /\
    PyStr.startswith (parenthesize user_filter) "(" = true /\
    PyStr.endswith (parenthesize user_filter) ")" = true /\
    parenthesize (parenthesize query) = parenthesize query.
Proof.
  intros query user_filter.
  destruct (parenthesize_wrapped query) as [Hq1 Hq2].
  destruct (parenthesize_wrapped user_filter) as [Hf1 Hf2].
  repeat split; try assumption.
  unfold parenthesize at 1. now rewrite Hq1, Hq2.
Qed.

(** ** Referral targets *)

Lemma referral_scheme_stripped (target : string) :
  PyStr.startswith (REFERRAL_SCHEME +++ target) REFERRAL_SCHEME = true /\
  PyStr.drop (String.length REFERRAL_SCHEME) (REFERRAL_SCHEME +++ target) = target.
Proof.
  split.
  - unfold PyStr.startswith. simpl. now destruct target.
  - unfold PyStr.drop. simpl. rewrite Nat.sub_0_r. apply substring_whole.
Qed.

Lemma referral_dn_parsed_aux (re : ldap_error) (referral_dn : string) :
  dict_get (args0 re) "info" = Some (REFERRAL_HEADER +++ REFERRAL_SCHEME +++ referral_dn) ->
  _get_ldap_referral_dn re = Some referral_dn.
Proof.
  intros Hi. unfold _get_ldap_referral_dn. rewrite Hi.
  assert (Hargs : truthy (args0 re) = true).
  { destruct (args0 re); [discriminate Hi | reflexivity]. }
  rewrite Hargs.
  destruct (referral_header_stripped (REFERRAL_SCHEME +++ referral_dn)) as [Hp Hd].
  destruct (referral_scheme_stripped referral_dn) as [Hp' Hd'].
  rewrite Hp, Hd, Hp', Hd'. reflexivity.
Qed.

(** X2.  A referral failure whose info block is the referral header followed
    by an [ldap:///] URL is parsed to the DN that follows the scheme. *)
Theorem referral_dn_parsed :
  forall (re : ldap_error) (referral_dn : string),
    dict_get (args0 re) "info" = Some (REFERRAL_HEADER +++ REFERRAL_SCHEME +++ referral_dn) ->
    _get_ldap_referral_dn re = Some referral_dn.
Proof.
  intros re rdn Hi. unfold _get_ldap_referral_dn. rewrite Hi.
  assert (Hargs : truthy (args0 re) = true).
  { destruct (args0 re); [discriminate Hi | reflexivity]. }
  rewrite Hargs.
  destruct (referral_header_stripped (REFERRAL_SCHEME +++ rdn)) as [Hp Hd].
  destruct (referral_scheme_stripped rdn) as [Hp' Hd'].
  rewrite Hp, Hd, Hp', Hd'. reflexivity.
Qed.

Lemma referral_dn_parsed_witness :
  _get_ldap_referral_dn
    (Fixtures.referral (REFERRAL_HEADER +++ "ldap:///uid=eve,dc=other")) =
  Some "uid=eve,dc=other".
Proof.
  exact (referral_dn_parsed
           (Fixtures.referral (REFERRAL_HEADER +++ "ldap:///uid=eve,dc=other"))
           "uid=eve,dc=other" eq_refl).
Defined.

(** ** Candidate base paths *)

Lemma split_not_empty (c : ascii) (s : string) : PyStr.split c s <> [].
Proof.
  destruct s as [|a s]; simpl; [discriminate|].
  destruct (Ascii.eqb a c); [discriminate|].
  destruct (PyStr.split c s); discriminate.
Qed.

Lemma concat_cons_char (sep : string) (a : ascii) (w : string) (ws : list string) :
  String.concat sep (String a w :: ws) = String a (String.concat sep (w :: ws)).
Proof. destruct ws; reflexivity. Qed.

Lemma join_split (c : ascii) (s : string) :
  PyStr.join (String c EmptyString) (PyStr.split c s) = s.
Proof.
  unfold PyStr.join. induction s as [|a s IH]; [reflexivity|].
  cbn [PyStr.split]. destruct (Ascii.eqb a c) eqn:E.
  - apply Ascii.eqb_eq in E. subst a.
    pose proof (split_not_empty c s) as Hne.
    destruct (PyStr.split c s) as [|w ws]; [contradiction|].
    change (String.concat (String c EmptyString) (EmptyString :: w :: ws))
      with (String c (String.concat (String c EmptyString) (w :: ws))).
    now rewrite IH.
  - pose proof (split_not_empty c s) as Hne.
    destruct (PyStr.split c s) as [|w ws]; [contradiction|].
    rewrite concat_cons_char. now rewrite IH.
Qed.

Lemma join_app (sep : string) (l1 l2 : list string) :
  l1 <> [] -> l2 <> [] ->
  PyStr.join sep (l1 ++ l2) = PyStr.join sep l1 +++ sep +++ PyStr.join sep l2.
Proof.
  unfold PyStr.join. intros H1 H2.
  induction l1 as [|x l1 IH]; [contradiction|].
  destruct l1 as [|y l1].
  - cbn [app]. destruct l2 as [|z l2]; [contradiction|]. reflexivity.
  - specialize (IH ltac:(discriminate)). cbn [app] in IH |- *.
    change (String.concat sep (x :: y :: l1 ++ l2))
      with (x +++ sep +++ String.concat sep (y :: l1 ++ l2)).
    change (String.concat sep (x :: y :: l1))
      with (x +++ sep +++ String.concat sep (y :: l1)).
    rewrite IH. now rewrite !append_assoc.
Qed.

(** X3.  [get_full_rdn] puts a relative DN in front of the base DN, and gives
    the base DN itself for an empty relative DN, so that every candidate base
    path lies under the base DN that [service_metadata] reports. *)
Theorem full_rdn_under_base_dn :
  forall (base_dn : list string) (relative_dn : string),
    base_dn <> [] ->
    get_full_rdn base_dn relative_dn =
    if truthy relative_dn
    then relative_dn +++ "," +++ PyStr.join "," base_dn
    else PyStr.join "," base_dn.
Proof.
  intros base_dn rel Hb. unfold get_full_rdn.
  destruct (truthy rel) eqn:E; [|reflexivity].
  rewrite join_app by (assumption || apply split_not_empty).
  now rewrite (join_split ","%char rel).
Qed.

Lemma full_rdn_under_base_dn_witness :
  get_full_rdn ["dc=x"; "dc=com"] "ou=staff,ou=hq" = "ou=staff,ou=hq,dc=x,dc=com" /\
  get_full_rdn ["dc=x"; "dc=com"] "" = "dc=x,dc=com".
Proof.
  split.
  - exact (full_rdn_under_base_dn ["dc=x"; "dc=com"] "ou=staff,ou=hq"
             (fun H => eq_ind ["dc=x"; "dc=com"]
                         (fun l => match l with [] => False | _ => True end) I [] H)).
  - exact (full_rdn_under_base_dn ["dc=x"; "dc=com"] ""
             (fun H => eq_ind ["dc=x"; "dc=com"]
                         (fun l => match l with [] => False | _ => True end) I [] H)).
Defined.

(** X4.  An adapter built by [__init__] always has at least one candidate
    base path: the primary one comes first, the secondary ones follow in the
    order given, and the base DN it reports is the joined base DN. *)
Theorem init_candidate_paths :
  forall (ldap_uri : string) (base_dn : list string) (admin_dn admin_passwd : string)
         (user_rdn : list string) (uid_attr email_attr memberof_attr : string)
         (secondary_user_rdns : option (list string))
         (requires_email force_no_pagination : bool)
         (f1 f2 f3 f4 : option string),
    let self := LDAPUsers_init ldap_uri base_dn admin_dn admin_passwd user_rdn uid_attr
                  email_attr memberof_attr secondary_user_rdns requires_email
                  force_no_pagination f1 f2 f3 f4 in
    let secondary := match secondary_user_rdns with Some l => l | None => [] end in
    _user_dns self =
      get_full_rdn base_dn (PyStr.join "," user_rdn) :: map (get_full_rdn base_dn) secondary /\
    _user_dns self <> [] /\
    List.length (_user_dns self) = S (List.length secondary) /\
    service_metadata self = [("base_dn", PyStr.join "," base_dn)].
Proof.
  intros. subst self secondary. unfold LDAPUsers_init, service_metadata. cbn [_user_dns _base_dn].
  assert (H : (match secondary_user_rdns with
               | Some l => if truthy l then l else []
               | None => []
               end) = match secondary_user_rdns with Some l => l | None => [] end).
  { destruct secondary_user_rdns as [[|x l]|]; reflexivity. }
  rewrite H. cbn [app map].
  repeat split; try discriminate.
  cbn [List.length]. now rewrite length_map.
Qed.

(** ** Identity resolution *)

(** X5.  [_build_user_information] returns either a record and no message, or
    no record and a message.  A record is only built from an attribute map:
    its username is the first value of the uid attribute, its id is its
    username, its email is the first value of the email attribute when there
    is one, and it has an email whenever the adapter requires one. *)
Theorem build_user_information_record :
  forall (self : LDAPUsers) (response : payload)
         (r : option UserInformation) (e : option string),
    _build_user_information self response = Ret (r, e) ->
    (r = None /\ exists msg, e = Some msg) \/
    (e = None /\
     exists (a : attrs) (info : UserInformation) (others : list string),
       response = Attrs a /\ r = Some info /\
       dict_get a (_uid_attr self) = Some (username info :: others) /\
       id info = username info /\
       email info = match dict_get a (_email_attr self) with
                    | Some (m :: _) => Some m
                    | _ => None
                    end /\
       (_requires_email self = true -> email info <> None)).
Proof.
  intros self response r e H. unfold _build_user_information in H.
  destruct response as [a|urls]; [|discriminate H].
  destruct (dict_get a (_uid_attr self)) as [[|u us]|] eqn:Hu;
    cbn [truthy Truthy_option Truthy_list negb] in H;
    try (injection H as <- <-; left; eauto; fail).
  destruct (_requires_email self) eqn:Hreq; cbn [andb] in H.
  - destruct (dict_get a (_email_attr self)) as [[|m ms]|] eqn:Hm;
      cbn [truthy Truthy_option Truthy_list negb] in H;
      try (injection H as <- <-; left; eauto; fail).
    injection H as <- <-. right. split; [reflexivity|].
    exists a, {| username := u; email := Some m; id := u |}, us.
    cbn [username id email]. rewrite Hm. repeat split; try reflexivity; try exact Hu.
    intros _. discriminate.
  - destruct (dict_get a (_email_attr self)) as [[|m ms]|] eqn:Hm;
      try discriminate H; injection H as <- <-; right; (split; [reflexivity|]).
    + exists a, {| username := u; email := Some m; id := u |}, us.
      cbn [username id email]. rewrite Hm. repeat split; try reflexivity; try exact Hu.
      intros Hf. discriminate Hf.
    + exists a, {| username := u; email := None; id := u |}, us.
      cbn [username id email]. rewrite Hm. repeat split; try reflexivity; try exact Hu.
      intros Hf. discriminate Hf.
Qed.

Lemma build_user_information_record_witness :
  exists (a : attrs) (info : UserInformation) (others : list string),
    snd Fixtures.alice_entry = Attrs a /\
    Some {| username := "alice"; email := Some "alice@x.com"; id := "alice" |} = Some info /\
    dict_get a (_uid_attr Fixtures.two_paths) = Some (username info :: others) /\
    id info = username info /\
    email info = match dict_get a (_email_attr Fixtures.two_paths) with
                 | Some (m :: _) => Some m
                 | _ => None
                 end /\
    (_requires_email Fixtures.two_paths = true -> email info <> None).
Proof.
  destruct (build_user_information_record Fixtures.two_paths (snd Fixtures.alice_entry)
              (Some {| username := "alice"; email := Some "alice@x.com"; id := "alice" |})
              None eq_refl) as [[H _] | [_ H]]; [discriminate H | exact H].
Defined.

(** ** Robot accounts *)

(** X6.  A robot account is never resolved against the directory: the user
    search, the single-user search, [get_user], [verify_credentials] (whatever
    the secret), [query_users], [is_superuser] and
    [is_global_readonly_superuser] answer for it without any round-trip. *)
Theorem robots_never_reach_the_directory :
  forall (srv : DirectoryClient) (lookup_robot : string -> bool) (self : LDAPUsers)
         (u password : string) (limit : nat) (suffix : string) (fs fr fg : bool)
         (h : history),
    lookup_robot u = true ->
    truthy u = true ->
    let disabled := Some ("LDAP lookup for robots disabled " +++ u) in
    _ldap_user_search srv lookup_robot self u limit suffix fs fr fg h = (h, Ret (None, disabled)) /\
    _ldap_single_user_search srv lookup_robot self u fs fr fg h = (h, Ret (None, disabled)) /\
    get_user srv lookup_robot self u h = (h, Ret (None, disabled)) /\
    fst (verify_credentials srv lookup_robot self u password h) = h /\
    (truthy password = true ->
     verify_credentials srv lookup_robot self u password h = (h, Ret (None, disabled))) /\
    query_users srv lookup_robot self u limit h = (h, Ret (None, federated_service, disabled)) /\
    is_superuser srv lookup_robot self u h = (h, Ret false) /\
    is_global_readonly_superuser srv lookup_robot self u h = (h, Ret false).
Proof.
  intros srv robot self u password limit suffix fs fr fg h Hr Hu disabled.
  assert (Hsearch : forall limit suffix fs fr fg,
             _ldap_user_search srv robot self u limit suffix fs fr fg h =
             (h, Ret (None, disabled))).
  { intros. unfold _ldap_user_search. now rewrite Hu, Hr. }
  assert (Hsingle : forall fs fr fg,
             _ldap_single_user_search srv robot self u fs fr fg h =
             (h, Ret (None, disabled))).
  { intros. unfold _ldap_single_user_search. now rewrite Hr. }
  assert (Hverify : truthy password = true ->
             verify_credentials srv robot self u password h = (h, Ret (None, disabled))).
  { intros Hp. unfold verify_credentials. rewrite Hp. cbn [negb].
    unfold bind. now rewrite Hsingle. }
  repeat split; auto.
  - unfold get_user, bind. now rewrite Hsingle.
  - destruct (truthy password) eqn:Hp; [now rewrite Hverify|].
    unfold verify_credentials. now rewrite Hp.
  - unfold query_users. rewrite Hu. cbn [negb]. unfold bind. now rewrite Hsearch.
  - unfold is_superuser. now rewrite Hu, Hr.
  - unfold is_global_readonly_superuser. now rewrite Hu, Hr.
Qed.

Lemma robots_never_reach_the_directory_witness :
  get_user Fixtures.alice_directory Fixtures.robots Fixtures.two_paths "devtable+deploy" [] =
  ([], Ret (None, Some "LDAP lookup for robots disabled devtable+deploy")).
Proof.
  exact (proj1 (proj2 (proj2
           (robots_never_reach_the_directory Fixtures.alice_directory Fixtures.robots
              Fixtures.two_paths "devtable+deploy" "secret" 20 "" false false false []
              eq_refl eq_refl)))).
Defined.

(** ** The administrative bind *)

Section InvalidAdmin.

Variable srv : DirectoryClient.
Variable lookup_robot : string -> bool.
Variable self : LDAPUsers.
Variable h : history.
Variable e : ldap_error.

Hypothesis rejected :
  simple_bind_s srv h (_ldap_uri self) (_admin_dn self) (_admin_passwd self) = Some e.
Hypothesis invalid : kind e = K_INVALID_CREDENTIALS.

Lemma check_admin_bind_rejected {A} (on_invalid : A) (rest : M A) :
  check_admin_bind srv self on_invalid rest h = (h ++ [admin_bind self], Ret on_invalid).
Proof.
  unfold check_admin_bind, with_get_connection, with_LDAPConnection.
  rewrite rejected, invalid. reflexivity.
Qed.

End InvalidAdmin.

(** X7.  When the directory rejects the administrative bind as invalid
    credentials, every operation that checks it first answers with the
    message kept for that case, after that one bind and nothing else: the user
    search and what is built on it, the existence check, the group iteration
    and the validation of a group reference. *)
Theorem invalid_admin_credentials_short_circuit :
  forall (srv : DirectoryClient) (lookup_robot : string -> bool) (self : LDAPUsers)
         (h : history) (e : ldap_error),
    simple_bind_s srv h (_ldap_uri self) (_admin_dn self) (_admin_passwd self) = Some e ->
    kind e = K_INVALID_CREDENTIALS ->
    let msg := Some "LDAP Admin dn or password is invalid" in
    let h1 := h ++ [admin_bind self] in
    (forall (u : string) (limit : nat) (suffix : string) (fs fr fg : bool),
        truthy u = true -> lookup_robot u = false ->
        _ldap_user_search srv lookup_robot self u limit suffix fs fr fg h = (h1, Ret (None, msg)) /\
        get_user srv lookup_robot self u h = (h1, Ret (None, msg)) /\
        query_users srv lookup_robot self u limit h = (h1, Ret (None, federated_service, msg)) /\
        is_superuser srv lookup_robot self u h = (h1, Ret false)) /\
    (forall fs fr : bool, at_least_one_user_exists srv self fs fr h = (h1, Ret (None, msg))) /\
    ping srv self h = (h1, Ret (false, msg)) /\
    (forall (fuel : nat) (args : dict string) (page_size : option nat) (disable : bool),
        exists r, iterate_group_members srv self fuel args page_size disable h = (h1, Ret r)
                  /\ fst r = None /\ snd r = msg) /\
    (forall (fuel : nat) (args : dict string) (disable : bool),
        truthy (dict_get args "group_dn") = true ->
        check_group_lookup_args srv self fuel args disable h = (h1, Ret (false, msg))).
Proof.
  intros srv robot self h e Hrej Hinv msg h1.
  assert (Hsearch : forall u limit suffix fs fr fg,
             truthy u = true -> robot u = false ->
             _ldap_user_search srv robot self u limit suffix fs fr fg h = (h1, Ret (None, msg))).
  { intros u limit suffix fs fr fg Hu Hr. unfold _ldap_user_search. rewrite Hu, Hr. cbn [negb].
    now rewrite (check_admin_bind_rejected srv self h e Hrej Hinv). }
  split; [|split; [|split; [|split]]].
  - intros u limit suffix fs fr fg Hu Hr. repeat split.
    + now apply Hsearch.
    + unfold get_user, _ldap_single_user_search, bind. rewrite Hr.
      now rewrite (Hsearch u 20 "" false false false Hu Hr).
    + unfold query_users. rewrite Hu. cbn [negb]. unfold bind.
      now rewrite (Hsearch u limit "*" false false false Hu Hr).
    + unfold is_superuser, _ldap_single_user_search. rewrite Hu, Hr. cbn [negb].
      unfold bind. now rewrite (Hsearch u 20 "" true false false Hu Hr).
  - intros fs fr. unfold at_least_one_user_exists.
    now rewrite (check_admin_bind_rejected srv self h e Hrej Hinv).
  - unfold ping, with_get_connection, with_LDAPConnection. now rewrite Hrej, Hinv.
  - intros fuel args page_size disable. unfold iterate_group_members.
    rewrite (check_admin_bind_rejected srv self h e Hrej Hinv). eauto.
  - intros fuel args disable Hg. unfold check_group_lookup_args, iterate_group_members.
    rewrite Hg. cbn [negb]. unfold bind.
    now rewrite (check_admin_bind_rejected srv self h e Hrej Hinv).
Qed.

(** X8.  [ping] never raises a protocol error of the bind: it makes the one
    administrative bind and answers [(True, None)] exactly when the directory
    accepts it, releasing the connection then; otherwise it answers false
    with a message. *)
Theorem ping_reports_the_bind :
  forall (srv : DirectoryClient) (self : LDAPUsers) (h : history),
    match simple_bind_s srv h (_ldap_uri self) (_admin_dn self) (_admin_passwd self) with
    | None => ping srv self h = ((h ++ [admin_bind self]) ++ [EUnbind], Ret (true, None))
    | Some e =>
        exists msg, ping srv self h = (h ++ [admin_bind self], Ret (false, Some msg))
    end.
Proof.
  intros srv self h. unfold ping, with_get_connection, with_LDAPConnection.
  destruct (simple_bind_s srv h (_ldap_uri self) (_admin_dn self) (_admin_passwd self))
    as [e|]; [|reflexivity].
  destruct (kind e); eauto.
Qed.

(** ** What the user search returns *)

Lemma user_search_shape :
  forall (srv : DirectoryClient) (lookup_robot : string -> bool) (self : LDAPUsers)
         (u : string) (limit : nat) (suffix : string) (fs fr fg : bool)
         (h h' : history) (r : option (list _LDAPResult)) (e : option string),
    _ldap_user_search srv lookup_robot self u limit suffix fs fr fg h = (h', Ret (r, e)) ->
    (r = None /\ exists msg, e = Some msg) \/
    (e = None /\
     exists pairs : list pair,
       r = Some (filter (fun result => truthy (dn result)) (map as_result (take limit pairs)))).
Proof.
  intros srv robot self u limit suffix fs fr fg h h' r e H.
  unfold _ldap_user_search in H.
  destruct (truthy u); cbn [negb] in H; [|injection H as _ <- <-; left; eauto].
  destruct (robot u); [injection H as _ <- <-; left; eauto|].
  unfold check_admin_bind in H.
  destruct (with_get_connection srv self (ret tt) h) as [h1 [[]|ex|]]; try discriminate H.
  - unfold with_get_connection at 1, with_LDAPConnection in H.
    destruct (simple_bind_s srv h1 _ _ _); [discriminate H|].
    unfold bind in H.
    destruct (user_search_loop srv self u suffix fs fr fg (_user_dns self) None _)
      as [h2 [last|ex|]]; try discriminate H.
    destruct last as [[[pairs|] [msg|]]|]; try discriminate H;
      injection H as _ <- <-; [left; eauto | right | left; eauto].
    split; [reflexivity|]. exists pairs. reflexivity.
  - destruct ex as [le| | | | | |]; try discriminate H.
    destruct (kind le); try discriminate H. injection H as _ <- <-. left; eauto.
Qed.

Lemma invalid_admin_credentials_short_circuit_witness :
  get_user MoreFixtures.rejecting Fixtures.robots Fixtures.two_paths "alice" [] =
  ([admin_bind Fixtures.two_paths],
   Ret (None, Some "LDAP Admin dn or password is invalid")) /\
  check_group_lookup_args MoreFixtures.rejecting Fixtures.two_paths 1
    [("group_dn", "cn=devs")] false [] =
  ([admin_bind Fixtures.two_paths],
   Ret (false, Some "LDAP Admin dn or password is invalid")).
Proof.
  destruct (invalid_admin_credentials_short_circuit MoreFixtures.rejecting Fixtures.robots
              Fixtures.two_paths [] MoreFixtures.invalid_credentials eq_refl eq_refl)
    as (Hsearch & _ & _ & _ & Hgroup).
  split.
  - exact (proj1 (proj2 (Hsearch "alice" 20 "" false false false eq_refl eq_refl))).
  - exact (Hgroup 1 [("group_dn", "cn=devs")] false eq_refl).
Defined.

Lemma build_some_or_message (self : LDAPUsers) (response : payload)
    (r : option UserInformation) :
  _build_user_information self response = Ret (r, None) -> r <> None.
Proof.
  unfold _build_user_information. destruct response as [a|urls]; [|discriminate].
  destruct (negb (truthy (dict_get a (_uid_attr self)))); [discriminate|].
  destruct (_requires_email self && negb (truthy (dict_get a (_email_attr self))));
    [discriminate|].
  destruct (dict_get a (_uid_attr self)) as [[|u us]|]; try discriminate.
  destruct (dict_get a (_email_attr self)) as [[|m ms]|]; try discriminate;
    intros H; injection H as <-; discriminate.
Qed.

Lemma final_results_of_bounded (self : LDAPUsers) (results : list _LDAPResult) :
  forall final : list (option UserInformation),
    final_results_of self results = Ret final ->
    List.length final <= List.length results /\ Forall (fun c => c <> None) final.
Proof.
  induction results as [|result rest IH]; intros final H; cbn [final_results_of] in H.
  - injection H as <-. split; [apply le_n | constructor].
  - destruct (_build_user_information self (res_attrs result)) as [[c err]| |] eqn:Hb;
      try discriminate H.
    destruct (final_results_of self rest) as [l| |]; try discriminate H.
    destruct (IH l eq_refl) as [Hlen Hall].
    injection H as <-. cbn [List.length]. destruct err as [msg|]; cbn [is_none].
    + split; [lia | assumption].
    + split; [cbn [List.length]; lia|]. constructor; [|assumption].
      now apply (build_some_or_message self (res_attrs result)).
Qed.

(** X9.  [query_users] answers with the service name and either no list and a
    message, or a list and no message; the list holds at most [limit] records,
    and every element of it is a record. *)
Theorem query_users_bounded :
  forall (srv : DirectoryClient) (lookup_robot : string -> bool) (self : LDAPUsers)
         (query : string) (limit : nat) (h h' : history)
         (r : option (list (option UserInformation))) (svc : string) (e : option string),
    query_users srv lookup_robot self query limit h = (h', Ret (r, svc, e)) ->
    svc = "ldap" /\
    ((r = None /\ exists msg, e = Some msg) \/
     (e = None /\
      exists final, r = Some final /\ List.length final <= limit /\
                    Forall (fun c => c <> None) final)).
Proof.
  intros srv robot self query limit h h' r svc e H. unfold query_users, ret in H.
  destruct (truthy query); cbn [negb] in H;
    [|injection H as _ <- <- <-; split; [reflexivity | left; eauto]].
  unfold bind in H.
  destruct (_ldap_user_search srv robot self query limit "*" false false false h)
    as [h1 [[r1 e1]|ex|]] eqn:Hs; try discriminate H.
  destruct r1 as [results|]; destruct e1 as [msg|]; cbv beta iota in H;
    try discriminate H;
    try (injection H as _ <- <- <-; split; [reflexivity | left; eauto]; fail).
  unfold lift in H.
  destruct (final_results_of self (firstn limit results)) as [final| |] eqn:Hf;
    try discriminate H.
  injection H as _ <- <- <-. split; [reflexivity|]. right. split; [reflexivity|].
  exists final. split; [reflexivity|].
  destruct (final_results_of_bounded self _ final Hf) as [Hlen Hall].
  split; [|assumption].
  pose proof (firstn_le_length limit results). lia.
Qed.

Lemma query_users_bounded_witness :
  query_users MoreFixtures.two_carols Fixtures.robots Fixtures.one_path "car" 3 [] =
  ([admin_bind Fixtures.one_path; EUnbind; admin_bind Fixtures.one_path;
    ESearchS Fixtures.STAFF SCOPE_SUBTREE "(|(uid=car*)(mail=car*))"; EUnbind],
   Ret (Some [Some {| username := "carol"; email := Some "carol@x.com"; id := "carol" |}],
        "ldap", None)) /\
  "ldap" = "ldap".
Proof.
  split; [reflexivity|].
  exact (proj1 (query_users_bounded MoreFixtures.two_carols Fixtures.robots
                  Fixtures.one_path "car" 3 [] _ _ "ldap" None eq_refl)).
Defined.

(** ** The single-user search *)

Lemma with_mail_of_filter (self : LDAPUsers) (with_dns : list _LDAPResult) :
  forall with_mail : list _LDAPResult,
    with_mail_of self with_dns = Ret with_mail ->
    with_mail = filter (has_mail self) with_dns.
Proof.
  induction with_dns as [|result rest IH]; intros with_mail H; cbn [with_mail_of] in H.
  - injection H as <-. reflexivity.
  - unfold has_mail at 1. cbn [filter]. unfold payload_get in H.
    destruct (res_attrs result) as [a|urls]; [|discriminate H].
    destruct (with_mail_of self rest) as [l| |]; try discriminate H.
    injection H as <-. rewrite (IH l eq_refl).
    unfold has_mail at 2. now destruct (truthy (dict_get a (_email_attr self))).
Qed.

Lemma filter_head_in {A} (f : A -> bool) (l : list A) (x : A) (xs : list A) :
  filter f l = x :: xs -> In x l /\ f x = true.
Proof.
  intros H. assert (Hin : In x (filter f l)) by (rewrite H; now left).
  now apply filter_In in Hin.
Qed.

(** What the single-user search makes of the results of the user search. *)
Lemma single_user_choice :
  forall (srv : DirectoryClient) (lookup_robot : string -> bool) (self : LDAPUsers)
         (u : string) (fs fr fg : bool) (h h1 h' : history)
         (with_dns : list _LDAPResult) (r : option _LDAPResult) (e : option string),
    lookup_robot u = false ->
    _ldap_user_search srv lookup_robot self u 20 "" fs fr fg h = (h1, Ret (Some with_dns, None)) ->
    _ldap_single_user_search srv lookup_robot self u fs fr fg h = (h', Ret (r, e)) ->
    h' = h1 /\
    ((with_dns = [] /\ r = None /\ e = Some "Invalid username or password.") \/
     (e = None /\
      exists x, r = Some x /\ In x with_dns /\
                (forall y, In y with_dns -> has_mail self y = true ->
                           has_mail self x = true))).
Proof.
  intros srv robot self u fs fr fg h h1 h' with_dns r e Hr Hs H.
  unfold _ldap_single_user_search in H. rewrite Hr in H.
  unfold bind in H. rewrite Hs in H.
  destruct with_dns as [|d [|d2 rest]]; cbn [List.length Nat.ltb Nat.leb] in H.
  - injection H as <- <- <-. split; [reflexivity|]. left. auto.
  - injection H as <- <- <-. split; [reflexivity|]. right. split; [reflexivity|].
    exists d. split; [reflexivity|]. split; [now left|].
    intros y [<-|[]] Hy. exact Hy.
  - unfold lift in H.
    destruct (with_mail_of self (d :: d2 :: rest)) as [with_mail| |] eqn:Hm;
      try discriminate H.
    apply with_mail_of_filter in Hm.
    destruct with_mail as [|m ms]; injection H as <- <- <-;
      (split; [reflexivity|]); right; (split; [reflexivity|]).
    + exists d. split; [reflexivity|]. split; [now left|].
      intros y Hy Hmail.
      assert (Hin : In y (filter (has_mail self) (d :: d2 :: rest)))
        by (apply filter_In; now split).
      rewrite <- Hm in Hin. destruct Hin.
    + symmetry in Hm. apply filter_head_in in Hm. destruct Hm as [Hin Hmail].
      exists m. split; [reflexivity|]. split; [assumption|]. intros _ _ _. exact Hmail.
Qed.

(** X10.  The single-user search returns either a result and no message, or
    no result and a message.  A result it returns has a non-empty DN. *)
Theorem single_user_search_result_has_dn :
  forall (srv : DirectoryClient) (lookup_robot : string -> bool) (self : LDAPUsers)
         (u : string) (fs fr fg : bool) (h h' : history)
         (r : option _LDAPResult) (e : option string),
    _ldap_single_user_search srv lookup_robot self u fs fr fg h = (h', Ret (r, e)) ->
    (r = None /\ exists msg, e = Some msg) \/
    (e = None /\
     exists (d : string) (found : _LDAPResult),
       r = Some found /\ dn found = Some d /\ truthy d = true).
Proof.
  intros srv robot self u fs fr fg h h' r e H.
  destruct (robot u) eqn:Hr.
  { unfold _ldap_single_user_search in H. rewrite Hr in H.
    injection H as _ <- <-. left. eauto. }
  pose proof H as H0. unfold _ldap_single_user_search in H. rewrite Hr in H.
  unfold bind in H.
  destruct (_ldap_user_search srv robot self u 20 "" fs fr fg h) as [h1 [[r1 e1]|ex|]] eqn:Hs;
    try discriminate H.
  destruct (user_search_shape _ _ _ _ _ _ _ _ _ _ _ _ _ Hs)
    as [[-> [msg ->]] | [-> [pairs ->]]].
  { injection H as _ <- <-. left. eauto. }
  clear H.
  destruct (single_user_choice _ _ _ _ _ _ _ _ _ _ _ _ _ Hr Hs H0)
    as [_ [(_ & -> & ->) | (-> & x & -> & Hin & _)]]; [left; eauto|].
  right. split; [reflexivity|].
  apply filter_In in Hin. destruct Hin as [_ Hdn].
  destruct (dn x) as [d|] eqn:Hd; [|discriminate Hdn].
  exists d, x. auto.
Qed.

(** X11.  When several entries with a DN match, the single-user search
    returns one of them, and one that has the email attribute whenever one of
    them has it; when none matches it answers that the username or password is
    invalid.  It makes no round-trip of its own. *)
Theorem single_user_search_prefers_mail :
  forall (srv : DirectoryClient) (lookup_robot : string -> bool) (self : LDAPUsers)
         (u : string) (fs fr fg : bool) (h h1 h' : history)
         (with_dns : list _LDAPResult) (r : option _LDAPResult) (e : option string),
    lookup_robot u = false ->
    _ldap_user_search srv lookup_robot self u 20 "" fs fr fg h = (h1, Ret (Some with_dns, None)) ->
    _ldap_single_user_search srv lookup_robot self u fs fr fg h = (h', Ret (r, e)) ->
    h' = h1 /\
    ((with_dns = [] /\ r = None /\ e = Some "Invalid username or password.") \/
     (e = None /\
      exists x, r = Some x /\ In x with_dns /\
                (forall y, In y with_dns -> has_mail self y = true ->
                           has_mail self x = true))).
Proof.
  intros srv robot self u fs fr fg h h1 h' with_dns r e Hr Hs H.
  exact (single_user_choice srv robot self u fs fr fg h h1 h' with_dns r e Hr Hs H).
Qed.

Lemma single_user_search_prefers_mail_witness :
  _ldap_single_user_search MoreFixtures.two_carols Fixtures.robots Fixtures.one_path "carol"
    false false false [] =
  ([admin_bind Fixtures.one_path; EUnbind; admin_bind Fixtures.one_path;
    ESearchS Fixtures.STAFF SCOPE_SUBTREE "(|(uid=carol)(mail=carol))"; EUnbind],
   Ret (Some (as_result MoreFixtures.carol_with_mail), None)) /\
  [admin_bind Fixtures.one_path; EUnbind; admin_bind Fixtures.one_path;
    ESearchS Fixtures.STAFF SCOPE_SUBTREE "(|(uid=carol)(mail=carol))"; EUnbind] =
  [admin_bind Fixtures.one_path; EUnbind; admin_bind Fixtures.one_path;
    ESearchS Fixtures.STAFF SCOPE_SUBTREE "(|(uid=carol)(mail=carol))"; EUnbind].
Proof.
  split; [reflexivity|].
  exact (proj1 (single_user_search_prefers_mail MoreFixtures.two_carols Fixtures.robots
                  Fixtures.one_path "carol" false false false [] _ _
                  [as_result MoreFixtures.carol_without_mail;
                   as_result MoreFixtures.carol_with_mail]
                  (Some (as_result MoreFixtures.carol_with_mail)) None
                  eq_refl eq_refl eq_refl)).
Defined.

Lemma single_user_search_result_has_dn_witness :
  exists (d : string) (found : _LDAPResult),
    Some (as_result MoreFixtures.carol_with_mail) = Some found /\
    dn found = Some d /\ truthy d = true.
Proof.
  destruct (single_user_search_result_has_dn MoreFixtures.two_carols Fixtures.robots
              Fixtures.one_path "carol" false false false [] _
              (Some (as_result MoreFixtures.carol_with_mail)) None eq_refl)
    as [[H _] | [_ H]]; [discriminate H | exact H].
Defined.

(** ** Credential verification against the directory *)

Lemma single_user_search_found_dn :
  forall (srv : DirectoryClient) (lookup_robot : string -> bool) (self : LDAPUsers)
         (u : string) (fs fr fg : bool) (h h' : history)
         (found : _LDAPResult) (e : option string),
    _ldap_single_user_search srv lookup_robot self u fs fr fg h = (h', Ret (Some found, e)) ->
    truthy (dn_text (dn found)) = true.
Proof.
  intros srv robot self u fs fr fg h h' found e H.
  destruct (robot u) eqn:Hr.
  { unfold _ldap_single_user_search in H. rewrite Hr in H. discriminate H. }
  pose proof H as H0. unfold _ldap_single_user_search in H. rewrite Hr in H.
  unfold bind in H.
  destruct (_ldap_user_search srv robot self u 20 "" fs fr fg h) as [h1 [[r1 e1]|ex|]] eqn:Hs;
    try discriminate H.
  destruct (user_search_shape _ _ _ _ _ _ _ _ _ _ _ _ _ Hs)
    as [[-> [msg ->]] | [-> [pairs ->]]]; [discriminate H|].
  clear H.
  destruct (single_user_choice _ _ _ _ _ _ _ _ _ _ _ _ _ Hr Hs H0)
    as [_ [(_ & Hn & _) | (_ & x & Hx & Hin & _)]]; [discriminate Hn|].
  injection Hx as <-.
  apply filter_In in Hin. destruct Hin as [_ Hdn].
  destruct (dn found) as [d|]; [exact Hdn | discriminate Hdn].
Qed.

(** X12.  [verify_credentials] returns an identity record only after a bind
    of this very call has been accepted with the secret given, which is not
    empty.  The single-user search of the call found an entry with a
    non-empty DN, and the record is what that entry resolves to.  Either the
    directory accepted the bind as the DN of that entry, made right after the
    search and released; or it answered that bind with a referral that names
    a non-empty DN, and accepted the bind as that DN, made next and
    released.  Nothing else follows the search. *)
Theorem verified_credentials_were_bound :
  forall (srv : DirectoryClient) (lookup_robot : string -> bool) (self : LDAPUsers)
         (u password : string) (h h' : history)
         (info : UserInformation) (e : option string),
    verify_credentials srv lookup_robot self u password h = (h', Ret (Some info, e)) ->
    truthy password = true /\
    exists (h1 : history) (found : _LDAPResult) (msg : option string),
      _ldap_single_user_search srv lookup_robot self u false false false h =
        (h1, Ret (Some found, msg)) /\
      truthy (dn_text (dn found)) = true /\
      _build_user_information self (res_attrs found) = Ret (Some info, e) /\
      let user_bind := EBind (_ldap_uri self) (dn_text (dn found)) password in
      ((simple_bind_s srv h1 (_ldap_uri self) (dn_text (dn found)) password = None /\
        h' = (h1 ++ [user_bind]) ++ [EUnbind]) \/
       (exists (re : ldap_error) (referral_dn : string),
           simple_bind_s srv h1 (_ldap_uri self) (dn_text (dn found)) password = Some re /\
           kind re = K_REFERRAL /\
           _get_ldap_referral_dn re = Some referral_dn /\
           truthy referral_dn = true /\
           simple_bind_s srv (h1 ++ [user_bind]) (_ldap_uri self) referral_dn password
             = None /\
           h' = ((h1 ++ [user_bind]) ++ [EBind (_ldap_uri self) referral_dn password])
                ++ [EUnbind])).
Proof.
  intros srv robot self u password h h' info e H.
  unfold verify_credentials in H.
  destruct (truthy password) eqn:Hp; cbn [negb] in H; [|discriminate H].
  split; [reflexivity|].
  unfold bind in H.
  destruct (_ldap_single_user_search srv robot self u false false false h)
    as [h1 [[r1 e1]|ex|]] eqn:Hs; try discriminate H.
  destruct r1 as [found|]; [|discriminate H].
  pose proof (single_user_search_found_dn _ _ _ _ _ _ _ _ _ _ _ Hs) as Hdn.
  exists h1, found, e1. split; [reflexivity|]. split; [exact Hdn|].
  unfold with_LDAPConnection, ret, lift in H.
  destruct (simple_bind_s srv h1 (_ldap_uri self) (dn_text (dn found)) password)
    as [re|] eqn:Hb.
  - destruct (kind re) eqn:Hk; try discriminate H.
    destruct (_get_ldap_referral_dn re) as [referral_dn|] eqn:Hr; [|discriminate H].
    destruct (truthy referral_dn) eqn:Hrd; cbn [negb] in H; [|discriminate H].
    destruct (simple_bind_s srv
                (h1 ++ [EBind (_ldap_uri self) (dn_text (dn found)) password])
                (_ldap_uri self) referral_dn password) as [re2|] eqn:Hb2.
    + destruct (kind re2); discriminate H.
    + injection H as <- Hbuild. split; [exact Hbuild|].
      right. exists re, referral_dn. repeat split; auto.
  - injection H as <- Hbuild. split; [exact Hbuild|]. left. split; reflexivity.
Qed.

Lemma verified_credentials_were_bound_witness :
  truthy "wonderland" = true /\
  exists (h1 : history) (found : _LDAPResult) (msg : option string),
    _ldap_single_user_search MoreFixtures.alice_logs_in Fixtures.robots Fixtures.one_path
      "alice" false false false [] = (h1, Ret (Some found, msg)) /\
    truthy (dn_text (dn found)) = true /\
    _build_user_information Fixtures.one_path (res_attrs found) =
      Ret (Some {| username := "alice"; email := Some "alice@x.com"; id := "alice" |}, None) /\
    let user_bind :=
      EBind (_ldap_uri Fixtures.one_path) (dn_text (dn found)) "wonderland" in
    ((simple_bind_s MoreFixtures.alice_logs_in h1 (_ldap_uri Fixtures.one_path)
        (dn_text (dn found)) "wonderland" = None /\
      [admin_bind Fixtures.one_path; EUnbind; admin_bind Fixtures.one_path;
       ESearchS Fixtures.STAFF SCOPE_SUBTREE "(|(uid=alice)(mail=alice))"; EUnbind;
       EBind "ldap://directory" "uid=alice,ou=people,dc=x,dc=com" "wonderland"; EUnbind]
      = (h1 ++ [user_bind]) ++ [EUnbind]) \/
     (exists (re : ldap_error) (referral_dn : string),
         simple_bind_s MoreFixtures.alice_logs_in h1 (_ldap_uri Fixtures.one_path)
           (dn_text (dn found)) "wonderland" = Some re /\
         kind re = K_REFERRAL /\
         _get_ldap_referral_dn re = Some referral_dn /\
         truthy referral_dn = true /\
         simple_bind_s MoreFixtures.alice_logs_in (h1 ++ [user_bind])
           (_ldap_uri Fixtures.one_path) referral_dn "wonderland" = None /\
         [admin_bind Fixtures.one_path; EUnbind; admin_bind Fixtures.one_path;
          ESearchS Fixtures.STAFF SCOPE_SUBTREE "(|(uid=alice)(mail=alice))"; EUnbind;
          EBind "ldap://directory" "uid=alice,ou=people,dc=x,dc=com" "wonderland"; EUnbind]
         = ((h1 ++ [user_bind])
            ++ [EBind (_ldap_uri Fixtures.one_path) referral_dn "wonderland"])
           ++ [EUnbind])).
Proof.
  exact (verified_credentials_were_bound MoreFixtures.alice_logs_in Fixtures.robots
           Fixtures.one_path "alice" "wonderland" []
           [admin_bind Fixtures.one_path; EUnbind; admin_bind Fixtures.one_path;
            ESearchS Fixtures.STAFF SCOPE_SUBTREE "(|(uid=alice)(mail=alice))"; EUnbind;
            EBind "ldap://directory" "uid=alice,ou=people,dc=x,dc=com" "wonderland";
            EUnbind]
           {| username := "alice"; email := Some "alice@x.com"; id := "alice" |}
           None eq_refl).
Defined.

(** X13.  Once the single-user search has found an entry, [verify_credentials]
    binds once as the DN of that entry with the secret given: when the
    directory accepts the bind, the connection is released and the entry is
    resolved; when it rejects the bind as invalid credentials, the answer is
    that the username or password is invalid, and nothing else is tried. *)
Theorem verify_credentials_binds_as_found_entry :
  forall (srv : DirectoryClient) (lookup_robot : string -> bool) (self : LDAPUsers)
         (u password : string) (h h1 : history) (found : _LDAPResult) (e : option string),
    truthy password = true ->
    _ldap_single_user_search srv lookup_robot self u false false false h =
      (h1, Ret (Some found, e)) ->
    let user_bind := EBind (_ldap_uri self) (dn_text (dn found)) password in
    match simple_bind_s srv h1 (_ldap_uri self) (dn_text (dn found)) password with
    | None =>
        verify_credentials srv lookup_robot self u password h =
        ((h1 ++ [user_bind]) ++ [EUnbind], _build_user_information self (res_attrs found))
    | Some re =>
        kind re = K_INVALID_CREDENTIALS ->
        verify_credentials srv lookup_robot self u password h =
        (h1 ++ [user_bind], Ret (None, Some "Invalid username or password."))
    end.
Proof.
  intros srv robot self u password h h1 found e Hp Hs user_bind.
  unfold verify_credentials. rewrite Hp. cbn [negb]. unfold bind. rewrite Hs.
  unfold with_LDAPConnection, ret. fold user_bind.
  destruct (simple_bind_s srv h1 (_ldap_uri self) (dn_text (dn found)) password) as [re|].
  - intros Hk. rewrite Hk. reflexivity.
  - unfold lift. reflexivity.
Qed.

Lemma verify_credentials_binds_as_found_entry_witness :
  verify_credentials MoreFixtures.alice_logs_in Fixtures.robots Fixtures.one_path
    "alice" "rabbit" [] =
  ([admin_bind Fixtures.one_path; EUnbind; admin_bind Fixtures.one_path;
    ESearchS Fixtures.STAFF SCOPE_SUBTREE "(|(uid=alice)(mail=alice))"; EUnbind;
    EBind "ldap://directory" "uid=alice,ou=people,dc=x,dc=com" "rabbit"],
   Ret (None, Some "Invalid username or password.")).
Proof.
  exact (verify_credentials_binds_as_found_entry MoreFixtures.alice_logs_in Fixtures.robots
           Fixtures.one_path "alice" "rabbit" [] _ (as_result Fixtures.alice_entry) None
           eq_refl eq_refl eq_refl).
Defined.

(** ** Roles without a filter *)

Section UnconfiguredRole.

Variable srv : DirectoryClient.
Variable lookup_robot : string -> bool.
Variable self : LDAPUsers.
Variable u : string.
Variables fs fr fg : bool.

Hypothesis unconfigured : role_unconfigured self fs fr fg = true.

Lemma with_rdn_unconfigured (base suffix : string) (h : history) :
  exists msg,
    _ldap_user_search_with_rdn srv self u base suffix fs fr fg h = (h, Ret (None, Some msg)).
Proof.
  unfold role_unconfigured in unconfigured. unfold _ldap_user_search_with_rdn.
  destruct fr; [rewrite unconfigured; unfold ret; eauto|].
  destruct fs; [rewrite unconfigured; unfold ret; eauto|].
  destruct fg; [rewrite unconfigured; unfold ret; eauto|].
  discriminate unconfigured.
Qed.

Lemma user_search_loop_unconfigured (suffix : string) (dns : list string) :
  forall (last : option search_outcome) (h : history),
    (last = None \/ exists msg, last = Some (None, Some msg)) ->
    exists r,
      user_search_loop srv self u suffix fs fr fg dns last h = (h, Ret r) /\
      (r = None \/ exists msg, r = Some (None, Some msg)).
Proof.
  induction dns as [|base rest IH]; intros last h Hlast.
  - cbn [user_search_loop]. unfold ret. eauto.
  - cbn [user_search_loop]. unfold bind.
    destruct (with_rdn_unconfigured base suffix h) as [msg ->]. cbn [fst].
    apply IH. right. eauto.
Qed.

Lemma user_search_unconfigured (limit : nat) (suffix : string) (h h' : history)
    (r : option (list _LDAPResult)) (e : option string) :
  _ldap_user_search srv lookup_robot self u limit suffix fs fr fg h = (h', Ret (r, e)) ->
  r = None /\ Forall not_a_search (skipn (List.length h) h').
Proof.
  intros H. unfold _ldap_user_search in H.
  destruct (truthy u); cbn [negb] in H;
    [|injection H as <- <- _; rewrite skipn_all; auto].
  destruct (lookup_robot u); [injection H as <- <- _; rewrite skipn_all; auto|].
  unfold check_admin_bind, with_get_connection, with_LDAPConnection, ret in H.
  destruct (simple_bind_s srv h _ _ _) as [e0|].
  { destruct (kind e0); try discriminate H. injection H as <- <- _.
    rewrite skipn_app, skipn_all, Nat.sub_diag. cbn [skipn app].
    split; [reflexivity|]. repeat (constructor; try exact I). }
  destruct (simple_bind_s srv _ _ _ _) as [e1|]; [discriminate H|].
  unfold bind in H.
  match type of H with
  | context [user_search_loop srv self u suffix fs fr fg ?dns None ?h0] =>
      destruct (user_search_loop_unconfigured suffix dns None h0) as (r0 & Hl & Hr0);
        [now left | rewrite Hl in H]
  end.
  destruct Hr0 as [-> | [msg ->]]; [discriminate H|].
  injection H as <- <- _. split; [reflexivity|].
  rewrite <- !app_assoc. rewrite skipn_app, skipn_all, Nat.sub_diag. cbn [skipn app].
  repeat (constructor; try exact I).
Qed.

End UnconfiguredRole.

(** X14.  A role whose filter is not configured is never granted, and the
    directory is never searched for it: the user search for such a role finds
    nothing and makes no [search_s]; [is_superuser] and
    [is_global_readonly_superuser] never answer true when their filter is
    absent or empty, and neither does [is_restricted_user] when the
    restricted-user filter is the empty string (which is not [None]). *)
Theorem unconfigured_role_is_never_granted :
  forall (srv : DirectoryClient) (lookup_robot : string -> bool) (self : LDAPUsers)
         (u : string) (h : history),
    (forall (fs fr fg : bool) (limit : nat) (suffix : string) (h' : history)
            (r : option (list _LDAPResult)) (e : option string),
        role_unconfigured self fs fr fg = true ->
        _ldap_user_search srv lookup_robot self u limit suffix fs fr fg h = (h', Ret (r, e)) ->
        r = None /\ Forall not_a_search (skipn (List.length h) h')) /\
    (truthy (_ldap_superuser_filter self) = false ->
     snd (is_superuser srv lookup_robot self u h) <> Ret true) /\
    (truthy (_ldap_global_readonly_superuser_filter self) = false ->
     snd (is_global_readonly_superuser srv lookup_robot self u h) <> Ret true) /\
    (_ldap_restricted_user_filter self = Some "" ->
     snd (is_restricted_user srv lookup_robot self u h) <> Ret true).
Proof.
  intros srv robot self u h.
  assert (Hsingle : forall fs fr fg,
             role_unconfigured self fs fr fg = true ->
             forall h' r e,
               _ldap_single_user_search srv robot self u fs fr fg h = (h', Ret (r, e)) ->
               r = None).
  { intros fs fr fg Hun h' r e H. unfold _ldap_single_user_search in H.
    destruct (robot u); [now injection H as _ <- _|].
    unfold bind in H.
    destruct (_ldap_user_search srv robot self u 20 "" fs fr fg h) as [h1 [[r1 e1]|ex|]] eqn:Hs;
      try discriminate H.
    destruct (user_search_unconfigured srv robot self u fs fr fg Hun 20 "" h h1 r1 e1 Hs)
      as [-> _].
    destruct e1 as [msg|]; [now injection H as _ <- _ | discriminate H]. }
  split; [|split; [|split]].
  - intros fs fr fg limit suffix h' r e Hun Hs.
    exact (user_search_unconfigured srv robot self u fs fr fg Hun limit suffix h h' r e Hs).
  - intros Hf. unfold is_superuser. destruct (truthy u); cbn [negb]; [|discriminate].
    destruct (robot u); [discriminate|]. unfold bind.
    destruct (_ldap_single_user_search srv robot self u true false false h)
      as [h1 [[r1 e1]|ex|]] eqn:Hs; cbn [snd]; try discriminate.
    rewrite (Hsingle true false false) with (h' := h1) (r := r1) (e := e1);
      [discriminate | | exact Hs].
    unfold role_unconfigured. now rewrite Hf.
  - intros Hf. unfold is_global_readonly_superuser.
    destruct (truthy u); cbn [negb]; [|discriminate].
    destruct (robot u); [discriminate|]. unfold bind.
    destruct (_ldap_single_user_search srv robot self u false false true h)
      as [h1 [[r1 e1]|ex|]] eqn:Hs; cbn [snd]; try discriminate.
    rewrite (Hsingle false false true) with (h' := h1) (r := r1) (e := e1);
      [discriminate | | exact Hs].
    unfold role_unconfigured. now rewrite Hf.
  - intros Hf. unfold is_restricted_user. rewrite Hf. cbn [is_none].
    destruct (truthy u); cbn [negb]; [|discriminate].
    destruct (robot u); [discriminate|]. unfold bind.
    destruct (_ldap_single_user_search srv robot self u false true false h)
      as [h1 [[r1 e1]|ex|]] eqn:Hs; cbn [snd]; try discriminate.
    rewrite (Hsingle false true false) with (h' := h1) (r := r1) (e := e1);
      [discriminate | | exact Hs].
    unfold role_unconfigured. now rewrite Hf.
Qed.

Lemma unconfigured_role_is_never_granted_witness :
  is_superuser Fixtures.alice_directory Fixtures.robots Fixtures.two_paths "alice" [] =
  ([admin_bind Fixtures.two_paths; EUnbind; admin_bind Fixtures.two_paths; EUnbind],
   Ret false) /\
  snd (is_superuser Fixtures.alice_directory Fixtures.robots Fixtures.two_paths "alice" [])
  <> Ret true.
Proof.
  split; [reflexivity|].
  exact (proj1 (proj2 (unconfigured_role_is_never_granted Fixtures.alice_directory
                         Fixtures.robots Fixtures.two_paths "alice" [])) eq_refl).
Defined.

(** ** Protocol errors of the search *)

Lemma search_following_referral_returns :
  forall (srv : DirectoryClient) (self : LDAPUsers) (u base q : string) (h : history),
    exists (h' : history) (r : search_outcome),
      search_following_referral srv self u base q h = (h', Ret r) /\
      exclusive r /\
      (h' = h ++ [ESearchS base SCOPE_SUBTREE q] \/
       exists referral_dn,
         h' = (h ++ [ESearchS base SCOPE_SUBTREE q]) ++
              [ESearchS referral_dn SCOPE_BASE (referral_subquery self u)]).
Proof.
  intros srv self u base q h.
  unfold search_following_referral, try_ldap, bind, call, ret, exclusive.
  destruct (search_s srv h base SCOPE_SUBTREE q) as [re|pairs].
  - destruct (kind re);
      try (eexists; eexists; split; [reflexivity|]; split; [left; cbn; eauto | now left]).
    destruct (_get_ldap_referral_dn re) as [referral_dn|];
      [|eexists; eexists; split; [reflexivity|]; split; [left; cbn; eauto | now left]].
    destruct (truthy referral_dn); cbn [negb];
      [|eexists; eexists; split; [reflexivity|]; split; [left; cbn; eauto | now left]].
    destruct (search_s srv (h ++ [ESearchS base SCOPE_SUBTREE q]) referral_dn SCOPE_BASE
                (referral_subquery self u)) as [re2|pairs2];
      eexists; eexists; (split; [reflexivity|]); (split; [|right; eauto]).
    + left; cbn; eauto.
    + right; cbn; eauto.
  - eexists; eexists; split; [reflexivity|]. split; [right; cbn; eauto | now left].
Qed.

Lemma with_rdn_returns :
  forall (srv : DirectoryClient) (self : LDAPUsers) (u base suffix : string)
         (fs fr fg : bool) (h : history),
    exists (h' : history) (r : search_outcome),
      _ldap_user_search_with_rdn srv self u base suffix fs fr fg h = (h', Ret r) /\
      exclusive r /\
      (h' = h \/
       (exists q, h' = h ++ [ESearchS base SCOPE_SUBTREE q]) \/
       (exists q referral_dn,
           h' = (h ++ [ESearchS base SCOPE_SUBTREE q]) ++
                [ESearchS referral_dn SCOPE_BASE (referral_subquery self u)])).
Proof.
  intros srv self u base suffix fs fr fg h.
  assert (Hrun : forall q,
             exists (h' : history) (r : search_outcome),
               search_following_referral srv self u base q h = (h', Ret r) /\
               exclusive r /\
               (h' = h \/
                (exists q, h' = h ++ [ESearchS base SCOPE_SUBTREE q]) \/
                (exists q referral_dn,
                    h' = (h ++ [ESearchS base SCOPE_SUBTREE q]) ++
                         [ESearchS referral_dn SCOPE_BASE (referral_subquery self u)]))).
  { intros q. destruct (search_following_referral_returns srv self u base q h)
      as (h' & r & Hs & Hex & Htrips).
    exists h', r. split; [exact Hs|]. split; [exact Hex|].
    destruct Htrips as [-> | [rdn ->]]; right; [left | right]; eauto. }
  assert (Hearly : forall msg : string,
             exists (h' : history) (r : search_outcome),
               ret (None, Some msg) h = (h', Ret r) /\ exclusive r /\
               (h' = h \/
                (exists q, h' = h ++ [ESearchS base SCOPE_SUBTREE q]) \/
                (exists q referral_dn,
                    h' = (h ++ [ESearchS base SCOPE_SUBTREE q]) ++
                         [ESearchS referral_dn SCOPE_BASE (referral_subquery self u)]))).
  { intros msg. exists h, (None, Some msg). unfold ret, exclusive.
    repeat split; auto. left. cbn. eauto. }
  unfold _ldap_user_search_with_rdn, _add_restricted_user_filter, _add_superuser_filter,
    _add_global_readonly_superuser_filter, add_asserted_filter.
  destruct fr.
  { destruct (_ldap_restricted_user_filter self) as [f|]; [|apply Hearly].
    rewrite truthy_Some. destruct (truthy f); cbn [negb]; [|apply Hearly].
    unfold bind, ret. apply Hrun. }
  destruct fs.
  { destruct (_ldap_superuser_filter self) as [f|]; [|apply Hearly].
    rewrite truthy_Some. destruct (truthy f); cbn [negb]; [|apply Hearly].
    unfold bind, ret. apply Hrun. }
  destruct fg.
  { destruct (_ldap_global_readonly_superuser_filter self) as [f|]; [|apply Hearly].
    rewrite truthy_Some. destruct (truthy f); cbn [negb]; [|apply Hearly].
    unfold bind, ret. apply Hrun. }
  apply Hrun.
Qed.

Lemma user_search_loop_returns :
  forall (srv : DirectoryClient) (self : LDAPUsers) (u suffix : string) (fs fr fg : bool)
         (dns : list string) (last : option search_outcome) (h : history),
    (dns <> [] \/ exists r0, last = Some r0 /\ exclusive r0) ->
    exists (h' : history) (r : search_outcome),
      user_search_loop srv self u suffix fs fr fg dns last h = (h', Ret (Some r)) /\
      exclusive r.
Proof.
  intros srv self u suffix fs fr fg dns.
  induction dns as [|base rest IH]; intros last h Hstart.
  - destruct Hstart as [Hne | (r0 & -> & Hex)]; [contradiction|].
    cbn [user_search_loop]. unfold ret. eauto.
  - cbn [user_search_loop]. unfold bind.
    destruct (with_rdn_returns srv self u base suffix fs fr fg h) as (h1 & r & -> & Hex & _).
    destruct (fst r) as [pairs|].
    + destruct (Nat.ltb 0 (List.length pairs)); [unfold ret; eauto|].
      apply IH. right. eauto.
    + apply IH. right. eauto.
Qed.

(** X15.  No protocol error of a search reaches the caller.  On one base
    path the search returns either results and no message or no result and a
    message, after at most two searches: the subtree search and, after a
    referral, one base-scope retry; the assertions on the role filters are
    never reached with a filter that is missing.  When the administrative bind
    is accepted and there is a base path, the search over the candidate base
    paths returns as well, whatever the directory answers to the searches. *)
Theorem search_errors_never_propagate :
  forall (srv : DirectoryClient) (lookup_robot : string -> bool) (self : LDAPUsers)
         (u suffix : string) (fs fr fg : bool) (h : history),
    (forall base : string,
        exists (h' : history) (r : search_outcome),
          _ldap_user_search_with_rdn srv self u base suffix fs fr fg h = (h', Ret r) /\
          exclusive r /\
          (h' = h \/
           (exists q, h' = h ++ [ESearchS base SCOPE_SUBTREE q]) \/
           (exists q referral_dn,
               h' = (h ++ [ESearchS base SCOPE_SUBTREE q]) ++
                    [ESearchS referral_dn SCOPE_BASE (referral_subquery self u)]))) /\
    (admin_accepted srv self -> _user_dns self <> [] ->
     forall limit : nat,
     exists (h' : history) (r : option (list _LDAPResult) * option string),
       _ldap_user_search srv lookup_robot self u limit suffix fs fr fg h = (h', Ret r)).
Proof.
  intros srv robot self u suffix fs fr fg h. split.
  - intros base. apply with_rdn_returns.
  - intros Hadm Hne limit. unfold _ldap_user_search.
    destruct (truthy u); cbn [negb]; [|unfold ret; eauto].
    destruct (robot u); [unfold ret; eauto|].
    rewrite check_admin_bind_accepted, with_get_connection_accepted by assumption.
    unfold bind.
    match goal with
    | |- context [user_search_loop srv self u suffix fs fr fg ?dns None ?h0] =>
        destruct (user_search_loop_returns srv self u suffix fs fr fg dns None h0)
          as (h1 & r & -> & Hex); [now left|]
    end.
    destruct r as [pairs err].
    destruct Hex as [[Hp [msg Hm]] | [Hm [ps Hp]]]; cbn [fst snd] in Hp, Hm; subst;
      cbn [fst snd]; unfold ret; cbn [fst snd]; eauto.
Qed.

Lemma search_errors_never_propagate_witness :
  exists (h' : history) (r : option (list _LDAPResult) * option string),
    _ldap_user_search Fixtures.referring_directory Fixtures.robots Fixtures.two_paths
      "alice" 20 "" false false false [] = (h', Ret r).
Proof.
  exact (proj2 (search_errors_never_propagate Fixtures.referring_directory Fixtures.robots
                  Fixtures.two_paths "alice" "" false false false [])
           (fun _ => eq_refl)
           (fun H => eq_ind (_user_dns Fixtures.two_paths)
                       (fun l => match l with [] => False | _ => True end) I [] H)
           20).
Defined.

(** X16.  A referral whose info block names an [ldap:///] target with a DN is
    followed once: the retry is a base-scope search on that DN, made with the
    identity-only filter whatever role filter the first search carried; what
    it finds is the result, and any protocol error of the retry, a second
    referral included, gives "Username not found". *)
Theorem referral_followed_once :
  forall (srv : DirectoryClient) (self : LDAPUsers) (u base q referral_dn : string)
         (re : ldap_error) (h : history),
    kind re = K_REFERRAL ->
    dict_get (args0 re) "info" = Some (REFERRAL_HEADER +++ REFERRAL_SCHEME +++ referral_dn) ->
    truthy referral_dn = true ->
    search_s srv h base SCOPE_SUBTREE q = inl re ->
    let h1 := h ++ [ESearchS base SCOPE_SUBTREE q] in
    search_following_referral srv self u base q h =
    (h1 ++ [ESearchS referral_dn SCOPE_BASE (referral_subquery self u)],
     match search_s srv h1 referral_dn SCOPE_BASE (referral_subquery self u) with
     | inr pairs => Ret (Some pairs, None)
     | inl _ => Ret (None, Some "Username not found")
     end).
Proof.
  intros srv self u base q rdn re h Hk Hi Ht Hs h1.
  unfold search_following_referral, try_ldap, bind, call, ret.
  rewrite Hs, Hk. rewrite (referral_dn_parsed_aux re rdn Hi), Ht. cbn [negb].
  fold h1.
  now destruct (search_s srv h1 rdn SCOPE_BASE (referral_subquery self u)).
Qed.

Lemma referral_followed_once_witness :
  search_following_referral Fixtures.referring_directory MoreFixtures.with_role_filters
    "alice" Fixtures.STAFF "(&(uid=alice)(memberOf=cn=admins,dc=x,dc=com))" [] =
  ([ESearchS Fixtures.STAFF SCOPE_SUBTREE "(&(uid=alice)(memberOf=cn=admins,dc=x,dc=com))";
    ESearchS "uid=eve,dc=other" SCOPE_BASE "(uid=alice)"],
   Ret (Some [], None)).
Proof.
  exact (referral_followed_once Fixtures.referring_directory MoreFixtures.with_role_filters
           "alice" Fixtures.STAFF "(&(uid=alice)(memberOf=cn=admins,dc=x,dc=com))"
           "uid=eve,dc=other"
           (Fixtures.referral (REFERRAL_HEADER +++ "ldap:///uid=eve,dc=other")) []
           eq_refl eq_refl eq_refl eq_refl).
Defined.

(** ** An identity that the directory does not hold *)

Section Absent.

Variable srv : DirectoryClient.
Variable lookup_robot : string -> bool.
Variable self : LDAPUsers.
Variable u : string.

Hypothesis accepted : admin_accepted srv self.
Hypothesis some_path : _user_dns self <> [].
Hypothesis nothing_found :
  forall (h : history) (base : string) (sc : scope) (q : string),
    search_s srv h base sc q = inr [].
Hypothesis named : truthy u = true.
Hypothesis no_robot : lookup_robot u = false.

Ltac early_return :=
  eexists; eexists; split; [reflexivity|]; right; split; [reflexivity|];
  eexists; reflexivity.
Ltac found_nothing := eexists; eexists; split; [reflexivity|]; left; reflexivity.

Lemma with_rdn_nothing (base suffix : string) (fs fr fg : bool) (h : history) :
  exists (h' : history) (r : search_outcome),
    _ldap_user_search_with_rdn srv self u base suffix fs fr fg h = (h', Ret r) /\
    (r = (Some [], None) \/
     (role_unconfigured self fs fr fg = true /\ exists msg, r = (None, Some msg))).
Proof.
  assert (Hrun : forall q,
             search_following_referral srv self u base q h =
             (h ++ [ESearchS base SCOPE_SUBTREE q], Ret (Some [], None))).
  { intros q. unfold search_following_referral, try_ldap, bind, call, ret.
    now rewrite nothing_found. }
  unfold _ldap_user_search_with_rdn, _add_restricted_user_filter, _add_superuser_filter,
    _add_global_readonly_superuser_filter, add_asserted_filter, role_unconfigured.
  destruct fr.
  { destruct (_ldap_restricted_user_filter self) as [f|];
      [|unfold ret; cbn [negb truthy Truthy_option]; early_return].
    rewrite truthy_Some. destruct (truthy f); cbn [negb]; [|unfold ret; early_return].
    unfold bind, ret. rewrite Hrun. found_nothing. }
  destruct fs.
  { destruct (_ldap_superuser_filter self) as [f|];
      [|unfold ret; cbn [negb truthy Truthy_option]; early_return].
    rewrite truthy_Some. destruct (truthy f); cbn [negb]; [|unfold ret; early_return].
    unfold bind, ret. rewrite Hrun. found_nothing. }
  destruct fg.
  { destruct (_ldap_global_readonly_superuser_filter self) as [f|];
      [|unfold ret; cbn [negb truthy Truthy_option]; early_return].
    rewrite truthy_Some. destruct (truthy f); cbn [negb]; [|unfold ret; early_return].
    unfold bind, ret. rewrite Hrun. found_nothing. }
  rewrite Hrun. found_nothing.
Qed.

Lemma user_search_loop_nothing (suffix : string) (fs fr fg : bool) (dns : list string) :
  forall (last : option search_outcome) (h : history),
    (dns <> [] \/ last = Some (Some [], None) \/
     (role_unconfigured self fs fr fg = true /\ exists msg, last = Some (None, Some msg))) ->
    exists (h' : history) (r : search_outcome),
      user_search_loop srv self u suffix fs fr fg dns last h = (h', Ret (Some r)) /\
      (r = (Some [], None) \/
       (role_unconfigured self fs fr fg = true /\ exists msg, r = (None, Some msg))).
Proof.
  induction dns as [|base rest IH]; intros last h Hstart.
  - cbn [user_search_loop]. unfold ret.
    destruct Hstart as [Hne | [-> | [Hun [msg ->]]]]; [contradiction | eauto |].
    eexists; eexists; split; [reflexivity|]. right. split; [exact Hun | eauto].
  - cbn [user_search_loop]. unfold bind.
    destruct (with_rdn_nothing base suffix fs fr fg h)
      as (h1 & r & -> & [-> | [Hun [msg ->]]]);
      cbn [fst List.length Nat.ltb Nat.leb]; apply IH; right; [now left|].
    right. split; [exact Hun | eauto].
Qed.

Lemma single_user_search_nothing (fs fr fg : bool) (h : history) :
  exists (h' : history) (msg : string),
    _ldap_single_user_search srv lookup_robot self u fs fr fg h = (h', Ret (None, Some msg)) /\
    (role_unconfigured self fs fr fg = false -> msg = "Invalid username or password.").
Proof.
  unfold _ldap_single_user_search, _ldap_user_search. rewrite no_robot, named. cbn [negb].
  unfold bind at 1.
  rewrite check_admin_bind_accepted, with_get_connection_accepted by assumption.
  unfold bind at 1.
  match goal with
  | |- context [user_search_loop srv self u "" fs fr fg ?dns None ?h0] =>
      destruct (user_search_loop_nothing "" fs fr fg dns None h0) as (h1 & r & Hl & Hr);
        [now left|]
  end.
  rewrite Hl. destruct Hr as [-> | [Hun [msg ->]]]; cbn.
  - unfold ret. eexists. eexists. split; [reflexivity | reflexivity].
  - unfold ret. eexists. eexists. split; [reflexivity|].
    intros Hconf. rewrite Hconf in Hun. discriminate Hun.
Qed.

End Absent.

(** X17.  For an identity the directory does not hold (every search returns
    no entry), with the administrative bind accepted and at least one base
    path: [get_user] and [verify_credentials] answer that the username or
    password is invalid, [is_superuser] and [is_global_readonly_superuser]
    answer false, and so does [is_restricted_user] when a restricted-user
    filter is configured; none of them raises. *)
Theorem absent_identity_is_not_found :
  forall (srv : DirectoryClient) (lookup_robot : string -> bool) (self : LDAPUsers)
         (u password : string) (h : history),
    admin_accepted srv self ->
    _user_dns self <> [] ->
    (forall (h : history) (base : string) (sc : scope) (q : string),
        search_s srv h base sc q = inr []) ->
    truthy u = true ->
    lookup_robot u = false ->
    snd (get_user srv lookup_robot self u h) =
      Ret (None, Some "Invalid username or password.") /\
    (truthy password = true ->
     snd (verify_credentials srv lookup_robot self u password h) =
       Ret (None, Some "Invalid username or password.")) /\
    snd (is_superuser srv lookup_robot self u h) = Ret false /\
    snd (is_global_readonly_superuser srv lookup_robot self u h) = Ret false /\
    (_ldap_restricted_user_filter self <> None ->
     snd (is_restricted_user srv lookup_robot self u h) = Ret false).
Proof.
  intros srv robot self u password h Hadm Hne Hnone Hu Hr.
  pose proof (single_user_search_nothing srv robot self u Hadm Hne Hnone Hu Hr) as Hsingle.
  repeat split.
  - unfold get_user, bind.
    destruct (Hsingle false false false h) as (h1 & msg & -> & Hmsg).
    now rewrite (Hmsg eq_refl).
  - intros Hp. unfold verify_credentials. rewrite Hp. cbn [negb]. unfold bind.
    destruct (Hsingle false false false h) as (h1 & msg & -> & Hmsg).
    now rewrite (Hmsg eq_refl).
  - unfold is_superuser. rewrite Hu, Hr. cbn [negb]. unfold bind.
    now destruct (Hsingle true false false h) as (h1 & msg & -> & _).
  - unfold is_global_readonly_superuser. rewrite Hu, Hr. cbn [negb]. unfold bind.
    now destruct (Hsingle false false true h) as (h1 & msg & -> & _).
  - intros Hf. unfold is_restricted_user. rewrite Hu, Hr. cbn [negb].
    destruct (_ldap_restricted_user_filter self) as [f|] eqn:Ef; [|contradiction].
    cbn [is_none]. unfold bind.
    now destruct (Hsingle false true false h) as (h1 & msg & -> & _).
Qed.

Lemma absent_identity_is_not_found_witness :
  get_user Fixtures.empty_directory Fixtures.robots Fixtures.two_paths "mallory" [] =
  ([admin_bind Fixtures.two_paths; EUnbind; admin_bind Fixtures.two_paths;
    ESearchS Fixtures.STAFF SCOPE_SUBTREE "(|(uid=mallory)(mail=mallory))";
    ESearchS Fixtures.PEOPLE SCOPE_SUBTREE "(|(uid=mallory)(mail=mallory))";
    EUnbind],
   Ret (None, Some "Invalid username or password.")) /\
  snd (get_user Fixtures.empty_directory Fixtures.robots Fixtures.two_paths "mallory" []) =
  Ret (None, Some "Invalid username or password.").
Proof.
  split; [reflexivity|].
  exact (proj1 (absent_identity_is_not_found Fixtures.empty_directory Fixtures.robots
                  Fixtures.two_paths "mallory" "secret" []
                  (fun _ => eq_refl)
                  (fun H => eq_ind (_user_dns Fixtures.two_paths)
                              (fun l => match l with [] => False | _ => True end) I [] H)
                  (fun _ _ _ _ => eq_refl) eq_refl eq_refl)).
Defined.

(** ** More on the enumeration of group members *)

(** X18.  Without pagination the enumeration of a base path reads one batch
    with [result], yields its items and goes on with what follows the base
    path, whatever the size of the batch: it never asks for a second batch. *)
Theorem unpaginated_single_batch :
  forall (srv : DirectoryClient) (self : LDAPUsers) (search_flt : string)
         (page_size fuel : nat) (base : string) (m : msgid)
         (next_path : history -> gen member) (h : history)
         (rdata : list pair) (items : list member),
    result srv h m = inr rdata ->
    resolved self rdata = Some items ->
    drain (page_loop srv self search_flt page_size false (S fuel) base m next_path h) =
    (items ++ fst (drain (next_path (h ++ [EResult m]))),
     snd (drain (next_path (h ++ [EResult m])))).
Proof.
  intros srv self flt size fuel base m next_path h rdata items Hr Hi.
  cbn [page_loop]. unfold fetch. rewrite Hr.
  rewrite <- (drain_yield_users self rdata next_path (h ++ [EResult m]) items Hi).
  apply drain_yield_users_after.
  now destruct (negb (truthy (List.length rdata))).
Qed.

Lemma unpaginated_single_batch_witness :
  drain (_iterate_members MoreFixtures.plain_members MoreFixtures.unpaginated 1 "cn=devs"
           "memberOf" 1 false [])
  = ([Groups.member_info "ann"; Groups.member_info "bob"],
     ([admin_bind MoreFixtures.unpaginated;
       ESearch Fixtures.STAFF SCOPE_SUBTREE Groups.DEVS_FILTER
         (attributes MoreFixtures.unpaginated);
       EResult 7;
       EUnbind],
      Ret tt)).
Proof.
  exact (unpaginated_single_batch MoreFixtures.plain_members MoreFixtures.unpaginated
           Groups.DEVS_FILTER 1 0 Fixtures.STAFF 7
           (path_loop MoreFixtures.plain_members MoreFixtures.unpaginated
              Groups.DEVS_FILTER 1 false 1 [])
           [admin_bind MoreFixtures.unpaginated;
            ESearch Fixtures.STAFF SCOPE_SUBTREE Groups.DEVS_FILTER
              (attributes MoreFixtures.unpaginated)]
           _ _ eq_refl eq_refl).
Defined.

(** X19.  A protocol error while the results of a search are fetched, a
    missing-object answer included, yields nothing more from the current base
    path and lets the enumeration go on with what follows it, with or without
    pagination. *)
Theorem fetch_error_skips_the_path :
  forall (srv : DirectoryClient) (self : LDAPUsers) (search_flt : string)
         (page_size fuel : nat) (base : string) (m : msgid)
         (next_path : history -> gen member) (h : history) (e : ldap_error),
    (result3 srv h m = inl e ->
     page_loop srv self search_flt page_size true (S fuel) base m next_path h =
     next_path (h ++ [EResult3 m])) /\
    (result srv h m = inl e ->
     page_loop srv self search_flt page_size false (S fuel) base m next_path h =
     next_path (h ++ [EResult m])).
Proof.
  intros srv self flt size fuel base m next_path h e.
  split; intros Hr; cbn [page_loop]; unfold fetch; rewrite Hr; now destruct (kind e).
Qed.

Lemma fetch_error_skips_the_path_witness :
  page_loop Groups.staff_results_fail Fixtures.two_paths Groups.DEVS_FILTER 2 true 1
    Fixtures.STAFF 1 (fun h => GStop h) [] = GStop [EResult3 1].
Proof.
  exact (proj1 (fetch_error_skips_the_path Groups.staff_results_fail Fixtures.two_paths
                  Groups.DEVS_FILTER 2 0 Fixtures.STAFF 1 (fun h => GStop h) []
                  Groups.server_down) eq_refl).
Defined.

(** X20.  Referral-shaped results of a batch are skipped: the batch yields
    what the batch without them yields. *)
Theorem referral_shaped_results_are_skipped :
  forall (self : LDAPUsers) (rdata : list pair) (after : history -> gen member)
         (h : history),
    drain (yield_users self rdata after h) =
    drain (yield_users self (filter is_direct rdata) after h).
Proof.
  intros self rdata after h.
  induction rdata as [|[d p] rest IH]; [reflexivity|].
  unfold is_direct at 1. cbn [filter snd yield_users].
  destruct p as [a|urls]; [|exact IH].
  cbn [yield_users snd].
  destruct (_build_user_information self (Attrs a)); try reflexivity.
  cbn [drain]. now rewrite IH.
Qed.

(** ** Group references *)

(** X21.  A group reference without a group DN, or with an empty one, is
    refused by [check_group_lookup_args] before any round-trip, whereas
    [iterate_group_members] raises [KeyError] for a reference without the key,
    after it has checked the administrative bind; and a page size that is
    absent or zero stands for the default of 1000. *)
Theorem group_reference_edges :
  forall (srv : DirectoryClient) (self : LDAPUsers) (fuel : nat)
         (args : dict string) (disable : bool) (h : history),
    (truthy (dict_get args "group_dn") = false ->
     check_group_lookup_args srv self fuel args disable h =
     (h, Ret (false, Some "Missing group_dn"))) /\
    (admin_accepted srv self -> dict_get args "group_dn" = None ->
     forall page_size,
       iterate_group_members srv self fuel args page_size disable h =
       ((h ++ [admin_bind self]) ++ [EUnbind], Raise KeyError)) /\
    (admin_accepted srv self ->
     forall group_dn page_size,
       dict_get args "group_dn" = Some group_dn ->
       page_size = None \/ page_size = Some 0 ->
       iterate_group_members srv self fuel args page_size disable h =
       ((h ++ [admin_bind self]) ++ [EUnbind],
        Ret (Some (_iterate_members srv self fuel group_dn (_memberof_attr self) 1000 disable),
             None))).
Proof.
  intros srv self fuel args disable h. split; [|split].
  - intros Hg. unfold check_group_lookup_args. now rewrite Hg.
  - intros Hadm Hg page_size. unfold iterate_group_members.
    rewrite check_admin_bind_accepted by assumption. now rewrite Hg.
  - intros Hadm group_dn page_size Hg Hp. unfold iterate_group_members.
    rewrite check_admin_bind_accepted by assumption. rewrite Hg.
    now destruct Hp as [-> | ->].
Qed.

Lemma group_reference_edges_witness :
  check_group_lookup_args Groups.three_pages Fixtures.one_path 3 [("group_dn", "")] false [] =
  ([], Ret (false, Some "Missing group_dn")) /\
  iterate_group_members Groups.three_pages Fixtures.one_path 3 [("group", "cn=devs")]
    (Some 2) false [] =
  ([admin_bind Fixtures.one_path; EUnbind], Raise KeyError).
Proof.
  destruct (group_reference_edges Groups.three_pages Fixtures.one_path 3
              [("group_dn", "")] false []) as (H1 & _ & _).
  destruct (group_reference_edges Groups.three_pages Fixtures.one_path 3
              [("group", "cn=devs")] false []) as (_ & H2 & _).
  split.
  - exact (H1 eq_refl).
  - exact (H2 (fun _ => eq_refl) eq_refl (Some 2)).
Defined.

(** X22.  When the group reference names a group DN, the administrative bind
    is accepted and the member iterator ends without an item,
    [check_group_lookup_args] answers that the group does not exist or is
    empty. *)
Theorem check_group_lookup_args_no_item :
  forall (srv : DirectoryClient) (self : LDAPUsers) (fuel : nat)
         (group_lookup_args : dict string) (disable_pagination : bool)
         (group_dn : string) (h h' : history),
    dict_get group_lookup_args "group_dn" = Some group_dn ->
    truthy group_dn = true ->
    admin_accepted srv self ->
    next_or_default
      (_iterate_members srv self fuel group_dn (_memberof_attr self) 1 disable_pagination)
      ((h ++ [admin_bind self]) ++ [EUnbind]) = (h', Ret None) ->
    check_group_lookup_args srv self fuel group_lookup_args disable_pagination h =
    (h', Ret (false, Some "Group does not exist or is empty")).
Proof.
  intros srv self fuel args disable group_dn h h' Hg Ht Hadm Hnext.
  unfold check_group_lookup_args, iterate_group_members.
  rewrite Hg, truthy_Some, Ht. cbn [negb].
  unfold bind at 1. rewrite check_admin_bind_accepted by assumption.
  unfold ret at 1. cbn [truthy Truthy_nat].
  unfold bind. rewrite Hnext. reflexivity.
Qed.

Lemma check_group_lookup_args_no_item_witness :
  check_group_lookup_args Fixtures.empty_directory Fixtures.two_paths 1
    [("group_dn", "cn=devs")] false [] =
  ([admin_bind Fixtures.two_paths; EUnbind; admin_bind Fixtures.two_paths;
    ESearchExt Fixtures.STAFF SCOPE_SUBTREE Groups.DEVS_FILTER 1 ""
      (attributes Fixtures.two_paths);
    EResult3 0;
    ESearchExt Fixtures.PEOPLE SCOPE_SUBTREE Groups.DEVS_FILTER 1 ""
      (attributes Fixtures.two_paths);
    EResult3 0;
    EUnbind],
   Ret (false, Some "Group does not exist or is empty")).
Proof.
  exact (check_group_lookup_args_no_item Fixtures.empty_directory Fixtures.two_paths 1
           [("group_dn", "cn=devs")] false "cn=devs" [] _
           eq_refl eq_refl (fun _ => eq_refl) eq_refl).
Defined.

(** ** The existence check *)

Lemma first_with_entries_true (batch : string -> list pair) (dns : list string) :
  snd (first_with_entries batch dns) = true <->
  exists base, In base dns /\ batch base <> [].
Proof.
  induction dns as [|base rest IH]; cbn [first_with_entries].
  - split; [discriminate | intros (b & [] & _)].
  - destruct (batch base) as [|entry others] eqn:Hb.
    + destruct (first_with_entries batch rest) as [searched_paths found]. cbn [snd] in *.
      rewrite IH. split.
      * intros (b & Hin & Hne). exists b. split; [now right | assumption].
      * intros (b & [<- | Hin] & Hne); [now rewrite Hb in Hne | eauto].
    + cbn [snd]. split; [|reflexivity]. intros _. exists base.
      split; [now left | rewrite Hb; discriminate].
Qed.

Section Existence.

Variable srv : DirectoryClient.
Variable self : LDAPUsers.
Variable mid : string -> msgid.
Variable batch : string -> list pair.
Variable ctrls : string -> list control.

Hypothesis paginated : _force_no_pagination self = false.
Hypothesis issued :
  forall (h : history) (base : string),
    search_ext srv h base SCOPE_SUBTREE (_add_user_filter self "(objectClass=*)") 1 "" None =
    inr (mid base).
Hypothesis fetched :
  forall (h : history) (base : string),
    result3 srv h (mid base) = inr (batch base, ctrls base).

Lemma fetch_first_batch_paginated (base : string) (h : history) :
  fetch_first_batch srv true base (_add_user_filter self "(objectClass=*)") h =
  (h ++ existence_trips self mid base, Ret (batch base)).
Proof.
  unfold fetch_first_batch, bind, call, ret. rewrite issued, fetched.
  unfold existence_trips. now rewrite <- app_assoc.
Qed.

Lemma existence_loop_plain (dns : list string) :
  forall h : history,
    existence_loop srv self true false false dns h =
    match first_with_entries batch dns with
    | (searched_paths, found) =>
        (h ++ flat_map (existence_trips self mid) searched_paths,
         Ret (Some found, None))
    end.
Proof.
  induction dns as [|base rest IH]; intros h.
  - cbn [existence_loop first_with_entries flat_map]. unfold ret. now rewrite app_nil_r.
  - cbn [existence_loop first_with_entries]. unfold existence_query, bind at 1, ret at 1.
    unfold bind at 1, try_ldap, bind at 1.
    rewrite fetch_first_batch_paginated.
    destruct (batch base) as [|entry others].
    + unfold ret at 1. rewrite IH.
      destruct (first_with_entries batch rest) as [searched_paths found].
      cbn [flat_map]. now rewrite app_assoc.
    + unfold ret. cbn [flat_map]. now rewrite app_nil_r.
Qed.

End Existence.

(** X23.  With pagination, no role flag and an accepted administrative bind,
    [at_least_one_user_exists] asks every candidate base path in turn for one
    entry (page size 1) and stops at the first path that returns one: it
    answers true there, without searching the paths after it, and false when
    no path returns an entry. *)
Theorem existence_check_stops_at_first_entry :
  forall (srv : DirectoryClient) (self : LDAPUsers) (mid : string -> msgid)
         (batch : string -> list pair) (ctrls : string -> list control) (h : history),
    admin_accepted srv self ->
    _force_no_pagination self = false ->
    (forall (h : history) (base : string),
        search_ext srv h base SCOPE_SUBTREE (_add_user_filter self "(objectClass=*)") 1 ""
          None = inr (mid base)) ->
    (forall (h : history) (base : string),
        result3 srv h (mid base) = inr (batch base, ctrls base)) ->
    at_least_one_user_exists srv self false false h =
    (h ++ [admin_bind self; EUnbind; admin_bind self] ++
       flat_map (existence_trips self mid) (fst (first_with_entries batch (_user_dns self))) ++
       [EUnbind],
     Ret (Some (snd (first_with_entries batch (_user_dns self))), None)) /\
    (snd (first_with_entries batch (_user_dns self)) = true <->
     exists base, In base (_user_dns self) /\ batch base <> []).
Proof.
  intros srv self mid batch ctrls h Hadm Hpag Hissue Hfetch. split.
  - unfold at_least_one_user_exists.
    rewrite check_admin_bind_accepted, with_get_connection_accepted by assumption.
    rewrite Hpag. cbn [negb].
    rewrite (existence_loop_plain srv self mid batch ctrls Hissue Hfetch).
    destruct (first_with_entries batch (_user_dns self)) as [searched_paths found].
    cbn [fst snd]. f_equal. now rewrite <- !app_assoc.
  - apply first_with_entries_true.
Qed.

Lemma existence_check_stops_at_first_entry_witness :
  at_least_one_user_exists MoreFixtures.one_user_under_people Fixtures.two_paths false false []
  = ([admin_bind Fixtures.two_paths; EUnbind; admin_bind Fixtures.two_paths;
      ESearchExt Fixtures.STAFF SCOPE_SUBTREE "(objectClass=*)" 1 "" None; EResult3 1;
      ESearchExt Fixtures.PEOPLE SCOPE_SUBTREE "(objectClass=*)" 1 "" None; EResult3 2;
      EUnbind],
     Ret (Some true, None)).
Proof.
  exact (proj1 (existence_check_stops_at_first_entry MoreFixtures.one_user_under_people
                  Fixtures.two_paths
                  (fun base => if String.eqb base Fixtures.PEOPLE then 2 else 1)
                  (fun base => if String.eqb base Fixtures.PEOPLE
                               then [Fixtures.alice_entry] else [])
                  (fun base => if String.eqb base Fixtures.PEOPLE
                               then [Groups.paging "next"] else [])
                  []
                  (fun _ => eq_refl) eq_refl
                  (fun _ base => eq_refl)
                  (fun _ base =>
                     match String.eqb base Fixtures.PEOPLE as b
                       return result3 MoreFixtures.one_user_under_people _
                                (if b then 2 else 1) =
                              inr (if b then [Fixtures.alice_entry] else [],
                                   if b then [Groups.paging "next"] else [])
                     with
                     | true => eq_refl
                     | false => eq_refl
                     end))).
Defined.

(** X24.  A protocol error of the search on a base path ends the existence
    check: it answers false with the text of the error, or, when the error
    has no text, with a message that names the base path; the base paths
    after it are not searched, and the connection is released. *)
Theorem existence_check_reports_search_error :
  forall (srv : DirectoryClient) (self : LDAPUsers) (base : string) (rest : list string)
         (e : ldap_error) (h : history),
    admin_accepted srv self ->
    _force_no_pagination self = false ->
    _user_dns self = base :: rest ->
    (forall h, search_ext srv h base SCOPE_SUBTREE (_add_user_filter self "(objectClass=*)")
                 1 "" None = inl e) ->
    at_least_one_user_exists srv self false false h =
    (h ++ [admin_bind self; EUnbind; admin_bind self;
           ESearchExt base SCOPE_SUBTREE (_add_user_filter self "(objectClass=*)") 1 "" None;
           EUnbind],
     Ret (Some false,
          Some (if truthy (str_of e) then str_of e else "Could not find DN " +++ base))).
Proof.
  intros srv self base rest e h Hadm Hpag Hdns Hs.
  unfold at_least_one_user_exists.
  rewrite check_admin_bind_accepted, with_get_connection_accepted by assumption.
  rewrite Hpag, Hdns. cbn [negb existence_loop].
  unfold existence_query, fetch_first_batch, try_ldap, bind, call, ret.
  rewrite Hs. cbn [fst snd]. f_equal. now rewrite <- !app_assoc.
Qed.

Lemma existence_check_reports_search_error_witness :
  at_least_one_user_exists MoreFixtures.searches_fail Fixtures.two_paths false false [] =
  ([admin_bind Fixtures.two_paths; EUnbind; admin_bind Fixtures.two_paths;
    ESearchExt Fixtures.STAFF SCOPE_SUBTREE "(objectClass=*)" 1 "" None; EUnbind],
   Ret (Some false, Some "Could not find DN ou=staff,dc=x,dc=com")).
Proof.
  exact (existence_check_reports_search_error MoreFixtures.searches_fail Fixtures.two_paths
           Fixtures.STAFF [Fixtures.PEOPLE] MoreFixtures.silent_failure []
           (fun _ => eq_refl) eq_refl eq_refl (fun _ => eq_refl)).
Defined.

(** ** The term of the user query *)

Lemma escape_char_plain (a : ascii) :
  is_special a = false -> escape_char a = String a EmptyString.
Proof.
  unfold is_special, is_metachar, escape_char. intros H.
  apply orb_false_iff in H. destruct H as [H1 H].
  apply orb_false_iff in H. destruct H as [H H5].
  apply orb_false_iff in H. destruct H as [H H4].
  apply orb_false_iff in H. destruct H as [H2 H3].
  now rewrite H1, H2, H3, H4, H5.
Qed.

Lemma escape_filter_chars_plain (s : string) :
  (forall c, is_special c = true -> PyStr.mem c s = false) ->
  escape_filter_chars s = s.
Proof.
  induction s as [|a s IH]; intros H; [reflexivity|].
  rewrite escape_filter_chars_cons.
  assert (Ha : is_special a = false).
  { destruct (is_special a) eqn:E; [|reflexivity].
    specialize (H a E). cbn [PyStr.mem] in H. now rewrite Ascii.eqb_refl in H. }
  rewrite (escape_char_plain a Ha). cbn [String.append]. f_equal. apply IH.
  intros c Hc. specialize (H c Hc). cbn [PyStr.mem] in H.
  now apply orb_false_iff in H.
Qed.

(** X25.  With no user filter configured, the query of the user search is the
    disjunction of the uid and the email attribute on one term followed by the
    suffix; the term is the lookup term escaped: it holds no star, no
    parenthesis and no NUL, and it is the lookup term itself when that holds
    none of the characters that are escaped. *)
Theorem user_query_term_is_escaped :
  forall (self : LDAPUsers) (u suffix : string),
    _ldap_user_filter self = None ->
    exists term : string,
      user_query self u suffix =
        "(|(" +++ _uid_attr self +++ "=" +++ (term +++ suffix) +++ ")("
              +++ _email_attr self +++ "=" +++ (term +++ suffix) +++ "))" /\
      (forall c, is_metachar c = true -> PyStr.mem c term = false) /\
      ((forall c, is_special c = true -> PyStr.mem c u = false) -> term = u).
Proof.
  intros self u suffix Hf. exists (escape_filter_chars u). split; [|split].
  - unfold user_query, _add_user_filter. now rewrite Hf.
  - intros c Hc. now apply escape_filter_chars_no_metachar.
  - apply escape_filter_chars_plain.
Qed.

Lemma user_query_term_is_escaped_witness :
  exists term : string,
    user_query Fixtures.one_path "a*b" "*" =
      "(|(" +++ "uid" +++ "=" +++ (term +++ "*") +++ ")("
            +++ "mail" +++ "=" +++ (term +++ "*") +++ "))" /\
    (forall c, is_metachar c = true -> PyStr.mem c term = false) /\
    ((forall c, is_special c = true -> PyStr.mem c "a*b" = false) -> term = "a*b").
Proof.
  exact (user_query_term_is_escaped Fixtures.one_path "a*b" "*" eq_refl).
Defined.

(** ** Limit and DN of the results *)

(** X26.  When the user search returns results, it returns no message, at
    most [limit] results, and only results with a non-empty DN. *)
Theorem user_search_results_bounded :
  forall (srv : DirectoryClient) (lookup_robot : string -> bool) (self : LDAPUsers)
         (u : string) (limit : nat) (suffix : string) (fs fr fg : bool)
         (h h' : history) (results : list _LDAPResult) (e : option string),
    _ldap_user_search srv lookup_robot self u limit suffix fs fr fg h =
      (h', Ret (Some results, e)) ->
    e = None /\
    List.length results <= limit /\
    Forall (fun result => truthy (dn result) = true) results.
Proof.
  intros srv robot self u limit suffix fs fr fg h h' results e H.
  destruct (user_search_shape _ _ _ _ _ _ _ _ _ _ _ _ _ H)
    as [[Hn _] | [-> [pairs Hr]]]; [discriminate Hn|].
  injection Hr as ->. split; [reflexivity|]. split.
  - etransitivity; [apply filter_length_le|].
    rewrite length_map. unfold take. apply firstn_le_length.
  - apply Forall_forall. intros x Hx. now apply filter_In in Hx.
Qed.

Lemma user_search_results_bounded_witness :
  _ldap_user_search MoreFixtures.two_carols Fixtures.robots Fixtures.one_path "carol" 2 ""
    false false false [] =
  ([admin_bind Fixtures.one_path; EUnbind; admin_bind Fixtures.one_path;
    ESearchS Fixtures.STAFF SCOPE_SUBTREE "(|(uid=carol)(mail=carol))"; EUnbind],
   Ret (Some [as_result MoreFixtures.carol_without_mail], None)) /\
  @None string = None.
Proof.
  split; [reflexivity|].
  exact (proj1 (user_search_results_bounded MoreFixtures.two_carols Fixtures.robots
                  Fixtures.one_path "carol" 2 "" false false false [] _
                  [as_result MoreFixtures.carol_without_mail] None eq_refl)).
Defined.

(** ** Enumeration over several base paths *)

Section SingleBatches.

Variable srv : DirectoryClient.
Variable self : LDAPUsers.
Variable search_flt : string.
Variable page_size : nat.
Variable mid : string -> msgid.
Variable batch : string -> list pair.
Variable ctrls : string -> list control.
Variable items : string -> list member.

Hypothesis issued :
  forall (h : history) (base : string),
    search_ext srv h base SCOPE_SUBTREE search_flt page_size "" (attributes self) =
    inr (mid base).
Hypothesis fetched :
  forall (h : history) (base : string),
    result3 srv h (mid base) = inr (batch base, ctrls base).
Hypothesis last_batch : forall base, no_continuation (ctrls base).
Hypothesis resolves : forall base, resolved self (batch base) = Some (items base).

Lemma path_loop_single_batches (fuel : nat) (dns : list string) :
  forall h : history,
    drain (path_loop srv self search_flt page_size true (S fuel) dns h) =
    (flat_map items dns,
     ((h ++ flat_map (enumeration_trips self search_flt page_size mid) dns) ++ [EUnbind],
      Ret tt)).
Proof.
  induction dns as [|base rest IH]; intros h.
  - cbn [path_loop flat_map drain]. now rewrite app_nil_r.
  - cbn [path_loop flat_map]. unfold issue. rewrite issued.
    rewrite (page_loop_last_batch srv self search_flt page_size fuel base (mid base) _ _
               (batch base) (ctrls base) (fetched _ base) (last_batch base)).
    rewrite (drain_yield_users self (batch base) _ _ (items base) (resolves base)).
    rewrite IH. cbn [fst snd]. unfold enumeration_trips.
    now rewrite <- !app_assoc.
Qed.

End SingleBatches.

(** X27.  When every candidate base path answers the group search with a
    single batch, the enumeration yields the members of all base paths, those
    of a path in the order of its batch and the paths in their configured
    order, with one search and one fetch per path; it then releases the
    connection and stops. *)
Theorem enumeration_follows_configured_paths :
  forall (srv : DirectoryClient) (self : LDAPUsers) (group_dn memberof_attr : string)
         (page_size fuel : nat) (mid : string -> msgid) (batch : string -> list pair)
         (ctrls : string -> list control) (items : string -> list member) (h : history),
    let search_flt :=
      _add_user_filter self (filter_format3 memberof_attr group_dn (_base_dn self)) in
    admin_accepted srv self ->
    _force_no_pagination self = false ->
    (forall (h : history) (base : string),
        search_ext srv h base SCOPE_SUBTREE search_flt page_size "" (attributes self) =
        inr (mid base)) ->
    (forall (h : history) (base : string),
        result3 srv h (mid base) = inr (batch base, ctrls base)) ->
    (forall base, no_continuation (ctrls base)) ->
    (forall base, resolved self (batch base) = Some (items base)) ->
    drain (_iterate_members srv self (S fuel) group_dn memberof_attr page_size false h) =
    (flat_map items (_user_dns self),
     (((h ++ [admin_bind self]) ++
       flat_map (enumeration_trips self search_flt page_size mid) (_user_dns self)) ++
      [EUnbind],
      Ret tt)).
Proof.
  intros srv self group_dn memberof_attr page_size fuel mid batch ctrls items h search_flt
         Hadm Hpag Hissue Hfetch Hlast Hres.
  unfold _iterate_members. rewrite Hadm, Hpag. cbn [orb negb].
  fold search_flt. fold (admin_bind self).
  exact (path_loop_single_batches srv self search_flt page_size mid batch ctrls items
           Hissue Hfetch Hlast Hres fuel (_user_dns self) (h ++ [admin_bind self])).
Qed.

Lemma enumeration_follows_configured_paths_witness :
  drain (_iterate_members MoreFixtures.members_on_two_paths Fixtures.two_paths 1 "cn=devs"
           "memberOf" 5 false [])
  = ([Groups.member_info "ann"; Groups.member_info "bob"; Groups.member_info "cat"],
     ([admin_bind Fixtures.two_paths;
       ESearchExt Fixtures.STAFF SCOPE_SUBTREE Groups.DEVS_FILTER 5 ""
         (attributes Fixtures.two_paths);
       EResult3 1;
       ESearchExt Fixtures.PEOPLE SCOPE_SUBTREE Groups.DEVS_FILTER 5 ""
         (attributes Fixtures.two_paths);
       EResult3 2;
       EUnbind],
      Ret tt)).
Proof.
  exact (enumeration_follows_configured_paths MoreFixtures.members_on_two_paths
           Fixtures.two_paths "cn=devs" "memberOf" 5 0
           (fun base => if String.eqb base Fixtures.STAFF then 1 else 2)
           (fun base => if String.eqb base Fixtures.STAFF
                        then [Groups.member_entry "ann"; Groups.member_entry "bob"]
                        else [Groups.member_entry "cat"])
           (fun base => if String.eqb base Fixtures.STAFF then [] else [Groups.paging ""])
           (fun base => if String.eqb base Fixtures.STAFF
                        then [Groups.member_info "ann"; Groups.member_info "bob"]
                        else [Groups.member_info "cat"])
           []
           (fun _ => eq_refl) eq_refl
           (fun _ base => eq_refl)
           (fun _ base =>
              match String.eqb base Fixtures.STAFF as b
                return result3 MoreFixtures.members_on_two_paths _ (if b then 1 else 2) =
                       inr (if b then [Groups.member_entry "ann"; Groups.member_entry "bob"]
                            else [Groups.member_entry "cat"],
                            if b then [] else [Groups.paging ""])
              with true => eq_refl | false => eq_refl end)
           (fun base =>
              match String.eqb base Fixtures.STAFF as b
                return no_continuation (if b then [] else [Groups.paging ""])
              with true => I | false => eq_refl end)
           (fun base =>
              match String.eqb base Fixtures.STAFF as b
                return resolved Fixtures.two_paths
                         (if b then [Groups.member_entry "ann"; Groups.member_entry "bob"]
                          else [Groups.member_entry "cat"]) =
                       Some (if b then [Groups.member_info "ann"; Groups.member_info "bob"]
                             else [Groups.member_info "cat"])
              with true => eq_refl | false => eq_refl end)).
Defined.
